(** * Long-term-leave synchronisation: a shallow embedding of
    [cloud_function/main.py]

    The development embeds the eligibility computation ([parse_date],
    [get_interval_and_amount], [merge_intervals],
    [compute_long_term_emails]), the record-fetch loop ([fetch_time_offs]),
    the reconciliation of [sync_okta_group], the reading of secrets, the
    listing of the group's members and the entry point, and proves what
    the specification states about them, or shows where the code parts
    from it.

    The file has five parts: the program; the vocabulary of the
    properties, with the sweep and the planned calls the specification
    describes; the library functions and inputs of the worked examples;
    the properties the specification states; further properties of the
    functions.

    Conventions.
    - A Python exception is a value of [exn]; code that can raise returns a
      [result].
    - A [datetime.date] is its proleptic Gregorian ordinal
      ([date.toordinal()]), an integer between [date_min] and [date_max];
      adding a [timedelta] that leaves that range raises [OverflowError],
      as CPython does.
    - A Python [float] is a binary64 primitive float.
    - A Python [str] is a [string] holding its UTF-8 encoding; the order of
      two such strings is the order of their code points.
    - A decoded JSON document is a [pyval]; a record is a JSON object.
    - The library functions that read text ([fromisoformat], [float] of a
      string, [str(v).lower()]) and the settings read from the environment
      are parameters of the program. *)

From Stdlib Require Import ZArith Floats Ascii String.
From stdpp Require Import base tactics option list sorting gmap strings pretty.

Local Open Scope Z_scope.
Set Warnings "-register-all,-clear-no-such-hyp".

(** * The program *)

(** ** Exceptions *)

Inductive exn : Set :=
  | OverflowError
  | TypeError
  | ValueError
  | AttributeError
  | IndexError
  | HTTPError.

Inductive result (A : Type) : Type :=
  | Ok (a : A)
  | Raise (e : exn).
Arguments Ok {A} a.
Arguments Raise {A} e.

#[export] Instance result_ret : MRet result := @Ok.
#[export] Instance result_bind : MBind result := λ A B k m,
  match m with
  | Ok a => k a
  | Raise e => Raise e
  end.

(** A [for] loop whose body may raise: the state is threaded through the
    items, and the first exception ends the loop. *)
Fixpoint for_loop {S X : Type} (body : S → X → result S)
    (items : list X) (st : S) : result S :=
  match items with
  | [] => Ok st
  | x :: items' =>
      match body st x with
      | Ok st' => for_loop body items' st'
      | Raise e => Raise e
      end
  end.

(** ** Dates *)

Abbreviation date := Z (only parsing).

(** [date.min.toordinal()] and [date.max.toordinal()] (0001-01-01 and
    9999-12-31). *)
Definition date_min : date := 1.
Definition date_max : date := 3652059.

Definition valid_date (d : date) : Prop := date_min ≤ d ≤ date_max.

(** [d + dt.timedelta(days=n)] *)
Definition date_add_days (d : date) (n : Z) : result date :=
  if (date_min <=? d + n) && (d + n <=? date_max)
  then Ok (d + n)
  else Raise OverflowError.

(** An interval is the tuple [(start, end)]. *)
Abbreviation interval := (date * date)%type (only parsing).

Definition valid_interval (iv : interval) : Prop :=
  valid_date iv.1 ∧ valid_date iv.2.

(** ** [sorted(xs, key=...)]

    Python's [sorted] is stable: items with equal keys keep their order.
    Insertion from the right, before the first item whose key is not
    smaller, is the stable sort. *)

Section py_sorted.
Context {A : Type} (key : A → Z).

Fixpoint insert_by_key (x : A) (l : list A) : list A :=
  match l with
  | [] => [x]
  | y :: l' =>
      if key x <=? key y then x :: y :: l' else y :: insert_by_key x l'
  end.

Definition py_sorted (l : list A) : list A := foldr insert_by_key [] l.

End py_sorted.

(** ** [merge_intervals] *)

(** The loop state: [merged], [current_start], [current_end]. *)
Abbreviation merge_state := (list interval * date * date)%type (only parsing).

Definition merge_loop_body (st : merge_state) (iv : interval)
    : result merge_state :=
  let '(merged, current_start, current_end) := st in
  let '(start, end_) := iv in
  limit ← date_add_days current_end 1;
  if start <=? limit
  then Ok (merged, current_start, Z.max current_end end_)
  else Ok (merged ++ [(current_start, current_end)], start, end_).

Definition merge_intervals (intervals : list interval)
    : result (list interval) :=
  match intervals with
  | [] => Ok []
  | _ :: _ =>
      match py_sorted fst intervals with
      | [] => Raise IndexError
      | (current_start, current_end) :: rest =>
          '(merged, current_start, current_end) ←
            for_loop merge_loop_body rest ([], current_start, current_end);
          Ok (merged ++ [(current_start, current_end)])
      end
  end.

(** ** Python values *)

(** A decoded JSON document.  A JSON object is the list of its items in
    insertion order, as a Python [dict] keeps them. *)
Inductive pyval : Type :=
  | PNone
  | PBool (b : bool)
  | PInt (z : Z)
  | PFloat (f : float)
  | PStr (s : string)
  | PList (l : list pyval)
  | PDict (d : list (string * pyval)).

(** A [dict] with [str] keys. *)
Abbreviation pydict V := (list (string * V)) (only parsing).

(** An item of a ledger: the interval of a record and its amount. *)
Abbreviation amount_entry := (date * date * float)%type (only parsing).

(** The two ledgers, [user_intervals] and [user_amounts]. *)
Abbreviation ledgers :=
  (pydict (list interval) * pydict (list amount_entry))%type (only parsing).

Fixpoint dict_lookup {V : Type} (k : string) (d : pydict V) : option V :=
  match d with
  | [] => None
  | (k', v) :: d' => if String.eqb k k' then Some v else dict_lookup k d'
  end.

(** [d.get(k, default)] *)
Definition dict_get_default {V : Type} (d : pydict V) (k : string)
    (default : V) : V :=
  match dict_lookup k d with
  | Some v => v
  | None => default
  end.

(** [d.get(k)] *)
Definition dict_get (d : pydict pyval) (k : string) : pyval :=
  dict_get_default d k PNone.

(** [d.setdefault(k, []).append(x)] *)
Fixpoint setdefault_append {X : Type} (k : string) (x : X)
    (d : pydict (list X)) : pydict (list X) :=
  match d with
  | [] => [(k, [x])]
  | (k', xs) :: d' =>
      if String.eqb k k' then (k', xs ++ [x]) :: d'
      else (k', xs) :: setdefault_append k x d'
  end.

(** [bool(v)] *)
Definition truthy (v : pyval) : bool :=
  match v with
  | PNone => false
  | PBool b => b
  | PInt z => negb (z =? 0)
  | PFloat f => negb (f =? 0)%float
  | PStr s => negb (String.eqb s "")
  | PList l => match l with [] => false | _ :: _ => true end
  | PDict d => match d with [] => false | _ :: _ => true end
  end.

(** [a or b] *)
Definition py_or (a b : pyval) : pyval := if truthy a then a else b.

(** *** Strings *)

Definition byte_string (codes : list N) : string :=
  String.string_of_list_ascii (Ascii.ascii_of_N <$> codes).

(** The code points [str.isspace] accepts, UTF-8 encoded: U+0009..U+000D,
    U+001C..U+0020, U+0085, U+00A0, U+1680, U+2000..U+200A, U+2028, U+2029,
    U+202F, U+205F, U+3000. *)
Definition whitespace : list string :=
  byte_string <$>
    [ [9]; [10]; [11]; [12]; [13]; [28]; [29]; [30]; [31]; [32];
      [194; 133]; [194; 160]; [225; 154; 128];
      [226; 128; 128]; [226; 128; 129]; [226; 128; 130]; [226; 128; 131];
      [226; 128; 132]; [226; 128; 133]; [226; 128; 134]; [226; 128; 135];
      [226; 128; 136]; [226; 128; 137]; [226; 128; 138];
      [226; 128; 168]; [226; 128; 169]; [226; 128; 175]; [226; 129; 159];
      [227; 128; 128] ]%N.

Fixpoint drop_prefix (p s : string) : option string :=
  match p, s with
  | EmptyString, _ => Some s
  | String a p', String b s' =>
      if Ascii.eqb a b then drop_prefix p' s' else None
  | String _ _, EmptyString => None
  end.

Fixpoint drop_any_prefix (ps : list string) (s : string) : option string :=
  match ps with
  | [] => None
  | p :: ps' =>
      match drop_prefix p s with
      | Some s' => Some s'
      | None => drop_any_prefix ps' s
      end
  end.

Fixpoint lstrip_of (ps : list string) (fuel : nat) (s : string) : string :=
  match fuel with
  | O => s
  | S fuel' =>
      match drop_any_prefix ps s with
      | Some s' => lstrip_of ps fuel' s'
      | None => s
      end
  end.

(** [s.lstrip()], [s.rstrip()] and [s.strip()] *)
Definition py_lstrip (s : string) : string :=
  lstrip_of whitespace (String.length s) s.

Definition py_rstrip (s : string) : string :=
  String.rev (lstrip_of (String.rev <$> whitespace) (String.length s)
                (String.rev s)).

Definition py_strip (s : string) : string := py_rstrip (py_lstrip s).

(** [s.endswith(suffix)] *)
Definition py_endswith (s suffix : string) : bool :=
  String.prefix (String.rev suffix) (String.rev s).

(** [s[:-1]], for a string whose last character is one byte long (here it
    is [Z]) *)
Fixpoint drop_last (s : string) : string :=
  match s with
  | EmptyString => EmptyString
  | String _ EmptyString => EmptyString
  | String a s' => String a (drop_last s')
  end.

(** *** [float(v)] *)

(** [float(z)] for an [int]: the nearest binary64, ties to even, and
    [OverflowError] when that is not finite. *)
Definition float_of_int (z : Z) : result float :=
  match binary_normalize prec emax z 0 false with
  | S754_infinity _ => Raise OverflowError
  | x => Ok (SF2Prim x)
  end.

(** ** Library functions and configuration

    The library functions the program calls on strings are taken as they
    are: what they accept differs between Python versions, and nothing
    below depends on it.  [None] stands for a raised exception. *)
Record builtins : Type := {
  (** [dt.datetime.fromisoformat(s).date()] *)
  datetime_fromisoformat : string → option date;
  (** [dt.date.fromisoformat(s)] *)
  date_fromisoformat : string → option date;
  (** [float(s)] for a [str]; [None] is [ValueError] *)
  float_of_str : string → option float;
  (** [str(v).lower()] *)
  str_lower : pyval → string;
}.

(** The module-level settings read from the environment. *)
Record config : Type := {
  DEEL_PAGE_SIZE : Z;
  LONG_TERM_MIN_DAYS : Z;
  LONG_TERM_MIN_AMOUNT : float;
}.

Section program.
Context (py : builtins) (cfg : config).

(** ** [parse_date]

    The values are decoded JSON, so the [dt.date] and [dt.datetime]
    branches are never taken. *)
Definition parse_date (value : pyval) : option date :=
  if negb (truthy value) then None
  else
    match value with
    | PStr s =>
        let cleaned := py_strip s in
        let cleaned :=
          if py_endswith cleaned "Z"
          then drop_last cleaned +:+ "+00:00"
          else cleaned in
        match datetime_fromisoformat py cleaned with
        | Some d => Some d
        | None =>
            match date_fromisoformat py cleaned with
            | Some d => Some d
            | None => None
            end
        end
    | _ => None
    end.

(** [float(v)] *)
Definition py_float (v : pyval) : result float :=
  match v with
  | PBool b => Ok (if b then 1%float else 0%float)
  | PInt z => float_of_int z
  | PFloat f => Ok f
  | PStr s =>
      match float_of_str py s with
      | Some f => Ok f
      | None => Raise ValueError
      end
  | PNone | PList _ | PDict _ => Raise TypeError
  end.

(** ** [get_interval_and_amount] *)
Definition get_interval_and_amount (entry : pydict pyval)
    (window_start window_end : date)
    : result (option (date * date * float)) :=
  let start := parse_date (dict_get entry "start_date") in
  let end_ :=
    match parse_date (dict_get entry "end_date") with
    | Some e => Some e
    | None => start
    end in
  match start, end_ with
  | Some start, Some end_ =>
      if (start <=? window_end) && (end_ >=? window_start) then
        match dict_get entry "amount" with
        | PNone => Ok None
        | amount_raw =>
            match py_float amount_raw with
            | Ok amount_val => Ok (Some (start, end_, amount_val))
            | Raise TypeError | Raise ValueError => Ok None
            | Raise e => Raise e
            end
        end
      else Ok None
  | _, _ => Ok None
  end.

(** ** [extract_email] *)
Definition direct_keys : list string := ["user_email"; "email"; "work_email"].
Definition nested_keys : list string :=
  ["worker"; "user"; "person"; "profile"; "hris_profile";
   "recipient_profile"; "requester_profile"].
Definition nested_email_keys : list string :=
  ["email"; "work_email"; "personal_email"].

(** The first truthy [d.get(key)] over [keys], lower-cased. *)
Fixpoint first_email (d : pydict pyval) (keys : list string)
    : option string :=
  match keys with
  | [] => None
  | key :: keys' =>
      let email := dict_get d key in
      if truthy email then Some (str_lower py email) else first_email d keys'
  end.

Fixpoint nested_email (entry : pydict pyval) (keys : list string)
    : option string :=
  match keys with
  | [] => None
  | key :: keys' =>
      match py_or (dict_get entry key) (PDict []) with
      | PDict nested =>
          match first_email nested nested_email_keys with
          | Some email => Some email
          | None => nested_email entry keys'
          end
      | _ => nested_email entry keys'
      end
  end.

Definition extract_email (entry : pydict pyval) : option string :=
  match first_email entry direct_keys with
  | Some email => Some email
  | None => nested_email entry nested_keys
  end.

(** ** [compute_long_term_emails] *)

(** The body of the first loop, over the entries. *)
Definition ledger_loop_body (today : date) (st : ledgers)
    (entry : pydict pyval) : result ledgers :=
  let '(user_intervals, user_amounts) := st in
  match extract_email entry with
  | None => Ok st
  | Some email =>
      if String.eqb email "" then Ok st
      else
        interval_amount ← get_interval_and_amount entry today today;
        match interval_amount with
        | None => Ok st
        | Some (start, end_, amount_val) =>
            Ok (setdefault_append email (start, end_) user_intervals,
                setdefault_append email (start, end_, amount_val) user_amounts)
        end
  end.

Definition build_ledgers (entries : list (pydict pyval)) (today : date)
    : result ledgers :=
  for_loop (ledger_loop_body today) entries ([], []).

(** The innermost loop: the amounts of the entries that intersect the
    merged interval, added up in ledger order. *)
Definition total_amount (amounts : list amount_entry)
    (interval_start interval_end : date) : float :=
  fold_left
    (λ total '(start, end_, amount_val),
       if (start <=? interval_end) && (end_ >=? interval_start)
       then (total + amount_val)%float
       else total)
    amounts 0%float.

(** The loop over the merged intervals: [true] when it reaches
    [long_term_emails.add(email)]. *)
Fixpoint any_long_term (amounts : list amount_entry)
    (merged : list interval) : bool :=
  match merged with
  | [] => false
  | (interval_start, interval_end) :: merged' =>
      let interval_days := interval_end - interval_start + 1 in
      if interval_days <? LONG_TERM_MIN_DAYS cfg then
        any_long_term amounts merged'
      else if (LONG_TERM_MIN_AMOUNT cfg <=?
               total_amount amounts interval_start interval_end)%float
      then true
      else any_long_term amounts merged'
  end.

(** The body of the second loop, over [user_intervals.items()]. *)
Definition eligibility_loop_body (user_amounts : pydict (list amount_entry))
    (long_term_emails : gset string) (item : string * list interval)
    : result (gset string) :=
  let '(email, intervals) := item in
  merged ← merge_intervals intervals;
  if any_long_term (dict_get_default user_amounts email []) merged
  then Ok ({[email]} ∪ long_term_emails)
  else Ok long_term_emails.

Definition compute_long_term_emails (entries : list (pydict pyval))
    (today : date) : result (gset string) :=
  '(user_intervals, user_amounts) ← build_ledgers entries today;
  for_loop (eligibility_loop_body user_amounts) user_intervals ∅.

(** ** [fetch_time_offs] *)

(** The code points of a string, each as a string of its own. *)
Definition is_continuation_byte (a : Ascii.ascii) : bool :=
  let n := Ascii.N_of_ascii a in ((128 <=? n) && (n <? 192))%N.

Fixpoint utf8_chars (s : string) : list string :=
  match s with
  | EmptyString => []
  | String a s' =>
      match utf8_chars s' with
      | String b c :: cs =>
          if is_continuation_byte b then String a (String b c) :: cs
          else String a EmptyString :: String b c :: cs
      | cs => String a EmptyString :: cs
      end
  end.

(** What [for item in v] goes through (and [len(v)] counts); [TypeError]
    where [v] has no length. *)
Definition py_iter (v : pyval) : result (list pyval) :=
  match v with
  | PList l => Ok l
  | PDict d => Ok (PStr <$> d.*1)
  | PStr s => Ok (PStr <$> utf8_chars s)
  | PNone | PBool _ | PInt _ | PFloat _ => Raise TypeError
  end.

(** [body.get(key)]: only a [dict] has the method. *)
Definition body_get (body : pyval) (key : string) : result pyval :=
  match body with
  | PDict d => Ok (dict_get d key)
  | _ => Raise AttributeError
  end.

(** The query of a request: the cursor of the previous page, or the
    first-page filter. *)
Inductive request : Type :=
  | FirstPage
  | NextPage (next_cursor : pyval).

Definition request_of (next_cursor : pyval) : request :=
  if truthy next_cursor then NextPage next_cursor else FirstPage.

(** What the Record Source answers: a status [raise_for_status] rejects, or
    a decoded body. *)
Inductive response : Type :=
  | BadStatus
  | Body (body : pyval).

(** How one turn of the [while] loop ends. *)
Inductive page_outcome : Type :=
  | PageRaise (e : exn)
  | PageBreak (yielded : list pyval)
  | PageContinue (yielded : list pyval) (next_cursor : pyval).

(** One turn of the loop, from [resp.json()] on. *)
Definition page_turn (body : pyval) : page_outcome :=
  match
    data ← body_get body "data";
    time_offs ← body_get body "time_offs";
    items ← body_get body "items";
    results ← body_get body "results";
    Ok (py_or (py_or (py_or data time_offs) items) results)
  with
  | Raise e => PageRaise e
  | Ok items =>
      let items :=
        match items, body with
        | PNone, PList _ => body
        | _, _ => items
        end in
      if negb (truthy items) then PageBreak []
      else
        match py_iter items with
        | Raise e => PageRaise e
        | Ok yielded =>
            match
              has_next ← body_get body "has_next_page";
              next ← body_get body "next";
              cursor ← body_get body "cursor";
              Ok (has_next, py_or next cursor)
            with
            | Raise e => PageRaise e
            | Ok (has_next, next_cursor) =>
                if truthy has_next && truthy next_cursor
                then PageContinue yielded next_cursor
                else if Z.of_nat (length yielded) <? DEEL_PAGE_SIZE cfg
                then PageBreak yielded
                else PageBreak yielded
            end
        end
  end.

(** A run of the generator, consumed to its end. *)
Inductive fetch_end : Type :=
  | Returned
  | Raised (e : exn)
  | AwaitingResponse.

Record fetch_run : Type := {
  requests : list request;
  yielded_items : list pyval;
  fetch_final : fetch_end;
}.

(** The [while True] loop against the responses the source gives, one per
    request, in order. *)
Fixpoint fetch_loop (responses : list response) (next_cursor : pyval)
    : fetch_run :=
  let req := request_of next_cursor in
  match responses with
  | [] => {| requests := [req]; yielded_items := [];
             fetch_final := AwaitingResponse |}
  | BadStatus :: _ =>
      {| requests := [req]; yielded_items := [];
         fetch_final := Raised HTTPError |}
  | Body body :: responses' =>
      match page_turn body with
      | PageRaise e =>
          {| requests := [req]; yielded_items := [];
             fetch_final := Raised e |}
      | PageBreak yielded =>
          {| requests := [req]; yielded_items := yielded;
             fetch_final := Returned |}
      | PageContinue yielded next_cursor' =>
          let run := fetch_loop responses' next_cursor' in
          {| requests := req :: requests run;
             yielded_items := yielded ++ yielded_items run;
             fetch_final := fetch_final run |}
      end
  end.

Definition fetch_time_offs (responses : list response) : fetch_run :=
  fetch_loop responses PNone.

End program.

(** ** [sync_okta_group] *)

(** Code-point order of two strings. *)
Definition str_le (a b : string) : Prop := String.leb a b = true.

#[export] Instance str_le_dec : RelDecision str_le.
Proof. intros a b. unfold str_le. apply _. Defined.

(** [sorted(s)] of a set of strings. *)
Definition py_sorted_set (s : gset string) : list string :=
  merge_sort str_le (elements s).

(** [to_add] and [to_remove] *)
Definition reconciliation_plan (long_term_emails : gset string)
    (current_members : gmap string pyval) : gset string * gset string :=
  let current_emails := dom current_members in
  (long_term_emails ∖ current_emails, current_emails ∖ long_term_emails).

(** The directory service, as far as the run calls it. *)
Record okta_api : Type := {
  (** [_okta_lookup_user_id(token, email)] *)
  okta_lookup_user_id : string → result pyval;
  (** the [PUT] that adds [user_id] to the group, with [raise_for_status] *)
  okta_put_member : pyval → result ();
  (** the [DELETE] that removes [user_id] from the group *)
  okta_delete_member : pyval → result ();
}.

Inductive okta_call : Type :=
  | LookupUser (email : string)
  | PutMember (email : string) (user_id : pyval)
  | DeleteMember (email : string) (user_id : pyval).

(** The first loop: the calls made, and how the loop ended. *)
Fixpoint add_loop (okta : okta_api) (emails : list string)
    : list okta_call * result () :=
  match emails with
  | [] => ([], Ok ())
  | email :: emails' =>
      match okta_lookup_user_id okta email with
      | Raise e => ([LookupUser email], Raise e)
      | Ok user_id =>
          if negb (truthy user_id) then
            let '(calls, r) := add_loop okta emails' in
            (LookupUser email :: calls, r)
          else
            match okta_put_member okta user_id with
            | Raise e => ([LookupUser email; PutMember email user_id], Raise e)
            | Ok _ =>
                let '(calls, r) := add_loop okta emails' in
                (LookupUser email :: PutMember email user_id :: calls, r)
            end
      end
  end.

(** The second loop. *)
Fixpoint remove_loop (okta : okta_api) (current_members : gmap string pyval)
    (emails : list string) : list okta_call * result () :=
  match emails with
  | [] => ([], Ok ())
  | email :: emails' =>
      let user_id := default PNone (current_members !! email) in
      if negb (truthy user_id) then remove_loop okta current_members emails'
      else
        match okta_delete_member okta user_id with
        | Raise e => ([DeleteMember email user_id], Raise e)
        | Ok _ =>
            let '(calls, r) := remove_loop okta current_members emails' in
            (DeleteMember email user_id :: calls, r)
        end
  end.

(** [sync_okta_group], from the listing of the current members on. *)
Definition sync_okta_group (okta : okta_api) (long_term_emails : gset string)
    (current_members : gmap string pyval) : list okta_call * result () :=
  let '(to_add, to_remove) :=
    reconciliation_plan long_term_emails current_members in
  match add_loop okta (py_sorted_set to_add) with
  | (calls, Raise e) => (calls, Raise e)
  | (calls, Ok _) =>
      let '(calls', r) :=
        remove_loop okta current_members (py_sorted_set to_remove) in
      (calls ++ calls', r)
  end.

(** ** [_get_project_id] and [_get_secret_value] *)

(** What reading a secret raises: the [RuntimeError] of the module, or
    whatever the Secret Manager client raises (the construction of the
    client, the access, the decoding of the payload). *)
Inductive secret_error : Type :=
  | RuntimeError (message : string)
  | ClientError (description : string).

Inductive secret_result (A : Type) : Type :=
  | Got (a : A)
  | Failed (e : secret_error).
Arguments Got {A} a.
Arguments Failed {A} e.

(** Where the project comes from. *)
Record environment : Type := {
  (** the module constant [SECRET_PROJECT_ID] *)
  SECRET_PROJECT_ID : string;
  (** [os.getenv("GOOGLE_CLOUD_PROJECT")] and [os.getenv("GCP_PROJECT")] *)
  GOOGLE_CLOUD_PROJECT : option string;
  GCP_PROJECT : option string;
  (** the project of [google.auth.default()], which may be [None]; the
      outer [None] stands for a raised exception *)
  google_auth_default : option (option string);
}.

(** [not value], for a value that is a [str] or [None] *)
Definition missing (value : option string) : bool :=
  match value with
  | Some s => String.eqb s ""
  | None => true
  end.

(** [a or b], for two such values *)
Definition str_or (a b : option string) : option string :=
  if missing a then b else a.

Definition _get_project_id (env : environment) : string :=
  let project_id :=
    str_or (str_or (Some (SECRET_PROJECT_ID env)) (GOOGLE_CLOUD_PROJECT env))
      (GCP_PROJECT env) in
  if negb (missing project_id) then default "" project_id
  else
    match google_auth_default env with
    | Some project_id => default "" (str_or project_id (Some ""))
    | None => ""
    end.

(** The module-level [_secret_cache]. *)
Abbreviation secret_cache := (gmap string string) (only parsing).

(** A call of [_get_secret_value]: the cache after it, the secret versions
    it asked the client for, and what it returned or raised. *)
Record secret_read : Type := {
  cache_after : secret_cache;
  accessed : list string;
  secret_value : secret_result (option string);
}.

(** [access] stands for the client: from the name of a secret version to
    its payload, decoded. *)
Definition _get_secret_value (env : environment)
    (access : string → secret_result string) (cache : secret_cache)
    (secret_name : string) : secret_read :=
  if String.eqb secret_name "" then
    {| cache_after := cache; accessed := []; secret_value := Got None |}
  else
    match cache !! secret_name with
    | Some value =>
        {| cache_after := cache; accessed := [];
           secret_value := Got (Some value) |}
    | None =>
        let name :=
          if String.prefix "projects/" secret_name
          then Got (secret_name +:+ "/versions/latest")
          else
            let project_id := _get_project_id env in
            if String.eqb project_id "" then
              Failed (RuntimeError
                "GOOGLE_CLOUD_PROJECT not set; cannot access Secret Manager.")
            else
              Got ("projects/" +:+ project_id +:+ "/secrets/" +:+ secret_name
                   +:+ "/versions/latest") in
        match name with
        | Failed e =>
            {| cache_after := cache; accessed := [];
               secret_value := Failed e |}
        | Got name =>
            match access name with
            | Failed e =>
                {| cache_after := cache; accessed := [name];
                   secret_value := Failed e |}
            | Got value =>
                {| cache_after := <[secret_name := value]> cache;
                   accessed := [name];
                   secret_value := Got (Some value) |}
            end
        end
    end.

(** ** [_okta_list_group_users] *)

(** [needle in haystack] *)
Fixpoint py_contains (needle haystack : string) : bool :=
  String.prefix needle haystack
  || match haystack with
     | EmptyString => false
     | String _ haystack' => py_contains needle haystack'
     end.

(** What follows the first [sep] in [s], if there is one. *)
Fixpoint after_first (sep : Ascii.ascii) (s : string) : option string :=
  match s with
  | EmptyString => None
  | String a s' => if Ascii.eqb a sep then Some s' else after_first sep s'
  end.

(** [s.split(sep, 1)[-1]] *)
Definition split_last (sep : Ascii.ascii) (s : string) : string :=
  default s (after_first sep s).

(** [s.split(sep, 1)[0]] *)
Fixpoint split_first (sep : Ascii.ascii) (s : string) : string :=
  match s with
  | EmptyString => EmptyString
  | String a s' =>
      if Ascii.eqb a sep then EmptyString else String a (split_first sep s')
  end.

(** The text [rel="next"]. *)
Definition rel_next : string :=
  byte_string [114; 101; 108; 61; 34; 110; 101; 120; 116; 34]%N.

(** The address of the next page, from the [Link] header of a response
    (the headers of a response do not tell [link] from [Link]). *)
Definition next_url (link : option string) : option string :=
  match link with
  | Some link =>
      if negb (String.eqb link "") && py_contains rel_next link then
        let next_url := split_first ">" (split_last "<" link) in
        if String.eqb next_url "" then None else Some next_url
      else None
  | None => None
  end.

(** A response to the listing of the group: a status [raise_for_status]
    rejects, or the decoded body with the [Link] header. *)
Inductive listing_response : Type :=
  | ListingBadStatus
  | ListingPage (users : pyval) (link : option string).

(** The first request, for the users of the group with [limit=200], or a
    request to the address a [Link] header gave. *)
Inductive listing_request : Type :=
  | GroupUsers
  | FollowLink (url : string).

Inductive listing_end : Type :=
  | Members (members : gmap string pyval)
  | ListingRaised (e : exn)
  | AwaitingListing.

Record listing_run : Type := {
  listing_requests : list listing_request;
  listing_final : listing_end;
}.

Section listing.
Context (py : builtins).

(** The body of the loop over the users of a page. *)
Definition member_loop_body (members : gmap string pyval) (user : pyval)
    : result (gmap string pyval) :=
  match user with
  | PDict user =>
      match py_or (dict_get user "profile") (PDict []) with
      | PDict profile =>
          let email :=
            py_or (dict_get profile "email") (dict_get profile "login") in
          if truthy email
          then Ok (<[str_lower py email := dict_get user "id"]> members)
          else Ok members
      | _ => Raise AttributeError
      end
  | _ => Raise AttributeError
  end.

Fixpoint listing_loop (responses : list listing_response)
    (request : listing_request) (members : gmap string pyval)
    : listing_run :=
  match responses with
  | [] =>
      {| listing_requests := [request]; listing_final := AwaitingListing |}
  | ListingBadStatus :: _ =>
      {| listing_requests := [request];
         listing_final := ListingRaised HTTPError |}
  | ListingPage users link :: responses' =>
      match users ← py_iter users; for_loop member_loop_body users members with
      | Raise e =>
          {| listing_requests := [request];
             listing_final := ListingRaised e |}
      | Ok members' =>
          match next_url link with
          | Some url =>
              let run := listing_loop responses' (FollowLink url) members' in
              {| listing_requests := request :: listing_requests run;
                 listing_final := listing_final run |}
          | None =>
              {| listing_requests := [request];
                 listing_final := Members members' |}
          end
      end
  end.

Definition _okta_list_group_users (responses : list listing_response)
    : listing_run :=
  listing_loop responses GroupUsers ∅.

End listing.

(** ** [time_off_tracking] *)

(** The module-level settings of the entry point. *)
Record settings : Type := {
  OKTA_ORG_URL : string;
  OKTA_GROUP_ID_SECRET : string;
  OKTA_API_TOKEN_SECRET : string;
  DEEL_API_TOKEN_SECRET : string;
}.

(** The module-level state that outlives a call. *)
Record module_state : Type := {
  _secret_cache : secret_cache;
  OKTA_GROUP_ID : string;
}.

(** What the services answer during a call.  The client of Secret Manager
    is given the number of accesses made before, so that it need not
    answer twice alike. *)
Record services : Type := {
  secret_manager : nat → string → secret_result string;
  today : date;
  deel : list response;
  okta_listing : list listing_response;
  okta : okta_api;
}.

(** What the entry point returns: the pair of a message and a status, or
    the summary of the run. *)
Inductive reply : Type :=
  | ErrorReply (message : string) (status : Z)
  | SummaryReply (long_term_count : Z) (long_term_emails : list string).

Inductive tracking_end : Type :=
  | Replied (r : reply)
  | SecretFailed (e : secret_error)
  | RunFailed (e : exn)
  | AwaitingService.

Record tracking_run : Type := {
  state_after : module_state;
  secrets_accessed : list string;
  okta_calls : list okta_call;
  tracking_final : tracking_end;
}.

(** [value or fallback], for a secret and a setting *)
Definition or_setting (value : option string) (fallback : string) : string :=
  default fallback (str_or value (Some fallback)).

Section entry_point.
Context (py : builtins) (cfg : config) (conf : settings) (env : environment).

(** The first loop of [compute_long_term_emails] on what the generator
    yields: an item that is no JSON object has no [get]. *)
Definition item_loop_body (today : date) (st : ledgers) (item : pyval)
    : result ledgers :=
  match item with
  | PDict entry => ledger_loop_body py today st entry
  | _ => Raise AttributeError
  end.

(** [compute_long_term_emails(fetch_time_offs(token))]: the items are
    consumed as the generator yields them, so an exception of the first
    loop comes before one of a later page; [None] when the generator is
    still to be answered. *)
Definition compute_over_fetch (today : date) (run : fetch_run)
    : option (result (gset string)) :=
  match for_loop (item_loop_body today) (yielded_items run) ([], []) with
  | Raise e => Some (Raise e)
  | Ok (user_intervals, user_amounts) =>
      match fetch_final run with
      | Raised e => Some (Raise e)
      | AwaitingResponse => None
      | Returned =>
          Some (for_loop (eligibility_loop_body cfg user_amounts)
                  user_intervals ∅)
      end
  end.

(** The run from the tokens on. *)
Definition track (world : services) : list okta_call * tracking_end :=
  match compute_over_fetch (today world)
          (fetch_time_offs cfg (deel world)) with
  | None => ([], AwaitingService)
  | Some (Raise e) => ([], RunFailed e)
  | Some (Ok long_term_emails) =>
      match listing_final (_okta_list_group_users py (okta_listing world)) with
      | AwaitingListing => ([], AwaitingService)
      | ListingRaised e => ([], RunFailed e)
      | Members current_members =>
          match sync_okta_group (okta world) long_term_emails
                  current_members with
          | (calls, Raise e) => (calls, RunFailed e)
          | (calls, Ok _) =>
              (calls,
               Replied (SummaryReply (Z.of_nat (size long_term_emails))
                          (py_sorted_set long_term_emails)))
          end
      end
  end.

Definition time_off_tracking (world : services) (st : module_state)
    : tracking_run :=
  if String.eqb (OKTA_ORG_URL conf) "" then
    {| state_after := st; secrets_accessed := []; okta_calls := [];
       tracking_final := Replied (ErrorReply "OKTA_ORG_URL not set" 500) |}
  else
    let group_read :=
      _get_secret_value env (secret_manager world 0) (_secret_cache st)
        (OKTA_GROUP_ID_SECRET conf) in
    let stop st' accessed final :=
      {| state_after := st'; secrets_accessed := accessed; okta_calls := [];
         tracking_final := final |} in
    match secret_value group_read with
    | Failed e =>
        stop {| _secret_cache := cache_after group_read;
                OKTA_GROUP_ID := OKTA_GROUP_ID st |}
          (accessed group_read) (SecretFailed e)
    | Got group_secret =>
        let okta_group_id := or_setting group_secret (OKTA_GROUP_ID st) in
        if String.eqb okta_group_id "" then
          stop {| _secret_cache := cache_after group_read;
                  OKTA_GROUP_ID := OKTA_GROUP_ID st |}
            (accessed group_read)
            (Replied (ErrorReply "OKTA_GROUP_ID not set" 500))
        else
          let okta_read :=
            _get_secret_value env
              (secret_manager world (length (accessed group_read)))
              (cache_after group_read) (OKTA_API_TOKEN_SECRET conf) in
          let accessed2 := accessed group_read ++ accessed okta_read in
          let st2 := {| _secret_cache := cache_after okta_read;
                        OKTA_GROUP_ID := okta_group_id |} in
          match secret_value okta_read with
          | Failed e => stop st2 accessed2 (SecretFailed e)
          | Got okta_token =>
              if missing okta_token then
                stop st2 accessed2
                  (Replied (ErrorReply "OKTA_API_TOKEN not set" 500))
              else
                let deel_read :=
                  _get_secret_value env
                    (secret_manager world (length accessed2))
                    (cache_after okta_read) (DEEL_API_TOKEN_SECRET conf) in
                let accessed3 := accessed2 ++ accessed deel_read in
                let st3 := {| _secret_cache := cache_after deel_read;
                              OKTA_GROUP_ID := okta_group_id |} in
                match secret_value deel_read with
                | Failed e => stop st3 accessed3 (SecretFailed e)
                | Got deel_token =>
                    if missing deel_token then
                      stop st3 accessed3
                        (Replied (ErrorReply "DEEL_API_TOKEN not set" 500))
                    else
                      let '(calls, final) := track world in
                      {| state_after := st3; secrets_accessed := accessed3;
                         okta_calls := calls; tracking_final := final |}
                end
          end
    end.

End entry_point.

(** * The vocabulary of the properties *)

(** ** Intervals and merged lists *)

Definition key_le {A : Type} (key : A → Z) (x y : A) : Prop := key x ≤ key y.

(** A date one day can be added to: a valid date other than [date.max]. *)
Definition before_date_max (d : date) : Prop := date_min ≤ d < date_max.

Definition sorted_by_start (l : list interval) : Prop :=
  Sorted (λ a b : interval, a.1 ≤ b.1) l.

(** Every span ends more than one day before the next one starts. *)
Definition gaps_over_one_day (l : list interval) : Prop :=
  Sorted (λ a b : interval, a.2 + 1 < b.1) l.

(** A well-formed interval: it does not end before it starts. *)
Definition well_formed (iv : interval) : Prop := iv.1 ≤ iv.2.

(** *** The sweep of the specification

    "Sort by start date; sweep in order, extending the current running
    interval's end to max(currentEnd, nextEnd) whenever
    next.start <= currentEnd + 1 day; otherwise close the current span and
    start a new one."  Dates are unbounded here: the specification has no
    last day. *)

Fixpoint sweep (current_start current_end : date) (rest : list interval)
    : list interval :=
  match rest with
  | [] => [(current_start, current_end)]
  | (start, end_) :: rest' =>
      if start <=? current_end + 1
      then sweep current_start (Z.max current_end end_) rest'
      else (current_start, current_end) :: sweep start end_ rest'
  end.

Definition merge_reference (intervals : list interval) : list interval :=
  match py_sorted fst intervals with
  | [] => []
  | (start, end_) :: rest => sweep start end_ rest
  end.

(** ** Records and ledgers *)

(** [del d[k]], for every item of that key. *)
Definition dict_remove {V : Type} (k : string) (d : pydict V) : pydict V :=
  filter (λ kv, kv.1 ≠ k) d.

Section vocabulary.
Context (py : builtins) (cfg : config).

(** The interval a record stands for: its start date, and its end date or,
    when that does not parse, the start date again. *)
Definition derived_interval (entry : pydict pyval) : option interval :=
  match parse_date py (dict_get entry "start_date") with
  | Some start =>
      Some (start,
            default start (parse_date py (dict_get entry "end_date")))
  | None => None
  end.

(** What the function does with the amount, once the interval is in the
    window. *)
Definition amount_outcome (entry : pydict pyval) (iv : interval)
    : result (option amount_entry) :=
  match dict_get entry "amount" with
  | PNone => Ok None
  | amount_raw =>
      match py_float py amount_raw with
      | Ok amount_val => Ok (Some (iv, amount_val))
      | Raise TypeError | Raise ValueError => Ok None
      | Raise e => Raise e
      end
  end.

(** What the first loop keeps true: the two ledgers hold the same keys,
    each once, [user_intervals] holds the intervals of [user_amounts], no
    ledger is empty, and every item has the property [P] that every
    extracted item has. *)
Record ledgers_ok (P : amount_entry → Prop) (st : ledgers) : Prop := {
  ledgers_intervals :
    st.1 = (λ kv : string * list amount_entry, (kv.1, fst <$> kv.2)) <$> st.2;
  ledgers_NoDup : NoDup st.2.*1;
  ledgers_items : ∀ email ledger,
    dict_lookup email st.2 = Some ledger → ledger ≠ [] ∧ Forall P ledger;
}.

(** The item overlaps [today]. *)
Definition overlaps (today : date) (x : amount_entry) : Prop :=
  x.1.1 ≤ today ≤ x.1.2.

(** [spanDays = (end - start).days + 1] *)
Definition span_days (span : interval) : Z := span.2 - span.1 + 1.

(** [pairStart <= spanEnd AND pairEnd >= spanStart] *)
Definition intersects (span : interval) (x : amount_entry) : Prop :=
  x.1.1 <= span.2 ∧ x.1.2 >= span.1.

(** A float sum, taken from [0.0] in the order of the list. *)
Definition sum_amounts (amounts : list float) : float :=
  fold_left PrimFloat.add amounts 0%float.

(** [totalAmount]: the amounts of the ledger items that intersect the
    span. *)
Definition span_total (ledger : list amount_entry) (span : interval)
    : float :=
  sum_amounts (snd <$> filter (intersects span) ledger).

(** A span that meets both thresholds. *)
Definition long_term_span (ledger : list amount_entry) (span : interval)
    : Prop :=
  span_days span >= LONG_TERM_MIN_DAYS cfg
  ∧ (LONG_TERM_MIN_AMOUNT cfg <=? span_total ledger span)%float = true.

End vocabulary.

(** ** Pages and calls *)

(** The page says there is more: a JSON object with a truthy
    [has_next_page] and a truthy [next] or [cursor]. *)
Definition has_more (body : pyval) : bool :=
  match body with
  | PDict d =>
      truthy (dict_get d "has_next_page")
      && truthy (py_or (dict_get d "next") (dict_get d "cursor"))
  | _ => false
  end.

(** The items of a page that is a JSON object. *)
Definition page_items (d : pydict pyval) : pyval :=
  py_or (py_or (py_or (dict_get d "data") (dict_get d "time_offs"))
           (dict_get d "items"))
    (dict_get d "results").

(** The identity a call is made for, once per identity: the look-up of an
    identity to add, the removal of an identity to remove. *)
Definition processed_identity (c : okta_call) : option string :=
  match c with
  | LookupUser email => Some email
  | PutMember _ _ => None
  | DeleteMember email _ => Some email
  end.

(** The calls due for an identity to add: the look-up, and the addition of
    the identifier the look-up gives, when it gives one. *)
Definition add_calls (okta : okta_api) (email : string) : list okta_call :=
  LookupUser email ::
  match okta_lookup_user_id okta email with
  | Ok user_id => if truthy user_id then [PutMember email user_id] else []
  | Raise _ => []
  end.

(** The member has an identifier in the listing. *)
Definition listed_with_id (current_members : gmap string pyval)
    (email : string) : Prop :=
  truthy (default PNone (current_members !! email)) = true.

#[export] Instance listed_with_id_dec current_members email :
  Decision (listed_with_id current_members email).
Proof. unfold listed_with_id. apply _. Defined.

(** The call due for an identity to remove: the removal of the identifier
    the listing holds for it, when it holds one. *)
Definition remove_calls (current_members : gmap string pyval)
    (email : string) : list okta_call :=
  if decide (listed_with_id current_members email)
  then [DeleteMember email (default PNone (current_members !! email))]
  else [].

(** The calls of the whole plan: those of the identities of [E - keys(M)],
    in ascending code-point order of the identities, then those of the
    identities of [keys(M) - E], in ascending code-point order. *)
Definition planned_calls (okta : okta_api) (E : gset string)
    (M : gmap string pyval) : list okta_call :=
  flat_map (add_calls okta) (py_sorted_set (E ∖ dom M))
  ++ flat_map (remove_calls M) (py_sorted_set (dom M ∖ E)).

(** What the directory answers to a call, as far as a run looks at it. *)
Definition call_outcome (okta : okta_api) (c : okta_call) : result () :=
  match c with
  | LookupUser email =>
      match okta_lookup_user_id okta email with
      | Ok _ => Ok ()
      | Raise e => Raise e
      end
  | PutMember _ user_id => okta_put_member okta user_id
  | DeleteMember _ user_id => okta_delete_member okta user_id
  end.

(** A sequence of calls made one after the other until one raises: the
    calls made, the one that raised included, and how the sequence ended. *)
Fixpoint until_first_failure (okta : okta_api) (calls : list okta_call)
    : list okta_call * result () :=
  match calls with
  | [] => ([], Ok ())
  | c :: calls' =>
      match call_outcome okta c with
      | Raise e => ([c], Raise e)
      | Ok _ =>
          let '(made, r) := until_first_failure okta calls' in
          (c :: made, r)
      end
  end.

(** ** Merged spans and their inputs *)

(** An end date on or after [date.max] that is not the last of the list:
    the end of an interval that another one follows in start order. *)
Fixpoint overflows_before_last (ends : list date) : bool :=
  match ends with
  | [] => false
  | e :: ends' =>
      match ends' with
      | [] => false
      | _ :: _ => (date_max <=? e) || overflows_before_last ends'
      end
  end.

(** The least start and the greatest end of a list of intervals that
    begins with [iv]. *)
Definition least_start (iv : interval) (l : list interval) : date :=
  foldr (λ x acc, x.1 `min` acc) iv.1 l.

Definition greatest_end (iv : interval) (l : list interval) : date :=
  foldr (λ x acc, x.2 `max` acc) iv.2 l.

(** ** The records of an identity *)

(** The ledger of an identity, read off the entries: the interval and the
    amount of every entry of that identity that the extraction returns, in
    the order of the entries. *)
Definition retained_records (py : builtins) (today : date) (email : string)
    (entries : list (pydict pyval)) : list amount_entry :=
  omap (λ entry,
          if decide (extract_email py entry = Some email) then
            match get_interval_and_amount py entry today today with
            | Ok (Some x) => Some x
            | _ => None
            end
          else None) entries.

(** ** The places an address is looked for *)

(** The values [extract_email] looks at, in its order: the three direct
    keys of the record, then, for each of the seven nested keys whose value
    is a mapping, the three address keys of that mapping. *)
Definition email_candidates (entry : pydict pyval) : list pyval :=
  (dict_get entry <$> direct_keys)
  ++ flat_map
       (λ key,
          match py_or (dict_get entry key) (PDict []) with
          | PDict nested => dict_get nested <$> nested_email_keys
          | _ => []
          end)
       nested_keys.

(** ** The pages of a run *)

(** The cursor a page gives: [next], or [cursor] when [next] is falsy. *)
Definition page_cursor (r : response) : pyval :=
  match r with
  | Body (PDict d) => py_or (dict_get d "next") (dict_get d "cursor")
  | _ => PNone
  end.

(** The items a page yields: those of a JSON object whose item collection
    is truthy and can be gone through. *)
Definition page_yield (r : response) : list pyval :=
  match r with
  | Body (PDict d) =>
      if truthy (page_items d) then
        match py_iter (page_items d) with
        | Ok yielded => yielded
        | Raise _ => []
        end
      else []
  | _ => []
  end.

(** The loop goes on after the page: it says there is more, and its item
    collection is truthy and can be gone through. *)
Definition continues (r : response) : bool :=
  match r with
  | Body (PDict d) =>
      has_more (PDict d) && truthy (page_items d)
      && match py_iter (page_items d) with
         | Ok _ => true
         | Raise _ => false
         end
  | _ => false
  end.

(** How the loop ends on a page it does not go on after. *)
Definition page_end (r : response) : fetch_end :=
  match r with
  | BadStatus => Raised HTTPError
  | Body (PDict d) =>
      if truthy (page_items d) then
        match py_iter (page_items d) with
        | Ok _ => Returned
        | Raise e => Raised e
        end
      else Returned
  | Body _ => Raised AttributeError
  end.

(** The number of pages at the head of the list after which the loop goes
    on. *)
Fixpoint leading_pages (responses : list response) : nat :=
  match responses with
  | [] => 0
  | r :: responses' =>
      if continues r then S (leading_pages responses') else 0
  end.

(** ** The calls of a run *)

(** A call the plan allows: a look-up or an addition for an identity that
    is eligible and no member yet, the addition with the identifier the
    look-up gave; a removal for a member that is not eligible, with the
    identifier of the membership listing. *)
Definition call_in_plan (okta : okta_api) (long_term_emails : gset string)
    (current_members : gmap string pyval) (c : okta_call) : Prop :=
  match c with
  | LookupUser email =>
      email ∈ long_term_emails ∧ (email ∉ dom current_members)
  | PutMember email user_id =>
      email ∈ long_term_emails ∧ (email ∉ dom current_members)
      ∧ okta_lookup_user_id okta email = Ok user_id
      ∧ truthy user_id = true
  | DeleteMember email user_id =>
      (email ∉ long_term_emails)
      ∧ current_members !! email = Some user_id
      ∧ truthy user_id = true
  end.

(** The call raises [e]. *)
Definition call_raises (okta : okta_api) (c : okta_call) (e : exn) : Prop :=
  match c with
  | LookupUser email => okta_lookup_user_id okta email = Raise e
  | PutMember _ user_id => okta_put_member okta user_id = Raise e
  | DeleteMember _ user_id => okta_delete_member okta user_id = Raise e
  end.

Definition is_removal (c : okta_call) : bool :=
  match c with
  | DeleteMember _ _ => true
  | _ => false
  end.

(** ** Secrets *)

(** A setting that is absent or empty. *)
Definition unset (value : option string) : Prop :=
  value = None ∨ value = Some "".

(** No source names a project: neither the three environment variables
    nor the default credentials. *)
Definition no_project (env : environment) : Prop :=
  SECRET_PROJECT_ID env = ""
  ∧ unset (GOOGLE_CLOUD_PROJECT env)
  ∧ unset (GCP_PROJECT env)
  ∧ (google_auth_default env = None
     ∨ ∃ project_id, google_auth_default env = Some project_id
                     ∧ unset project_id).

(** ** The listing of the group *)

(** The character occurs in the string. *)
Fixpoint occurs (c : Ascii.ascii) (s : string) : bool :=
  match s with
  | EmptyString => false
  | String a s' => Ascii.eqb a c || occurs c s'
  end.

(** The key a user is listed under: the [email] of the profile, or its
    [login] when the [email] is falsy, lower-cased; none when both are
    falsy. *)
Definition member_key (py : builtins) (user : pyval) : option string :=
  match user with
  | PDict user =>
      match py_or (dict_get user "profile") (PDict []) with
      | PDict profile =>
          let email :=
            py_or (dict_get profile "email") (dict_get profile "login") in
          if truthy email then Some (str_lower py email) else None
      | _ => None
      end
  | _ => None
  end.

(** The identifier a user is listed with. *)
Definition member_id (user : pyval) : pyval :=
  match user with
  | PDict user => dict_get user "id"
  | _ => PNone
  end.

(** The users of a page. *)
Definition page_users (r : listing_response) : list pyval :=
  match r with
  | ListingPage users _ =>
      match py_iter users with
      | Ok users => users
      | Raise _ => []
      end
  | ListingBadStatus => []
  end.

(** ** The entry point *)

(** The call got past the configuration: it neither replied with an error
    nor failed on a secret. *)
Definition configured (run : tracking_run) : Prop :=
  match tracking_final run with
  | Replied (ErrorReply _ _) | SecretFailed _ => False
  | _ => True
  end.

(** * Worked examples: library functions and inputs *)

(** ** The calendar, and library functions for the worked examples *)

Definition is_leap (y : Z) : bool :=
  (y mod 4 =? 0) && (negb (y mod 100 =? 0) || (y mod 400 =? 0)).

Definition days_in_month (y m : Z) : Z :=
  match m with
  | 2 => if is_leap y then 29 else 28
  | 4 | 6 | 9 | 11 => 30
  | _ => 31
  end.

Definition days_before_year (y : Z) : Z :=
  let p := y - 1 in 365 * p + p / 4 - p / 100 + p / 400.

Definition days_before_month (y m : Z) : Z :=
  foldr Z.add 0 (days_in_month y <$> seqZ 1 (m - 1)).

(** [dt.date(y, m, d).toordinal()]; [None] is [ValueError]. *)
Definition ymd (y m d : Z) : option date :=
  if (1 <=? y) && (y <=? 9999) && (1 <=? m) && (m <=? 12)
     && (1 <=? d) && (d <=? days_in_month y m)
  then Some (days_before_year y + days_before_month y m + d)
  else None.

(** A date literal. *)
Definition day (y m d : Z) : date := default date_min (ymd y m d).

Definition digit (a : Ascii.ascii) : option Z :=
  let n := Z.of_N (Ascii.N_of_ascii a) in
  if (48 <=? n) && (n <=? 57) then Some (n - 48) else None.

Fixpoint number_from (acc : Z) (l : list Ascii.ascii) : option Z :=
  match l with
  | [] => Some acc
  | a :: l' => d ← digit a; number_from (10 * acc + d) l'
  end.

(** A non-empty run of decimal digits. *)
Definition number (l : list Ascii.ascii) : option Z :=
  match l with
  | [] => None
  | _ :: _ => number_from 0 l
  end.

(** [YYYY-MM-DD] *)
Definition iso_date (l : list Ascii.ascii) : option date :=
  match l with
  | [y1; y2; y3; y4; c1; m1; m2; c2; d1; d2] =>
      if Ascii.eqb c1 "-" && Ascii.eqb c2 "-" then
        y ← number [y1; y2; y3; y4];
        m ← number [m1; m2];
        d ← number [d1; d2];
        ymd y m d
      else None
  | _ => None
  end.

(** [HH:MM] within the day *)
Definition iso_hour_minute (h1 h2 m1 m2 : Ascii.ascii) : bool :=
  match number [h1; h2], number [m1; m2] with
  | Some h, Some m => (h <? 24) && (m <? 60)
  | _, _ => false
  end.

(** [HH:MM:SS], alone or followed by an offset [+HH:MM] or [-HH:MM] *)
Definition iso_time (l : list Ascii.ascii) : bool :=
  match l with
  | h1 :: h2 :: c1 :: m1 :: m2 :: c2 :: s1 :: s2 :: offset =>
      Ascii.eqb c1 ":" && Ascii.eqb c2 ":"
      && iso_hour_minute h1 h2 m1 m2
      && match number [s1; s2] with Some s => s <? 60 | None => false end
      && match offset with
         | [] => true
         | [sign; oh1; oh2; c3; om1; om2] =>
             (Ascii.eqb sign "+" || Ascii.eqb sign "-")
             && Ascii.eqb c3 ":"
             && iso_hour_minute oh1 oh2 om1 om2
         | _ => false
         end
  | _ => false
  end.

(** A date, alone or followed by one separator and a time. *)
Definition iso_datetime (s : string) : option date :=
  let l := String.list_ascii_of_string s in
  d ← iso_date (take 10 l);
  match drop 10 l with
  | [] => Some d
  | _ :: time => if iso_time time then Some d else None
  end.

(** A decimal integer literal, with its sign and surrounding whitespace. *)
Definition integer_literal (s : string) : option Z :=
  match String.list_ascii_of_string (py_strip s) with
  | [] => None
  | a :: l =>
      if Ascii.eqb a "-" then Z.opp <$> number l
      else if Ascii.eqb a "+" then number l
      else number (a :: l)
  end.

Definition ascii_lower (a : Ascii.ascii) : Ascii.ascii :=
  let n := Ascii.N_of_ascii a in
  if ((65 <=? n) && (n <=? 90))%N then Ascii.ascii_of_N (n + 32) else a.

Fixpoint string_map (f : Ascii.ascii → Ascii.ascii) (s : string) : string :=
  match s with
  | EmptyString => EmptyString
  | String a s' => String (f a) (string_map f s')
  end.

(** Stand-ins for the library functions, for the worked examples only;
    the general properties hold for any [builtins].  Each reads a part of
    what CPython reads and answers [None] (the [ValueError]) for the rest:
    [date_fromisoformat] reads [YYYY-MM-DD] only; [datetime_fromisoformat]
    reads [YYYY-MM-DD], alone or followed by one separator and [HH:MM:SS]
    with or without an offset [+HH:MM] or [-HH:MM], and none of the other
    forms CPython takes (a time [HH:MM], fractions of a second, a trailing
    [Z], week dates); [float_of_str] reads decimal integer literals and
    nothing else (not [15.5], [1e3], [inf] or [nan]); [str_lower]
    lower-cases the ASCII letters of a string, prints integers and
    booleans, and gives the empty string for [None], floats, lists and
    dictionaries, where CPython prints the value.  The worked examples
    give them only dates of the forms read, text that CPython takes for
    no date and no number either, integer amounts, and identities that
    are strings. *)
Definition example_builtins : builtins := {|
  datetime_fromisoformat := iso_datetime;
  date_fromisoformat s := iso_date (String.list_ascii_of_string s);
  float_of_str s :=
    z ← integer_literal s;
    Some (SF2Prim (binary_normalize prec emax z 0 false));
  str_lower v :=
    match v with
    | PStr s => string_map ascii_lower s
    | PInt z => pretty z
    | PBool b => if b then "true" else "false"
    | _ => EmptyString
    end;
|}.

(** The default settings: pages of 100, thirty days, thirty units. *)
Definition default_config : config := {|
  DEEL_PAGE_SIZE := 100;
  LONG_TERM_MIN_DAYS := 30;
  LONG_TERM_MIN_AMOUNT := 30%float;
|}.

(** ** The inputs of the worked examples *)

(** Two records of one person, both current on 2024-01-15: one found under
    a direct key, one under a nested key, with a date-time and a numeric
    string. *)
Definition record_january : pydict pyval :=
  [("user_email", PStr "A@x.com"); ("start_date", PStr "2024-01-01");
   ("end_date", PStr "2024-01-20"); ("amount", PInt 20)].

Definition record_february : pydict pyval :=
  [("worker", PDict [("email", PStr "a@X.com")]);
   ("start_date", PStr "2024-01-10T00:00:00Z");
   ("end_date", PStr "2024-02-10"); ("amount", PStr "15")].

(** The records of the specification's scenarios: ten days worth 20 that
    ended on 2024-01-10, and a leave that started the day after, worth 15,
    up to 2024-01-25 or up to 2024-02-10. *)
Definition record_first_ten_days : pydict pyval :=
  [("email", PStr "a@x.com"); ("start_date", PStr "2024-01-01");
   ("end_date", PStr "2024-01-10"); ("amount", PInt 20)].

Definition record_until_25th : pydict pyval :=
  [("email", PStr "a@x.com"); ("start_date", PStr "2024-01-11");
   ("end_date", PStr "2024-01-25"); ("amount", PInt 15)].

Definition record_until_february : pydict pyval :=
  [("email", PStr "a@x.com"); ("start_date", PStr "2024-01-11");
   ("end_date", PStr "2024-02-10"); ("amount", PInt 15)].

(** A record with no end date, and one whose amount is no number. *)
Definition record_single_day : pydict pyval :=
  [("email", PStr "a@x.com"); ("start_date", PStr "2024-01-01");
   ("amount", PInt 5)].

Definition record_no_amount : pydict pyval :=
  [("email", PStr "a@x.com"); ("start_date", PStr "2024-01-15");
   ("amount", PStr "n/a")].

(** A leave recorded as open-ended, and a short one within it. *)
Definition record_open_ended : pydict pyval :=
  [("user_email", PStr "a@x.com"); ("start_date", PStr "2023-06-01");
   ("end_date", PStr "9999-12-31"); ("amount", PInt 40)].

Definition record_short : pydict pyval :=
  [("user_email", PStr "a@x.com"); ("start_date", PStr "2024-01-10");
   ("end_date", PStr "2024-01-20"); ("amount", PInt 5)].

(** A record whose end date is no date. *)
Definition record_bad_end : pydict pyval :=
  [("user_email", PStr "a@x.com"); ("start_date", PStr "2024-01-15");
   ("end_date", PStr "until further notice"); ("amount", PInt 5)].

(** A record whose amount is an integer no float can hold. *)
Definition record_huge_amount : pydict pyval :=
  [("user_email", PStr "a@x.com"); ("start_date", PStr "2024-01-15");
   ("amount", PInt (10 ^ 400))].

(** The directory service of the examples: it knows [c], and every call
    succeeds. *)
Definition example_okta : okta_api := {|
  okta_lookup_user_id email :=
    Ok (if String.eqb email "c" then PStr "00uc" else PNone);
  okta_put_member _ := Ok ();
  okta_delete_member _ := Ok ();
|}.

(** A directory service that knows nobody. *)
Definition empty_okta : okta_api := {|
  okta_lookup_user_id _ := Ok PNone;
  okta_put_member _ := Ok ();
  okta_delete_member _ := Ok ();
|}.

(** A directory service that knows everybody and refuses every addition. *)
Definition refusing_okta : okta_api := {|
  okta_lookup_user_id email := Ok (PStr ("00u" +:+ email));
  okta_put_member _ := Raise HTTPError;
  okta_delete_member _ := Ok ();
|}.

(** A deployment whose project comes from [GOOGLE_CLOUD_PROJECT], and a
    Secret Manager that holds one secret; a deployment with no project,
    and a client that always fails. *)
Definition example_environment : environment := {|
  SECRET_PROJECT_ID := "";
  GOOGLE_CLOUD_PROJECT := Some "p1";
  GCP_PROJECT := None;
  google_auth_default := None;
|}.

Definition example_secrets (name : string) : secret_result string :=
  if String.eqb name "projects/p1/secrets/okta-token/versions/latest"
  then Got "s3cr3t"
  else Failed (ClientError "NotFound").

Definition bare_environment : environment := {|
  SECRET_PROJECT_ID := "";
  GOOGLE_CLOUD_PROJECT := None;
  GCP_PROJECT := Some "";
  google_auth_default := Some None;
|}.

Definition failing_secrets (name : string) : secret_result string :=
  Failed (ClientError "PermissionDenied").

(** The [Link] header of a first page of two, as the directory service
    sends it: the page itself, then the next one. *)
Definition rel_self : string :=
  byte_string [114; 101; 108; 61; 34; 115; 101; 108; 102; 34]%N.

Definition link_self_next : string :=
  "<https://o/api/v1/groups/g/users?limit=200>; " +:+ rel_self
  +:+ ", <https://o/api/v1/groups/g/users?after=u2&limit=200>; "
  +:+ rel_next.

Definition okta_user (id email : string) : pyval :=
  PDict [("id", PStr id); ("profile", PDict [("email", PStr email)])].

(** A deployment and the answers of the services during one call: one page
    of records, one page of members. *)
Definition example_settings : settings := {|
  OKTA_ORG_URL := "https://o";
  OKTA_GROUP_ID_SECRET := "";
  OKTA_API_TOKEN_SECRET := "okta-token";
  DEEL_API_TOKEN_SECRET := "projects/p1/secrets/deel-token";
|}.

Definition example_state : module_state := {|
  _secret_cache := ∅;
  OKTA_GROUP_ID := "g";
|}.

Definition example_services : services := {|
  secret_manager _ name :=
    if String.eqb name "projects/p1/secrets/okta-token/versions/latest"
    then Got "s3cr3t"
    else if String.eqb name "projects/p1/secrets/deel-token/versions/latest"
    then Got "d33l"
    else Failed (ClientError "NotFound");
  today := day 2024 1 15;
  deel := [Body (PDict [("data", PList [PDict record_january;
                                        PDict record_february])])];
  okta_listing := [ListingPage (PList [okta_user "00ub" "b@x.com"]) None];
  okta := example_okta;
|}.

(** Services that answer nothing any more. *)
Definition silent_services : services := {|
  secret_manager _ _ := Failed (ClientError "Unavailable");
  today := day 2024 1 16;
  deel := [BadStatus];
  okta_listing := [ListingBadStatus];
  okta := empty_okta;
|}.

(** A deployment that names no secret for the token of the directory. *)
Definition settings_without_token : settings := {|
  OKTA_ORG_URL := "https://o";
  OKTA_GROUP_ID_SECRET := "";
  OKTA_API_TOKEN_SECRET := "";
  DEEL_API_TOKEN_SECRET := "projects/p1/secrets/deel-token";
|}.

(** A long leave of somebody else. *)
Definition record_other_person : pydict pyval :=
  [("email", PStr "b@x.com"); ("start_date", PStr "2023-12-01");
   ("end_date", PStr "2024-02-15"); ("amount", PInt 50)].

(** * Properties *)

(** ** [sorted] *)

Section py_sorted_facts.
Context {A : Type} (key : A → Z).

Lemma insert_by_key_perm x l : insert_by_key key x l ≡ₚ x :: l.
Proof.
  induction l as [|y l IH]; simpl; [done|].
  destruct (key x <=? key y); [done|].
  rewrite IH. apply Permutation_swap.
Qed.

Lemma py_sorted_perm l : py_sorted key l ≡ₚ l.
Proof.
  induction l as [|x l IH]; simpl; [done|].
  rewrite insert_by_key_perm. by rewrite IH.
Qed.

Lemma insert_by_key_sorted x l :
  StronglySorted (key_le key) l →
  StronglySorted (key_le key) (insert_by_key key x l).
Proof.
  induction 1 as [|y l Hl IH Hy]; simpl.
  - repeat constructor.
  - destruct (Z.leb_spec (key x) (key y)).
    + constructor; [by constructor|].
      constructor; [done|].
      eapply Forall_impl; [exact Hy|]. unfold key_le. intros; lia.
    + constructor; [done|].
      rewrite insert_by_key_perm. constructor; [|done].
      unfold key_le. lia.
Qed.

Lemma py_sorted_sorted l : StronglySorted (key_le key) (py_sorted key l).
Proof.
  induction l; simpl; [constructor|]. by apply insert_by_key_sorted.
Qed.

(** Sorting a sorted list changes nothing. *)
Lemma py_sorted_id l : Sorted (key_le key) l → py_sorted key l = l.
Proof.
  induction 1 as [|x l Hl IH Hx]; simpl; [done|].
  rewrite IH. destruct Hx as [|y l Hxy]; simpl; [done|].
  unfold key_le in Hxy. by destruct (Z.leb_spec (key x) (key y)); [|lia].
Qed.

(** Stability: the items of any one key keep their order. *)
Lemma insert_by_key_filter k x l :
  StronglySorted (key_le key) l →
  filter (λ y, key y = k) (insert_by_key key x l)
  = filter (λ y, key y = k) (x :: l).
Proof.
  induction 1 as [|y l Hl IH Hy]; simpl; [done|].
  destruct (Z.leb_spec (key x) (key y)) as [Hle|Hlt]; [done|].
  rewrite (filter_cons _ y), IH, !(filter_cons _ x), !(filter_cons _ y).
  destruct (decide (key y = k)), (decide (key x = k)); try done.
  lia.
Qed.

Lemma py_sorted_stable k l :
  filter (λ y, key y = k) (py_sorted key l) = filter (λ y, key y = k) l.
Proof.
  induction l as [|x l IH]; simpl; [done|].
  rewrite insert_by_key_filter by apply py_sorted_sorted.
  by rewrite !filter_cons, IH.
Qed.

End py_sorted_facts.

(** ** [merge_intervals] *)

Lemma date_add_days_1 d : before_date_max d → date_add_days d 1 = Ok (d + 1).
Proof.
  unfold before_date_max, date_add_days, date_min, date_max. intros.
  destruct (Z.leb_spec 1 (d + 1)), (Z.leb_spec (d + 1) 3652059);
    simpl; first [done | lia].
Qed.

Lemma date_add_days_max d : date_max ≤ d → date_add_days d 1 = Raise OverflowError.
Proof.
  unfold date_add_days, date_min, date_max. intros.
  destruct (Z.leb_spec 1 (d + 1)), (Z.leb_spec (d + 1) 3652059);
    simpl; first [done | lia].
Qed.

Lemma date_add_days_Ok d n r : date_add_days d n = Ok r → r = d + n.
Proof. unfold date_add_days. case_match; congruence. Qed.

Lemma merge_loop_body_Ok merged cs ce s e st :
  merge_loop_body (merged, cs, ce) (s, e) = Ok st →
  st = if s <=? ce + 1 then (merged, cs, ce `max` e)
       else (merged ++ [(cs, ce)], s, e).
Proof.
  unfold merge_loop_body.
  destruct (date_add_days ce 1) as [lim|] eqn:Hadd; [|done].
  apply date_add_days_Ok in Hadd as ->. cbn [mbind result_bind].
  destruct (s <=? ce + 1); congruence.
Qed.

Lemma merge_loop_body_before_max merged cs ce s e :
  before_date_max ce →
  merge_loop_body (merged, cs, ce) (s, e)
  = Ok (if s <=? ce + 1 then (merged, cs, ce `max` e)
        else (merged ++ [(cs, ce)], s, e)).
Proof.
  intros Hce. unfold merge_loop_body. rewrite date_add_days_1 by done.
  cbn [mbind result_bind]. by destruct (s <=? ce + 1).
Qed.

Lemma merge_loop_body_raises st iv e :
  merge_loop_body st iv = Raise e → e = OverflowError.
Proof.
  destruct st as [[merged cs] ce], iv as [s e'].
  unfold merge_loop_body, date_add_days.
  case_match; cbn [mbind result_bind]; [|congruence].
  by case_match.
Qed.

(** The loop computes the sweep, as long as one day can be added to every
    end date it meets. *)
Lemma merge_loop_sweep rest : ∀ merged cs ce,
  before_date_max ce →
  Forall (λ iv : interval, before_date_max iv.2) rest →
  ∃ merged' cs' ce',
    for_loop merge_loop_body rest (merged, cs, ce) = Ok (merged', cs', ce')
    ∧ merged' ++ [(cs', ce')] = merged ++ sweep cs ce rest.
Proof.
  induction rest as [|[s e] rest IH]; intros merged cs ce Hce Hrest.
  - by exists merged, cs, ce.
  - apply Forall_cons in Hrest as [He Hrest]. simpl in He.
    cbn [for_loop sweep]. rewrite merge_loop_body_before_max by done.
    destruct (s <=? ce + 1).
    + apply IH; [|done]. unfold before_date_max in *. lia.
    + destruct (IH (merged ++ [(cs, ce)]) s e He Hrest)
        as (m' & cs' & ce' & -> & Heq).
      exists m', cs', ce'. split; [done|]. by rewrite Heq, <- app_assoc.
Qed.

(** Whenever the loop returns, it returns the sweep; and it raises nothing
    but [OverflowError]. *)
Lemma merge_loop_sweep_Ok rest : ∀ merged cs ce merged' cs' ce',
  for_loop merge_loop_body rest (merged, cs, ce) = Ok (merged', cs', ce') →
  merged' ++ [(cs', ce')] = merged ++ sweep cs ce rest.
Proof.
  induction rest as [|[s e] rest IH]; intros merged cs ce m' cs' ce'.
  - cbn. by intros [= -> -> ->].
  - cbn [for_loop sweep].
    destruct (merge_loop_body _ _) as [st|] eqn:Hbody; [|done].
    apply merge_loop_body_Ok in Hbody as ->.
    destruct (s <=? ce + 1); intros Hloop; apply IH in Hloop.
    + done.
    + by rewrite Hloop, <- app_assoc.
Qed.

Lemma merge_loop_raises rest : ∀ st e,
  for_loop merge_loop_body rest st = Raise e → e = OverflowError.
Proof.
  induction rest as [|iv rest IH]; intros st e; [done|].
  cbn [for_loop].
  destruct (merge_loop_body st iv) as [st'|e'] eqn:Hbody; [by eauto|].
  intros [= ->]. by eapply merge_loop_body_raises.
Qed.

Lemma py_sorted_nil_inv {A} (key : A → Z) l : py_sorted key l = [] → l = [].
Proof.
  intros H. apply Permutation_nil. by rewrite <- H, py_sorted_perm.
Qed.

Lemma merge_intervals_reference l :
  Forall (λ iv : interval, before_date_max iv.2) l →
  merge_intervals l = Ok (merge_reference l).
Proof.
  intros Hl. unfold merge_intervals, merge_reference.
  assert (Forall (λ iv : interval, before_date_max iv.2) (py_sorted fst l))
    as Hs by by rewrite py_sorted_perm.
  destruct l as [|iv l]; [done|].
  destruct (py_sorted fst (iv :: l)) as [|[cs ce] rest] eqn:Hsort.
  { by apply py_sorted_nil_inv in Hsort. }
  apply Forall_cons in Hs as [Hce Hs].
  destruct (merge_loop_sweep rest [] cs ce Hce Hs) as (m & cs' & ce' & -> & Heq).
  cbn. by rewrite Heq.
Qed.

Lemma merge_intervals_Ok l r :
  merge_intervals l = Ok r → r = merge_reference l.
Proof.
  unfold merge_intervals, merge_reference.
  destruct l as [|iv l]; [by intros [= <-]|].
  destruct (py_sorted fst (iv :: l)) as [|[cs ce] rest]; [done|].
  destruct (for_loop _ _ _) as [[[m cs'] ce']|] eqn:Hloop; [|done].
  apply merge_loop_sweep_Ok in Hloop. cbn. intros [= <-]. by rewrite Hloop.
Qed.

Lemma merge_intervals_raises l e :
  merge_intervals l = Raise e → e = OverflowError.
Proof.
  unfold merge_intervals.
  destruct l as [|iv l]; [done|].
  destruct (py_sorted fst (iv :: l)) as [|[cs ce] rest] eqn:Hsort.
  { by apply py_sorted_nil_inv in Hsort. }
  destruct (for_loop _ _ _) as [[[m cs'] ce']|] eqn:Hloop; [done|].
  apply merge_loop_raises in Hloop. cbn. congruence.
Qed.

(** Where the interval that comes first in start order ends on the last
    representable date and another one follows, the merge raises. *)
Lemma merge_intervals_raises_at_date_max l s iv rest :
  py_sorted fst l = (s, date_max) :: iv :: rest →
  merge_intervals l = Raise OverflowError.
Proof.
  intros Hsort. unfold merge_intervals. rewrite Hsort.
  destruct l as [|iv0 l]; [done|]. destruct iv as [s' e'].
  cbn [for_loop]. unfold merge_loop_body at 1.
  by rewrite date_add_days_max.
Qed.

(** *** An already merged list *)

Lemma merge_loop_gapped rest : ∀ merged cs ce,
  Forall (λ iv : interval, valid_date iv.1 ∧ valid_date iv.2) ((cs, ce) :: rest) →
  gaps_over_one_day ((cs, ce) :: rest) →
  ∃ merged' cs' ce',
    for_loop merge_loop_body rest (merged, cs, ce) = Ok (merged', cs', ce')
    ∧ merged' ++ [(cs', ce')] = merged ++ (cs, ce) :: rest.
Proof.
  induction rest as [|[s e] rest IH]; intros merged cs ce Hvalid Hgaps.
  - by exists merged, cs, ce.
  - apply Sorted_inv in Hgaps as [Hgaps Hhd].
    apply HdRel_inv in Hhd. simpl in Hhd.
    apply Forall_cons in Hvalid as [[_ Hce] Hvalid].
    pose proof Hvalid as [[Hs _] _]%Forall_cons.
    unfold valid_date, date_min, date_max in Hce, Hs. simpl in Hce, Hs.
    cbn [for_loop]. rewrite merge_loop_body_before_max
      by (unfold before_date_max, date_min, date_max; lia).
    destruct (Z.leb_spec s (ce + 1)); [lia|].
    destruct (IH (merged ++ [(cs, ce)]) s e Hvalid Hgaps)
      as (m' & cs' & ce' & -> & Heq).
    exists m', cs', ce'. split; [done|]. by rewrite Heq, <- app_assoc.
Qed.

(** C5. Merging is idempotent: a list of intervals that is already merged
    (sorted by start, every span ending more than one day before the next
    one starts) is returned unchanged. *)
Theorem merge_intervals_idempotent (l : list interval) :
  Forall valid_interval l →
  sorted_by_start l →
  gaps_over_one_day l →
  merge_intervals l = Ok l.
Proof.
  intros Hvalid Hsorted Hgaps. unfold merge_intervals.
  rewrite (py_sorted_id fst) by exact Hsorted.
  destruct l as [|[cs ce] rest]; [done|].
  destruct (merge_loop_gapped rest [] cs ce Hvalid Hgaps)
    as (m & cs' & ce' & -> & Heq).
  cbn. by rewrite Heq.
Qed.

(** *** The shape of the sweep *)

Lemma sweep_head rest : ∀ cs ce, ∃ ce' tl, sweep cs ce rest = (cs, ce') :: tl.
Proof.
  induction rest as [|[s e] rest IH]; intros cs ce; simpl; [by eauto|].
  destruct (s <=? ce + 1); eauto.
Qed.

Lemma sweep_gaps rest : ∀ cs ce, gaps_over_one_day (sweep cs ce rest).
Proof.
  induction rest as [|[s e] rest IH]; intros cs ce; simpl.
  - repeat constructor.
  - destruct (Z.leb_spec s (ce + 1)); [apply IH|].
    constructor; [apply IH|].
    destruct (sweep_head rest s e) as (ce' & tl & ->).
    constructor. simpl. lia.
Qed.

Lemma sweep_sorted rest : ∀ cs ce,
  StronglySorted (key_le fst) ((cs, ce) :: rest) →
  sorted_by_start (sweep cs ce rest).
Proof.
  induction rest as [|[s e] rest IH]; intros cs ce Hsorted; simpl.
  - repeat constructor.
  - apply StronglySorted_inv in Hsorted as [Hrest Hcs].
    apply Forall_cons in Hcs as [Hcs_s Hcs].
    destruct (s <=? ce + 1).
    + apply IH. constructor; [by eapply StronglySorted_inv|done].
    + constructor; [by apply IH|].
      destruct (sweep_head rest s e) as (ce' & tl & ->).
      constructor. exact Hcs_s.
Qed.

Lemma merge_reference_sorted l : sorted_by_start (merge_reference l).
Proof.
  unfold merge_reference.
  pose proof (py_sorted_sorted fst l) as Hsorted.
  destruct (py_sorted fst l) as [|[s e] rest]; [constructor|].
  by apply sweep_sorted.
Qed.

Lemma merge_reference_gaps l : gaps_over_one_day (merge_reference l).
Proof.
  unfold merge_reference.
  destruct (py_sorted fst l) as [|[s e] rest]; [constructor|].
  apply sweep_gaps.
Qed.

(** Two intervals that overlap or lie at most one day apart merge into
    one span, from the earlier start to the later end. *)
Lemma merge_reference_pair (a b : interval) :
  b.1 ≤ a.2 + 1 → a.1 ≤ b.2 + 1 →
  merge_reference [a; b] = [(a.1 `min` b.1, a.2 `max` b.2)].
Proof.
  destruct a as [s1 e1], b as [s2 e2]. simpl. intros H1 H2.
  unfold merge_reference. simpl.
  destruct (Z.leb_spec s1 s2); simpl.
  - destruct (Z.leb_spec s2 (e1 + 1)); [|lia]. f_equal. f_equal; lia.
  - destruct (Z.leb_spec s1 (e2 + 1)); [|lia]. f_equal. f_equal; lia.
Qed.

(** As long as no interval ends on the last representable date,
    [merge_intervals] is the sweep of the specification; its result is
    sorted by start, consecutive spans lie more than one day apart, and two
    intervals at most one day apart merge into the span from the smaller
    start to the larger end. *)
Theorem merge_intervals_is_sweep (l : list interval) :
  Forall (λ iv : interval, before_date_max iv.2) l →
  merge_intervals l = Ok (merge_reference l)
  ∧ sorted_by_start (merge_reference l)
  ∧ gaps_over_one_day (merge_reference l)
  ∧ ∀ a b : interval, l = [a; b] → b.1 ≤ a.2 + 1 → a.1 ≤ b.2 + 1 →
      merge_reference l = [(a.1 `min` b.1, a.2 `max` b.2)].
Proof.
  intros Hl. split; [by apply merge_intervals_reference|].
  split; [apply merge_reference_sorted|].
  split; [apply merge_reference_gaps|].
  intros a b -> H1 H2. by apply merge_reference_pair.
Qed.

(** *** Independence of the input order *)

Lemma sweep_cons cs ce s e rest :
  sweep cs ce ((s, e) :: rest)
  = if s <=? ce + 1 then sweep cs (ce `max` e) rest
    else (cs, ce) :: sweep s e rest.
Proof. done. Qed.

(** Two neighbours with the same start can change places. *)
Lemma sweep_swap (a b : interval) rest cs ce :
  well_formed a → well_formed b → a.1 = b.1 →
  sweep cs ce (a :: b :: rest) = sweep cs ce (b :: a :: rest).
Proof.
  destruct a as [s e1], b as [s' e2]. unfold well_formed. cbn [fst snd].
  intros Ha Hb <-. rewrite !sweep_cons.
  destruct (Z.leb_spec s (ce + 1)).
  - destruct (Z.leb_spec s (ce `max` e1 + 1)); [|lia].
    destruct (Z.leb_spec s (ce `max` e2 + 1)); [|lia].
    by replace (Z.max (Z.max ce e1) e2) with (Z.max (Z.max ce e2) e1) by lia.
  - destruct (Z.leb_spec s (e1 + 1)); [|lia].
    destruct (Z.leb_spec s (e2 + 1)); [|lia].
    by rewrite Z.max_comm.
Qed.

(** An interval moves to the front over neighbours of the same start. *)
Lemma sweep_bubble (a : interval) l1 : ∀ l2 cs ce,
  well_formed a →
  Forall (λ x : interval, well_formed x ∧ x.1 = a.1) l1 →
  sweep cs ce (l1 ++ a :: l2) = sweep cs ce (a :: l1 ++ l2).
Proof.
  induction l1 as [|b l1 IH]; intros l2 cs ce Ha Hl1; [done|].
  apply Forall_cons in Hl1 as [[Hb Hba] Hl1]. cbn [app].
  trans (sweep cs ce (b :: a :: l1 ++ l2)).
  - destruct b as [s e]. rewrite !(sweep_cons _ _ s e).
    destruct (s <=? ce + 1); by rewrite IH.
  - symmetry. by apply sweep_swap.
Qed.

(** Two sorted arrangements of the same well-formed intervals sweep to the
    same spans. *)
Lemma sweep_sorted_perm t : ∀ t' cs ce,
  Forall well_formed t →
  StronglySorted (key_le fst) t →
  StronglySorted (key_le fst) t' →
  t ≡ₚ t' →
  sweep cs ce t = sweep cs ce t'.
Proof.
  induction t as [|a t IH]; intros t' cs ce Hwf Ht Ht' Hperm.
  { by apply Permutation_nil in Hperm as ->. }
  assert (a ∈ t') as (l1 & l2 & ->)%list_elem_of_split
    by (rewrite <- Hperm; left).
  apply Permutation_cons_app_inv in Hperm.
  apply Forall_cons in Hwf as [Ha Hwf].
  apply StronglySorted_inv in Ht as [Ht Ha_min].
  apply StronglySorted_app in Ht' as (Hl1a & Hl1 & Hl2a).
  assert (Forall (λ x : interval, well_formed x ∧ x.1 = a.1) l1) as Hties.
  { apply Forall_forall. intros x Hx. split.
    - eapply Forall_forall; [exact Hwf|]. rewrite Hperm. set_solver.
    - apply Z.le_antisymm.
      + apply (Hl1a x a); [done|left].
      + eapply (Forall_forall (key_le fst a)); [exact Ha_min|].
        rewrite Hperm. set_solver. }
  rewrite sweep_bubble by done.
  assert (StronglySorted (key_le fst) (l1 ++ l2)) as Hl12.
  { apply StronglySorted_app. split_and!; [|done|by eapply StronglySorted_inv].
    intros x y Hx Hy. apply (Hl1a x y); [done|by right]. }
  destruct a as [s e]. rewrite !(sweep_cons _ _ s e).
  destruct (s <=? ce + 1); erewrite IH; done.
Qed.

(** The sweep from a sentinel that lies well before the first start. *)
Lemma sweep_sentinel c s e rest :
  c + 1 < s → sweep c c ((s, e) :: rest) = (c, c) :: sweep s e rest.
Proof. intros. rewrite sweep_cons. by destruct (Z.leb_spec s (c + 1)); [lia|]. Qed.

Lemma merge_reference_perm (l l' : list interval) :
  Forall well_formed l → l ≡ₚ l' → merge_reference l = merge_reference l'.
Proof.
  intros Hwf Hperm. unfold merge_reference.
  pose proof (py_sorted_sorted fst l) as Hs.
  pose proof (py_sorted_sorted fst l') as Hs'.
  assert (py_sorted fst l ≡ₚ py_sorted fst l') as Hsp
    by by rewrite !py_sorted_perm.
  assert (Forall well_formed (py_sorted fst l)) as Hswf
    by by rewrite py_sorted_perm.
  destruct (py_sorted fst l) as [|[s e] rest] eqn:El.
  { by apply Permutation_nil in Hsp as ->. }
  destruct (py_sorted fst l') as [|[s' e'] rest'] eqn:El'.
  { by apply Permutation_sym, Permutation_nil in Hsp. }
  assert (s ≤ s') as Hss'.
  { apply StronglySorted_inv in Hs as [_ Hmin].
    assert ((s', e') ∈ (s, e) :: rest) as [|Hin]%elem_of_cons
      by (rewrite Hsp; left).
    - simplify_eq. lia.
    - by apply (proj1 (Forall_forall _ _) Hmin (s', e')). }
  pose proof (sweep_sorted_perm _ _ (s - 2) (s - 2) Hswf Hs Hs' Hsp) as Heq.
  rewrite !sweep_sentinel in Heq by lia. by simplify_eq.
Qed.

(** Merging does not depend on the order of its input, for well-formed
    intervals none of which ends on the last representable date. *)
Theorem merge_intervals_order_independent (l l' : list interval) :
  Forall (λ iv : interval, well_formed iv ∧ before_date_max iv.2) l →
  l ≡ₚ l' →
  merge_intervals l = merge_intervals l'.
Proof.
  intros Hl Hperm.
  apply Forall_and in Hl as [Hwf Hends].
  rewrite !merge_intervals_reference; [|by rewrite <- Hperm|done].
  f_equal. by apply merge_reference_perm.
Qed.

(** Whatever the dates, two orders of the same well-formed intervals on
    which the merge returns give the same result. *)
Lemma merge_intervals_same_result (l l' : list interval) r r' :
  Forall well_formed l → l ≡ₚ l' →
  merge_intervals l = Ok r → merge_intervals l' = Ok r' → r = r'.
Proof.
  intros Hwf Hperm ->%merge_intervals_Ok ->%merge_intervals_Ok.
  by apply merge_reference_perm.
Qed.

(** *** Worked examples and the last representable date *)

#[local] Instance before_date_max_dec d : Decision (before_date_max d).
Proof. unfold before_date_max. apply _. Defined.

#[local] Instance valid_interval_dec iv : Decision (valid_interval iv).
Proof. unfold valid_interval, valid_date. apply _. Defined.

#[local] Instance well_formed_dec iv : Decision (well_formed iv).
Proof. unfold well_formed. apply _. Defined.

(** C2: [merge_intervals] is not the sweep of the specification on every
    list of intervals. Where an interval that another one follows in start
    order ends on 9999-12-31, the sweep merges the two (they overlap) into
    the span from the smaller start to the larger end, while the code
    raises [OverflowError] at [current_end + dt.timedelta(days=1)], which
    nothing catches. An open-ended interval that comes last in start
    order is merged as the sweep says. *)
Theorem merge_intervals_open_ended_raises :
  Forall valid_interval
    [(day 2024 1 1, day 9999 12 31); (day 2024 1 2, day 2024 1 5)]
  ∧ merge_intervals
      [(day 2024 1 1, day 9999 12 31); (day 2024 1 2, day 2024 1 5)]
    = Raise OverflowError
  ∧ merge_reference
      [(day 2024 1 1, day 9999 12 31); (day 2024 1 2, day 2024 1 5)]
    = [(day 2024 1 1 `min` day 2024 1 2, day 9999 12 31 `max` day 2024 1 5)]
  ∧ merge_intervals
      [(day 2024 1 3, day 9999 12 31); (day 2024 1 2, day 2024 1 5)]
    = Ok (merge_reference
            [(day 2024 1 3, day 9999 12 31); (day 2024 1 2, day 2024 1 5)])
  ∧ merge_reference
      [(day 2024 1 3, day 9999 12 31); (day 2024 1 2, day 2024 1 5)]
    = [(day 2024 1 2, day 9999 12 31)].
Proof. split; [compute_done|]. split_and!; reflexivity. Qed.

Lemma merge_intervals_is_sweep_witness :
  Forall (λ iv : interval, before_date_max iv.2)
    [(day 2024 1 11, day 2024 1 25); (day 2024 1 1, day 2024 1 10)]
  ∧ merge_intervals
      [(day 2024 1 11, day 2024 1 25); (day 2024 1 1, day 2024 1 10)]
    = Ok [(day 2024 1 1, day 2024 1 25)].
Proof.
  split; [compute_done|].
  exact (eq_trans
    (proj1 (merge_intervals_is_sweep
      [(day 2024 1 11, day 2024 1 25); (day 2024 1 1, day 2024 1 10)]
      ltac:(compute_done)))
    eq_refl).
Defined.

Lemma merge_intervals_idempotent_witness :
  Forall valid_interval
    [(day 2024 1 1, day 2024 1 10); (day 2024 1 12, day 2024 1 25)]
  ∧ sorted_by_start
    [(day 2024 1 1, day 2024 1 10); (day 2024 1 12, day 2024 1 25)]
  ∧ gaps_over_one_day
    [(day 2024 1 1, day 2024 1 10); (day 2024 1 12, day 2024 1 25)]
  ∧ merge_intervals
      [(day 2024 1 1, day 2024 1 10); (day 2024 1 12, day 2024 1 25)]
    = Ok [(day 2024 1 1, day 2024 1 10); (day 2024 1 12, day 2024 1 25)].
Proof.
  assert (Forall valid_interval
    [(day 2024 1 1, day 2024 1 10); (day 2024 1 12, day 2024 1 25)]) as H1
    by compute_done.
  assert (sorted_by_start
    [(day 2024 1 1, day 2024 1 10); (day 2024 1 12, day 2024 1 25)]) as H2
    by (unfold sorted_by_start; compute_done).
  assert (gaps_over_one_day
    [(day 2024 1 1, day 2024 1 10); (day 2024 1 12, day 2024 1 25)]) as H3
    by (unfold gaps_over_one_day; compute_done).
  split_and!; [done..|]. exact (merge_intervals_idempotent _ H1 H2 H3).
Defined.

(** C6: merging depends on the order of its input. Of two leaves that
    start the same day, one of them ending on 9999-12-31, the merge raises
    [OverflowError] in one order (the sort is stable, the open-ended leave
    stays first, and [current_end + dt.timedelta(days=1)] overflows) and
    returns the merged span in the other. *)
Theorem merge_intervals_order_dependent :
  [(day 2024 1 1, day 9999 12 31); (day 2024 1 1, day 2024 1 5)]
    ≡ₚ [(day 2024 1 1, day 2024 1 5); (day 2024 1 1, day 9999 12 31)]
  ∧ Forall (λ iv : interval, valid_interval iv ∧ well_formed iv)
      [(day 2024 1 1, day 9999 12 31); (day 2024 1 1, day 2024 1 5)]
  ∧ merge_intervals
      [(day 2024 1 1, day 9999 12 31); (day 2024 1 1, day 2024 1 5)]
    = Raise OverflowError
  ∧ merge_intervals
      [(day 2024 1 1, day 2024 1 5); (day 2024 1 1, day 9999 12 31)]
    = Ok [(day 2024 1 1, day 9999 12 31)].
Proof.
  split; [apply Permutation_swap|]. split; [compute_done|].
  split; reflexivity.
Qed.

(** Without well-formedness the order matters as well: an interval that
    ends more than a day before it starts absorbs nothing. *)
Lemma merge_intervals_ill_formed_order :
  merge_intervals [(day 2024 1 10, day 2024 1 5); (day 2024 1 10, day 2024 1 20)]
  = Ok [(day 2024 1 10, day 2024 1 5); (day 2024 1 10, day 2024 1 20)]
  ∧ merge_intervals [(day 2024 1 10, day 2024 1 20); (day 2024 1 10, day 2024 1 5)]
    = Ok [(day 2024 1 10, day 2024 1 20)].
Proof. split; reflexivity. Qed.

Lemma merge_intervals_order_independent_witness :
  Forall (λ iv : interval, well_formed iv ∧ before_date_max iv.2)
    [(day 2024 1 11, day 2024 1 25); (day 2024 1 1, day 2024 1 10)]
  ∧ [(day 2024 1 11, day 2024 1 25); (day 2024 1 1, day 2024 1 10)]
    ≡ₚ [(day 2024 1 1, day 2024 1 10); (day 2024 1 11, day 2024 1 25)]
  ∧ merge_intervals
      [(day 2024 1 11, day 2024 1 25); (day 2024 1 1, day 2024 1 10)]
    = merge_intervals
      [(day 2024 1 1, day 2024 1 10); (day 2024 1 11, day 2024 1 25)].
Proof.
  assert (Forall (λ iv : interval, well_formed iv ∧ before_date_max iv.2)
    [(day 2024 1 11, day 2024 1 25); (day 2024 1 1, day 2024 1 10)]) as H1
    by compute_done.
  split_and!; [done|apply Permutation_swap|].
  exact (merge_intervals_order_independent _ _ H1 (Permutation_swap _ _ _)).
Defined.

(** ** Dictionaries *)

Lemma String_eqb_decide (a b : string) :
  String.eqb a b = bool_decide (a = b).
Proof.
  destruct (String.eqb_spec a b); symmetry;
    [by apply bool_decide_eq_true_2 | by apply bool_decide_eq_false_2].
Qed.

Lemma dict_lookup_remove {V : Type} (k k' : string) (d : pydict V) :
  dict_lookup k' (dict_remove k d)
  = if decide (k = k') then None else dict_lookup k' d.
Proof.
  unfold dict_remove. induction d as [|[k0 v] d IH]; simpl.
  - by case_decide.
  - rewrite filter_cons. simpl. destruct (decide (k0 ≠ k)) as [Hne|Heq]; simpl.
    + rewrite IH. destruct (String.eqb_spec k' k0) as [->|]; [|done].
      by rewrite decide_False by done.
    + apply dec_stable in Heq as ->. rewrite IH.
      destruct (String.eqb_spec k' k) as [->|]; [|done].
      by rewrite !decide_True.
Qed.

Lemma dict_lookup_elem_of {V : Type} (k : string) (d : pydict V) v :
  dict_lookup k d = Some v → (k, v) ∈ d.
Proof.
  induction d as [|[k0 v0] d IH]; simpl; [done|].
  rewrite String_eqb_decide. case_bool_decide; simplify_eq.
  - intros [= ->]. left.
  - right. auto.
Qed.

Lemma dict_lookup_NoDup {V : Type} (k : string) (d : pydict V) v :
  NoDup d.*1 → (k, v) ∈ d → dict_lookup k d = Some v.
Proof.
  induction d as [|[k0 v0] d IH]; simpl; [by intros _ ?%elem_of_nil|].
  intros [Hk0 Hd]%NoDup_cons [Heq|Hin]%elem_of_cons.
  - simplify_eq. by rewrite String.eqb_refl.
  - rewrite String_eqb_decide. case_bool_decide; [|by auto].
    simplify_eq. destruct Hk0. apply list_elem_of_fmap. by exists (k0, v).
Qed.

Lemma dict_lookup_None {V : Type} (k : string) (d : pydict V) :
  dict_lookup k d = None ↔ k ∉ d.*1.
Proof.
  induction d as [|[k0 v0] d IH]; simpl.
  - split; [intros _ ?%elem_of_nil|]; done.
  - rewrite not_elem_of_cons, <- IH.
    destruct (String.eqb_spec k k0); [|tauto].
    split; [done|]. by intros [? _].
Qed.

Section setdefault_append_facts.
Context {X : Type}.
Implicit Types (d : pydict (list X)) (k : string) (x : X).

Lemma setdefault_append_lookup k x d :
  dict_lookup k (setdefault_append k x d)
  = Some (default [] (dict_lookup k d) ++ [x]).
Proof.
  induction d as [|[k0 xs] d IH]; simpl.
  - by rewrite String.eqb_refl.
  - destruct (String.eqb k k0) eqn:E; simpl; by rewrite E.
Qed.

Lemma setdefault_append_lookup_ne k k' x d :
  k ≠ k' → dict_lookup k' (setdefault_append k x d) = dict_lookup k' d.
Proof.
  intros Hne. induction d as [|[k0 xs] d IH]; simpl.
  - rewrite String_eqb_decide. by rewrite bool_decide_eq_false_2.
  - destruct (String.eqb_spec k k0) as [->|]; simpl.
    + by destruct (String.eqb_spec k' k0).
    + by rewrite IH.
Qed.

Lemma setdefault_append_keys k x d :
  (setdefault_append k x d).*1
  = if decide (k ∈ d.*1) then d.*1 else d.*1 ++ [k].
Proof.
  induction d as [|[k0 xs] d IH]; csimpl.
  - done.
  - destruct (String.eqb_spec k k0) as [->|Hne]; csimpl.
    + rewrite decide_True; [done|left].
    + rewrite IH. clear IH. case_decide as Hin.
      * rewrite decide_True; [done|by right].
      * rewrite decide_False; [done|]. by intros [?|?]%elem_of_cons.
Qed.

Lemma setdefault_append_NoDup k x d :
  NoDup d.*1 → NoDup (setdefault_append k x d).*1.
Proof.
  intros Hd. rewrite setdefault_append_keys. case_decide; [done|].
  apply NoDup_app. split_and!; [done| |apply NoDup_singleton].
  by intros k' Hk' ->%list_elem_of_singleton.
Qed.

Lemma setdefault_append_fmap {Y : Type} (f : X → Y) k x d :
  setdefault_append k (f x) ((λ kv : string * list X, (kv.1, f <$> kv.2)) <$> d)
  = (λ kv : string * list X, (kv.1, f <$> kv.2)) <$> setdefault_append k x d.
Proof.
  induction d as [|[k0 xs] d IH]; csimpl; [done|].
  destruct (String.eqb k k0); csimpl.
  - by rewrite fmap_app.
  - by rewrite IH.
Qed.

End setdefault_append_facts.

(** ** [parse_date] and [get_interval_and_amount] *)

Section extraction_facts.
Context (py : builtins).

Lemma get_interval_and_amount_unfold entry window_start window_end :
  get_interval_and_amount py entry window_start window_end
  = match derived_interval py entry with
    | None => Ok None
    | Some (start, end_) =>
        if (start <=? window_end) && (end_ >=? window_start)
        then amount_outcome py entry (start, end_)
        else Ok None
    end.
Proof.
  unfold get_interval_and_amount, derived_interval, amount_outcome.
  destruct (parse_date py (dict_get entry "start_date")) as [start|];
    destruct (parse_date py (dict_get entry "end_date")) as [end_|];
    try done.
  (* an end date without a start date *)
  all: cbn [default]; repeat case_match; done.
Qed.

Lemma py_float_raises v e :
  py_float py v = Raise e →
  (e = TypeError ∧ (v = PNone ∨ (∃ l, v = PList l) ∨ ∃ d, v = PDict d))
  ∨ (e = ValueError ∧ ∃ s, v = PStr s ∧ float_of_str py s = None)
  ∨ (e = OverflowError ∧ ∃ z, v = PInt z ∧ float_of_int z = Raise OverflowError).
Proof.
  destruct v as [|b|z|f|s|l|d]; simpl; try done.
  - intros [= <-]. eauto 10.
  - destruct (float_of_int z) as [?|e'] eqn:Hz; [done|]. intros [= <-].
    right; right.
    assert (e' = OverflowError) as ->.
    { unfold float_of_int in Hz. by repeat case_match; simplify_eq. }
    eauto.
  - destruct (float_of_str py s) eqn:E; [done|]. intros [= <-]. eauto 10.
  - intros [= <-]. eauto 10.
  - intros [= <-]. eauto 10.
Qed.

(** The record is excluded exactly when its start date does not parse, its
    interval misses the window, or its amount is absent or not numeric. *)
Lemma get_interval_and_amount_excluded entry window_start window_end :
  get_interval_and_amount py entry window_start window_end = Ok None
  ↔ derived_interval py entry = None
    ∨ (∃ start end_, derived_interval py entry = Some (start, end_)
         ∧ (start > window_end ∨ end_ < window_start))
    ∨ dict_get entry "amount" = PNone
    ∨ py_float py (dict_get entry "amount") = Raise TypeError
    ∨ py_float py (dict_get entry "amount") = Raise ValueError.
Proof.
  rewrite get_interval_and_amount_unfold.
  destruct (derived_interval py entry) as [[start end_]|];
    [|split; [by left|done]].
  destruct (Z.leb_spec start window_end), (Z.geb_spec end_ window_start);
    cbn [andb];
    try (split; [intros _; right; left; exists start, end_; split; [done|lia]
                |done]).
  unfold amount_outcome.
  split.
  - intros Hout. right; right.
    destruct (dict_get entry "amount") eqn:Hamount; [by left|..];
      right; revert Hout; rewrite <- Hamount;
      destruct (py_float py (dict_get entry "amount")) as [?|[]];
      try done; eauto.
  - intros [|[(? & ? & [= <- <-] & ?)|[->|[Hf|Hf]]]]; [done|lia|done|..].
    + destruct (dict_get entry "amount"); by rewrite ?Hf.
    + destruct (dict_get entry "amount"); by rewrite ?Hf.
Qed.

(** It returns the interval and the amount exactly when the start date
    parses, the interval meets the window and the amount converts. *)
Lemma get_interval_and_amount_returned entry window_start window_end
    start end_ amount_val :
  get_interval_and_amount py entry window_start window_end
    = Ok (Some (start, end_, amount_val))
  ↔ derived_interval py entry = Some (start, end_)
    ∧ start ≤ window_end ∧ window_start ≤ end_
    ∧ py_float py (dict_get entry "amount") = Ok amount_val.
Proof.
  rewrite get_interval_and_amount_unfold.
  destruct (derived_interval py entry) as [[start' end']|]; [|naive_solver].
  destruct (Z.leb_spec start' window_end), (Z.geb_spec end' window_start);
    cbn [andb]; try (split; [done|intros ([= <- <-] & ? & ? & _); lia]).
  unfold amount_outcome. split.
  - intros Hout.
    assert (py_float py (dict_get entry "amount")
            = Ok amount_val ∧ start' = start ∧ end' = end_) as (? & -> & ->).
    { destruct (dict_get entry "amount") eqn:Hamount; [done|..];
        revert Hout; rewrite <- Hamount;
        destruct (py_float py (dict_get entry "amount")) as [?|[]];
        naive_solver. }
    split_and!; [done|lia..|done].
  - intros ([= <- <-] & _ & _ & Hf).
    destruct (dict_get entry "amount"); try by rewrite Hf. done.
Qed.

(** It raises only where [float] overflows, on an [int] beyond the range
    of a float. *)
Lemma get_interval_and_amount_raises entry window_start window_end e :
  get_interval_and_amount py entry window_start window_end = Raise e →
  e = OverflowError
  ∧ ∃ z, dict_get entry "amount" = PInt z
         ∧ float_of_int z = Raise OverflowError.
Proof.
  rewrite get_interval_and_amount_unfold.
  destruct (derived_interval py entry) as [[start' end']|]; [|done].
  case_match; [|done]. unfold amount_outcome.
  destruct (dict_get entry "amount") eqn:Hamount; [done|..];
    rewrite <- Hamount;
    destruct (py_float py (dict_get entry "amount")) as [?|e'] eqn:Hf;
    try done;
    apply py_float_raises in Hf as [[-> _]|[[-> _]|[-> Hz]]]; try done;
    by intros [= <-].
Qed.

(** *** An end date that does not parse *)

Lemma parse_date_None : parse_date py PNone = None.
Proof. done. Qed.

Lemma dict_get_remove (k k' : string) (entry : pydict pyval) :
  dict_get (dict_remove k entry) k'
  = if decide (k = k') then PNone else dict_get entry k'.
Proof.
  unfold dict_get, dict_get_default. rewrite dict_lookup_remove.
  by case_decide.
Qed.

Lemma derived_interval_unparsable_end entry :
  parse_date py (dict_get entry "end_date") = None →
  derived_interval py entry
  = (λ start, (start, start)) <$> parse_date py (dict_get entry "start_date").
Proof.
  intros Hend. unfold derived_interval. rewrite Hend.
  by destruct (parse_date py (dict_get entry "start_date")).
Qed.

(** C10. A record whose end date does not parse is not excluded for it:
    the end date is the start date, and the outcome is that of the same
    record without its end-date field. *)
Theorem unparsable_end_date_defaults_to_start
    (entry : pydict pyval) (window_start window_end : date) :
  parse_date py (dict_get entry "end_date") = None →
  get_interval_and_amount py entry window_start window_end
  = get_interval_and_amount py (dict_remove "end_date" entry)
      window_start window_end
  ∧ ∀ start end_ amount_val,
      get_interval_and_amount py entry window_start window_end
      = Ok (Some (start, end_, amount_val)) →
      parse_date py (dict_get entry "start_date") = Some start
      ∧ end_ = start.
Proof.
  intros Hend. split.
  - rewrite !get_interval_and_amount_unfold.
    rewrite !derived_interval_unparsable_end
      by (by rewrite ?dict_get_remove, ?decide_True).
    unfold amount_outcome. by rewrite !dict_get_remove, !decide_False.
  - intros start end_ amount_val.
    rewrite get_interval_and_amount_returned,
      derived_interval_unparsable_end by done.
    destruct (parse_date py (dict_get entry "start_date")); naive_solver.
Qed.

(** *** The trailing [Z] *)

Lemma rev_app_append (a b acc : string) :
  String.rev_app (a +:+ b) acc = String.rev_app b (String.rev_app a acc).
Proof. revert acc. induction a as [|c a IH]; intros acc; simpl; [done|apply IH]. Qed.

Lemma py_endswith_Z (c : string) : py_endswith (c +:+ "Z") "Z" = true.
Proof.
  unfold py_endswith, String.rev. rewrite rev_app_append. simpl.
  by destruct (String.rev_app c "").
Qed.

Lemma drop_last_append (c : string) (a : ascii) :
  drop_last (c +:+ String a EmptyString) = c.
Proof.
  induction c as [|b c IH]; [done|]. simpl. rewrite IH.
  by destruct c.
Qed.

(** A string that ends in [Z], once stripped, is parsed with [+00:00] in
    the place of the [Z]. *)
Lemma parse_date_trailing_Z (s c : string) :
  py_strip s = c +:+ "Z" →
  parse_date py (PStr s)
  = match datetime_fromisoformat py (c +:+ "+00:00") with
    | Some d => Some d
    | None => date_fromisoformat py (c +:+ "+00:00")
    end.
Proof.
  intros Hs. unfold parse_date.
  destruct (truthy (PStr s)) eqn:Hts; simpl.
  - rewrite Hs, py_endswith_Z, (drop_last_append c "Z").
    by repeat case_match.
  - simpl in Hts. apply negb_false_iff, String.eqb_eq in Hts as ->.
    by destruct c.
Qed.

End extraction_facts.

(** ** [compute_long_term_emails] *)

Section eligibility_facts.
Context (py : builtins) (cfg : config).

(** *** The ledgers *)

Lemma ledger_loop_body_Ok today st entry st' :
  ledger_loop_body py today st entry = Ok st' →
  st' = st
  ∨ ∃ email start end_ amount_val,
      get_interval_and_amount py entry today today
        = Ok (Some (start, end_, amount_val))
      ∧ st' = (setdefault_append email (start, end_) st.1,
               setdefault_append email (start, end_, amount_val) st.2).
Proof.
  destruct st as [user_intervals user_amounts]. unfold ledger_loop_body.
  destruct (extract_email py entry) as [email|]; [|by left; simplify_eq].
  destruct (String.eqb email ""); [by left; simplify_eq|].
  destruct (get_interval_and_amount py entry today today)
    as [[[[start end_] amount_val]|]|]; cbn; intros ?; simplify_eq.
  - right. by exists email, start, end_, amount_val.
  - by left.
Qed.

Lemma ledger_loop_body_ok (P : amount_entry → Prop) today st entry st' :
  (∀ x, get_interval_and_amount py entry today today = Ok (Some x) → P x) →
  ledgers_ok P st →
  ledger_loop_body py today st entry = Ok st' →
  ledgers_ok P st'.
Proof.
  intros HP [Hiv Hnd Hitems]
    [->|(email & start & end_ & amount_val & Hget & ->)]%ledger_loop_body_Ok;
    [done|].
  apply HP in Hget.
  split; simpl.
  - rewrite Hiv.
    apply (setdefault_append_fmap (fst : amount_entry → interval) email
             (start, end_, amount_val)).
  - by apply setdefault_append_NoDup.
  - intros email' ledger. destruct (decide (email = email')) as [<-|Hne].
    + rewrite setdefault_append_lookup. intros [= <-].
      split; [by destruct (default _ _)|].
      apply Forall_app. split; [|by repeat constructor].
      destruct (dict_lookup email st.2) as [ledger|] eqn:Hl; [|constructor].
      by eapply Hitems.
    + rewrite setdefault_append_lookup_ne by done. apply Hitems.
Qed.

Lemma for_loop_invariant {S X : Type} (P : S → Prop)
    (body : S → X → result S) items :
  (∀ st x st', x ∈ items → P st → body st x = Ok st' → P st') →
  ∀ st st', P st → for_loop body items st = Ok st' → P st'.
Proof.
  induction items as [|x items IH]; intros Hbody st st' Hst; simpl.
  - by intros [= <-].
  - destruct (body st x) as [st1|] eqn:Hx; [|done].
    apply IH; [|by eapply Hbody; [left|..]].
    intros ??? Hin. apply Hbody. by right.
Qed.

(** A loop none of whose turns raises returns. *)
Lemma for_loop_completes {S X : Type} (P : S → Prop)
    (body : S → X → result S) items :
  (∀ st x, x ∈ items → P st → ∃ st', body st x = Ok st' ∧ P st') →
  ∀ st, P st → ∃ st', for_loop body items st = Ok st'.
Proof.
  induction items as [|x items IH]; intros Hbody st Hst; simpl; [by eauto|].
  destruct (Hbody st x) as (st1 & -> & Hst1); [left|done|].
  apply IH; [|done]. intros ?? Hin. apply Hbody. by right.
Qed.

Lemma build_ledgers_ok (P : amount_entry → Prop) entries today st :
  (∀ entry x, entry ∈ entries →
     get_interval_and_amount py entry today today = Ok (Some x) → P x) →
  build_ledgers py entries today = Ok st → ledgers_ok P st.
Proof.
  intros HP. apply (for_loop_invariant (ledgers_ok P)).
  - intros st0 entry st' Hin. apply ledger_loop_body_ok. intros x. by apply HP.
  - split; [done|constructor|done].
Qed.

Lemma get_interval_and_amount_overlaps entry today x :
  get_interval_and_amount py entry today today = Ok (Some x) →
  overlaps today x.
Proof.
  destruct x as [[start end_] amount_val].
  intros (_ & ? & ? & _)%get_interval_and_amount_returned. by split.
Qed.

(** C8. Every item of a ledger overlaps the evaluation date: its interval
    starts no later than [today] and ends no earlier; so it does not end
    before it starts.  The ledgers of a run cut short by an exception are
    those of the entries read so far, which are entries too. *)
Theorem ledger_entries_overlap_today
    (entries : list (pydict pyval)) (today : date)
    (user_intervals : pydict (list interval))
    (user_amounts : pydict (list amount_entry)) :
  build_ledgers py entries today = Ok (user_intervals, user_amounts) →
  (∀ email ledger, dict_lookup email user_amounts = Some ledger →
     Forall (λ x : amount_entry,
               x.1.1 ≤ today ≤ x.1.2 ∧ x.1.1 ≤ x.1.2) ledger)
  ∧ (∀ email intervals, dict_lookup email user_intervals = Some intervals →
     Forall (λ iv : interval, iv.1 ≤ today ≤ iv.2 ∧ iv.1 ≤ iv.2) intervals).
Proof.
  intros [Hiv Hnd Htoday]%(build_ledgers_ok (overlaps today));
    [|by eauto using get_interval_and_amount_overlaps].
  simpl in *.
  assert (∀ email ledger, dict_lookup email user_amounts = Some ledger →
     Forall (λ x : amount_entry,
               x.1.1 ≤ today ≤ x.1.2 ∧ x.1.1 ≤ x.1.2) ledger) as Hamounts.
  { intros email ledger [_ Hl]%Htoday.
    eapply Forall_impl; [exact Hl|]. unfold overlaps. intros; lia. }
  split; [done|].
  intros email intervals Hl%dict_lookup_elem_of. subst user_intervals.
  apply list_elem_of_fmap in Hl as ([email' ledger] & [= -> ->] & Hin).
  apply Forall_fmap.
  apply (Hamounts email'). by apply dict_lookup_NoDup.
Qed.

(** *** The eligibility rule, in the words of the specification *)

#[local] Instance intersects_dec span x : Decision (intersects span x).
Proof. unfold intersects. apply _. Defined.

Lemma total_amount_span_total ledger interval_start interval_end :
  total_amount ledger interval_start interval_end
  = span_total ledger (interval_start, interval_end).
Proof.
  unfold total_amount, span_total, sum_amounts. generalize 0%float.
  induction ledger as [|[[start end_] amount_val] ledger IH]; intros acc;
    [done|].
  rewrite filter_cons. cbn [fold_left].
  destruct (Z.leb_spec start interval_end), (Z.geb_spec end_ interval_start);
    cbn [andb];
    (destruct (decide (intersects (interval_start, interval_end)
                         (start, end_, amount_val))) as [Hi|Hi];
     [|try (destruct Hi; unfold intersects; simpl; lia)]);
    try (unfold intersects in Hi; simpl in Hi; lia);
    csimpl; apply IH.
Qed.

Lemma any_long_term_Exists ledger merged :
  any_long_term cfg ledger merged = true
  ↔ Exists (long_term_span cfg ledger) merged.
Proof.
  induction merged as [|[interval_start interval_end] merged IH]; simpl.
  - split; [done|by intros ?%Exists_nil].
  - rewrite Exists_cons, <- IH, total_amount_span_total.
    unfold long_term_span, span_days. simpl.
    destruct (Z.ltb_spec (interval_end - interval_start + 1)
                (LONG_TERM_MIN_DAYS cfg)).
    + split; [by right|]. intros [[? _]|?]; [lia|done].
    + destruct (LONG_TERM_MIN_AMOUNT cfg <=? _)%float.
      * split; [|done]. intros _. left. split; [lia|done].
      * split; [by right|]. by intros [[_ ?]|?].
Qed.

(** *** The second loop *)

Lemma eligibility_loop user_amounts items : ∀ E0 E,
  for_loop (eligibility_loop_body cfg user_amounts) items E0 = Ok E →
  (∀ email intervals, (email, intervals) ∈ items →
     ∃ merged, merge_intervals intervals = Ok merged)
  ∧ ∀ email, email ∈ E ↔
      email ∈ E0
      ∨ ∃ intervals merged,
          (email, intervals) ∈ items
          ∧ merge_intervals intervals = Ok merged
          ∧ any_long_term cfg (dict_get_default user_amounts email []) merged
            = true.
Proof.
  induction items as [|[email0 intervals0] items IH]; intros E0 E; simpl.
  - intros [= <-]. split; [by intros ?? ?%elem_of_nil|].
    intros email. split; [by left|].
    by intros [?|(? & ? & ?%elem_of_nil & _)].
  - destruct (merge_intervals intervals0) as [merged0|] eqn:Hm0; [|done].
    cbn [mbind result_bind].
    destruct (any_long_term cfg _ merged0) eqn:Hany; intros [Hall Hiff]%IH.
    + split.
      { intros email intervals [[= -> ->]|?]%elem_of_cons; eauto. }
      intros email. rewrite Hiff. split.
      * intros [[->%elem_of_singleton|?]%elem_of_union
               |(intervals & merged & Hin & ? & ?)].
        -- right. exists intervals0, merged0. split_and!; [left|done..].
        -- by left.
        -- right. exists intervals, merged. split_and!; [by right|done..].
      * intros [?|(intervals & merged & [[= -> ->]|Hin]%elem_of_cons & ? & ?)].
        -- left. by apply elem_of_union_r.
        -- left. by apply elem_of_union_l, elem_of_singleton.
        -- right. by exists intervals, merged.
    + split.
      { intros email intervals [[= -> ->]|?]%elem_of_cons; eauto. }
      intros email. rewrite Hiff. split.
      * intros [?|(intervals & merged & Hin & ? & ?)]; [by left|].
        right. exists intervals, merged. split_and!; [by right|done..].
      * intros [?|(intervals & merged & [[= -> ->]|Hin]%elem_of_cons & ? & ?)].
        -- by left.
        -- congruence.
        -- right. by exists intervals, merged.
Qed.

(** On a run that completes, an identity with a ledger is in the result
    exactly when one of the merged spans of its ledger lasts at least
    [LONG_TERM_MIN_DAYS] days and the amounts of the ledger items that
    intersect that span (taken per span, in ledger order) add up to at
    least [LONG_TERM_MIN_AMOUNT]. *)
Theorem eligible_iff_long_term_span
    (entries : list (pydict pyval)) (today : date) (E : gset string) :
  compute_long_term_emails py cfg entries today = Ok E →
  ∃ user_intervals user_amounts,
    build_ledgers py entries today = Ok (user_intervals, user_amounts)
    ∧ ∀ email ledger,
        dict_lookup email user_amounts = Some ledger →
        ledger ≠ []
        ∧ ∃ merged,
            merge_intervals (fst <$> ledger) = Ok merged
            ∧ (email ∈ E ↔ Exists (long_term_span cfg ledger) merged).
Proof.
  unfold compute_long_term_emails.
  destruct (build_ledgers py entries today)
    as [[user_intervals user_amounts]|] eqn:Hledgers; [|done].
  cbn [mbind result_bind]. intros [Hall Hiff]%eligibility_loop.
  exists user_intervals, user_amounts. split; [done|].
  apply (build_ledgers_ok (λ _, True)) in Hledgers as [Hiv Hnd Htoday];
    [|done].
  simpl in *.
  assert (NoDup user_intervals.*1) as Hnd'.
  { by rewrite Hiv, <- list_fmap_compose. }
  intros email ledger Hledger. split; [by eapply Htoday|].
  assert ((email, fst <$> ledger) ∈ user_intervals) as Hin.
  { rewrite Hiv. apply list_elem_of_fmap. exists (email, ledger).
    split; [done|]. by apply dict_lookup_elem_of. }
  destruct (Hall _ _ Hin) as [merged Hmerged].
  exists merged. split; [done|].
  rewrite Hiff, <- any_long_term_Exists. split.
  - intros [?%elem_of_empty|(intervals & merged' & Hin' & Hm' & Hany)]; [done|].
    assert (intervals = fst <$> ledger) as ->.
    { apply dict_lookup_NoDup in Hin, Hin'; [|done..]. congruence. }
    unfold dict_get_default in Hany. rewrite Hledger in Hany. congruence.
  - intros Hany. right. exists (fst <$> ledger), merged.
    split_and!; [done..|]. unfold dict_get_default. by rewrite Hledger.
Qed.

(** Nobody without a ledger is in the result. *)
Lemma eligible_has_ledger entries today E user_intervals user_amounts email :
  compute_long_term_emails py cfg entries today = Ok E →
  build_ledgers py entries today = Ok (user_intervals, user_amounts) →
  email ∈ E → is_Some (dict_lookup email user_amounts).
Proof.
  unfold compute_long_term_emails. intros Hrun Hledgers. revert Hrun.
  rewrite Hledgers. cbn [mbind result_bind].
  intros [_ Hiff]%eligibility_loop.
  apply (build_ledgers_ok (λ _, True)) in Hledgers as [Hiv _ _]; [|done].
  simpl in *.
  rewrite Hiff.
  intros [?%elem_of_empty|(intervals & merged & Hin & _)]; [done|].
  destruct (dict_lookup email user_amounts) eqn:Hl; [done|].
  apply dict_lookup_None in Hl. destruct Hl.
  rewrite Hiv in Hin.
  apply list_elem_of_fmap in Hin as ([email' ledger] & [= -> ->] & Hin).
  apply list_elem_of_fmap. by exists (email', ledger).
Qed.

(** The run completes when no amount is an integer beyond the range of a
    float and no record ends on the last representable date. *)
Lemma compute_long_term_emails_completes entries today :
  (∀ entry z, entry ∈ entries →
     dict_get entry "amount" = PInt z → float_of_int z ≠ Raise OverflowError) →
  (∀ entry start end_, entry ∈ entries →
     derived_interval py entry = Some (start, end_) → before_date_max end_) →
  ∃ E, compute_long_term_emails py cfg entries today = Ok E.
Proof.
  intros Hamount Hend. unfold compute_long_term_emails.
  destruct (for_loop_completes (λ _, True) (ledger_loop_body py today) entries)
    with (st := ([], []) : ledgers) as [[user_intervals user_amounts] Hledgers];
    [|done|].
  { intros [ui ua] entry Hin _. unfold ledger_loop_body.
    destruct (extract_email py entry) as [email|]; [|by eauto].
    destruct (String.eqb email ""); [by eauto|].
    destruct (get_interval_and_amount py entry today today)
      as [[[[start end_] amount_val]|]|e] eqn:Hget; cbn; [by eauto..|].
    apply get_interval_and_amount_raises in Hget as (_ & z & Hz & Hraise).
    by destruct (Hamount entry z). }
  fold (build_ledgers py entries today) in Hledgers |- *.
  rewrite Hledgers. cbn [mbind result_bind].
  apply (build_ledgers_ok (λ x : amount_entry, before_date_max x.1.2))
    in Hledgers as [Hiv Hnd Hitems].
  2:{ intros entry [[start end_] amount_val] Hin
        (Hd & _)%get_interval_and_amount_returned. by eapply Hend. }
  simpl in *.
  apply (for_loop_completes (λ _, True)); [|done].
  intros E0 [email intervals] Hin _. unfold eligibility_loop_body.
  rewrite Hiv in Hin.
  apply list_elem_of_fmap in Hin as ([email' ledger] & [= -> ->] & Hin).
  apply dict_lookup_NoDup, Hitems in Hin as [_ Hledger]; [|done].
  rewrite merge_intervals_reference by by apply Forall_fmap.
  cbn [mbind result_bind]. case_match; eauto.
Qed.

End eligibility_facts.

(** *** Worked examples *)

Lemma eligible_iff_long_term_span_witness :
  compute_long_term_emails example_builtins default_config
    [record_january; record_february] (day 2024 1 15) = Ok {["a@x.com"]}
  ∧ ∃ user_intervals user_amounts,
      build_ledgers example_builtins [record_january; record_february]
        (day 2024 1 15) = Ok (user_intervals, user_amounts)
      ∧ ∀ email ledger,
          dict_lookup email user_amounts = Some ledger →
          ledger ≠ []
          ∧ ∃ merged,
              merge_intervals (fst <$> ledger) = Ok merged
              ∧ (email ∈ ({["a@x.com"]} : gset string)
                 ↔ Exists (long_term_span default_config ledger) merged).
Proof.
  split; [reflexivity|].
  exact (eligible_iff_long_term_span example_builtins default_config
           [record_january; record_february] (day 2024 1 15) {["a@x.com"]}
           eq_refl).
Defined.

(** The two records merge into one span of 41 days worth 35. *)
Example long_term_example :
  build_ledgers example_builtins [record_january; record_february]
    (day 2024 1 15)
  = Ok ([("a@x.com", [(day 2024 1 1, day 2024 1 20);
                      (day 2024 1 10, day 2024 2 10)])],
        [("a@x.com", [(day 2024 1 1, day 2024 1 20, 20%float);
                      (day 2024 1 10, day 2024 2 10, 15%float)])])
  ∧ merge_intervals [(day 2024 1 1, day 2024 1 20);
                     (day 2024 1 10, day 2024 2 10)]
    = Ok [(day 2024 1 1, day 2024 2 10)]
  ∧ span_days (day 2024 1 1, day 2024 2 10) = 41
  ∧ span_total [(day 2024 1 1, day 2024 1 20, 20%float);
                (day 2024 1 10, day 2024 2 10, 15%float)]
      (day 2024 1 1, day 2024 2 10) = 35%float.
Proof. split_and!; reflexivity. Qed.

(** A record that ended before the evaluation date is not in the ledger:
    on 2024-01-15 the ledger holds the second record only, in the one case
    15 days worth 15, in the other 31 days worth 15. *)
Example ended_record_left_out :
  build_ledgers example_builtins [record_first_ten_days; record_until_25th]
    (day 2024 1 15)
  = Ok ([("a@x.com", [(day 2024 1 11, day 2024 1 25)])],
        [("a@x.com", [(day 2024 1 11, day 2024 1 25, 15%float)])])
  ∧ compute_long_term_emails example_builtins default_config
      [record_first_ten_days; record_until_25th] (day 2024 1 15) = Ok ∅
  ∧ build_ledgers example_builtins
      [record_first_ten_days; record_until_february] (day 2024 1 15)
    = Ok ([("a@x.com", [(day 2024 1 11, day 2024 2 10)])],
          [("a@x.com", [(day 2024 1 11, day 2024 2 10, 15%float)])])
  ∧ compute_long_term_emails example_builtins default_config
      [record_first_ten_days; record_until_february] (day 2024 1 15) = Ok ∅.
Proof. split_and!; reflexivity. Qed.

(** Without an end date the interval is the start day alone; an amount
    that is no number excludes the record. *)
Example extraction_examples :
  get_interval_and_amount example_builtins record_single_day
    (day 2024 1 1) (day 2024 1 1)
  = Ok (Some (day 2024 1 1, day 2024 1 1, 5%float))
  ∧ get_interval_and_amount example_builtins record_no_amount
      (day 2024 1 15) (day 2024 1 15)
    = Ok None
  ∧ compute_long_term_emails example_builtins default_config
      [record_no_amount] (day 2024 1 15) = Ok ∅.
Proof. split_and!; reflexivity. Qed.

(** C1: an identity whose merged span meets both thresholds is not always
    in the result. The person has a ledger of two leaves, the span the
    specification merges it into lasts far more than thirty days and is
    worth 45, and yet the run produces no result: [merge_intervals] raises
    [OverflowError] on the end date 9999-12-31 of the first leave, and
    [compute_long_term_emails] catches nothing. With the open-ended leave
    alone the run completes and the person is in the result. *)
Theorem open_ended_leave_aborts_the_run :
  build_ledgers example_builtins [record_open_ended; record_short]
    (day 2024 1 15)
  = Ok ([("a@x.com", [(day 2023 6 1, day 9999 12 31);
                      (day 2024 1 10, day 2024 1 20)])],
        [("a@x.com", [(day 2023 6 1, day 9999 12 31, 40%float);
                      (day 2024 1 10, day 2024 1 20, 5%float)])])
  ∧ merge_reference [(day 2023 6 1, day 9999 12 31);
                     (day 2024 1 10, day 2024 1 20)]
    = [(day 2023 6 1, day 9999 12 31)]
  ∧ long_term_span default_config
      [(day 2023 6 1, day 9999 12 31, 40%float);
       (day 2024 1 10, day 2024 1 20, 5%float)]
      (day 2023 6 1, day 9999 12 31)
  ∧ compute_long_term_emails example_builtins default_config
      [record_open_ended; record_short] (day 2024 1 15)
    = Raise OverflowError
  ∧ compute_long_term_emails example_builtins default_config
      [record_open_ended] (day 2024 1 15)
    = Ok {["a@x.com"]}.
Proof.
  split_and!; [reflexivity..| |reflexivity|reflexivity].
  split; [by vm_compute|reflexivity].
Qed.

Lemma ledger_entries_overlap_today_witness :
  build_ledgers example_builtins [record_january; record_february]
    (day 2024 1 15)
  = Ok ([("a@x.com", [(day 2024 1 1, day 2024 1 20);
                      (day 2024 1 10, day 2024 2 10)])],
        [("a@x.com", [(day 2024 1 1, day 2024 1 20, 20%float);
                      (day 2024 1 10, day 2024 2 10, 15%float)])])
  ∧ Forall (λ x : amount_entry,
              x.1.1 ≤ day 2024 1 15 ≤ x.1.2 ∧ x.1.1 ≤ x.1.2)
      [(day 2024 1 1, day 2024 1 20, 20%float);
       (day 2024 1 10, day 2024 2 10, 15%float)].
Proof.
  split; [reflexivity|].
  exact (proj1 (ledger_entries_overlap_today example_builtins
                  [record_january; record_february] (day 2024 1 15) _ _
                  eq_refl)
           "a@x.com" _ eq_refl).
Defined.

Lemma unparsable_end_date_defaults_to_start_witness :
  parse_date example_builtins (dict_get record_bad_end "end_date") = None
  ∧ get_interval_and_amount example_builtins record_bad_end
      (day 2024 1 15) (day 2024 1 15)
    = get_interval_and_amount example_builtins
        (dict_remove "end_date" record_bad_end)
        (day 2024 1 15) (day 2024 1 15)
  ∧ get_interval_and_amount example_builtins record_bad_end
      (day 2024 1 15) (day 2024 1 15)
    = Ok (Some (day 2024 1 15, day 2024 1 15, 5%float)).
Proof.
  split; [reflexivity|]. split; [|reflexivity].
  exact (proj1 (unparsable_end_date_defaults_to_start example_builtins
                  record_bad_end (day 2024 1 15) (day 2024 1 15) eq_refl)).
Defined.

(** C4: on an integer amount beyond the range of a float the extraction
    neither returns the interval and the amount nor excludes the record:
    [float] raises [OverflowError], which the [except] clause does not
    catch. *)
Theorem huge_amount_raises :
  get_interval_and_amount example_builtins record_huge_amount
    (day 2024 1 15) (day 2024 1 15)
  = Raise OverflowError.
Proof. reflexivity. Qed.

(** ** [fetch_time_offs] *)

Section fetch_facts.
Context (cfg : config).

Lemma page_turn_dict d :
  page_turn cfg (PDict d)
  = if negb (truthy (page_items d)) then PageBreak []
    else
      match py_iter (page_items d) with
      | Raise e => PageRaise e
      | Ok yielded =>
          if has_more (PDict d)
          then PageContinue yielded
                 (py_or (dict_get d "next") (dict_get d "cursor"))
          else PageBreak yielded
      end.
Proof.
  unfold page_turn, has_more. cbn [body_get mbind result_bind].
  fold (page_items d).
  assert (match page_items d with
          | PNone => page_items d
          | _ => page_items d
          end = page_items d) as -> by by destruct (page_items d).
  destruct (truthy (page_items d)); cbn [negb]; [|done].
  destruct (py_iter (page_items d)); [|done].
  by repeat case_match.
Qed.

Lemma page_turn_not_dict body :
  (∀ d, body ≠ PDict d) → page_turn cfg body = PageRaise AttributeError.
Proof. destruct body as [| | | | | |d]; try done. by intros []%(.$ d). Qed.

(** A body that is no JSON object ends the loop with [AttributeError],
    and nothing of it is yielded. *)
Lemma fetch_loop_not_object body responses next_cursor :
  (∀ d, body ≠ PDict d) →
  fetch_loop cfg (Body body :: responses) next_cursor
  = {| requests := [request_of next_cursor];
       yielded_items := [];
       fetch_final := Raised AttributeError |}.
Proof. intros Hbody. cbn [fetch_loop]. by rewrite page_turn_not_dict. Qed.

Lemma page_turn_continue body yielded next_cursor :
  page_turn cfg body = PageContinue yielded next_cursor →
  has_more body = true.
Proof.
  destruct body as [| | | | | |d]; try done.
  rewrite page_turn_dict. by repeat case_match.
Qed.

(** A further request is made only after a page that says there is
    more. *)
Lemma fetch_loop_next_request responses : ∀ next_cursor i req,
  requests (fetch_loop cfg responses next_cursor) !! S i = Some req →
  ∃ body, responses !! i = Some (Body body) ∧ has_more body = true.
Proof.
  induction responses as [|[|body] responses IH]; intros next_cursor i req;
    [done..|].
  cbn [fetch_loop].
  destruct (page_turn cfg body) as [e|yielded|yielded next_cursor'] eqn:Hturn;
    [done..|].
  apply page_turn_continue in Hturn. cbn [requests].
  destruct i as [|i]; [by eauto|].
  rewrite lookup_cons. by intros ?%IH.
Qed.

(** After a JSON object that does not say so, the loop returns: it has
    yielded the items of the page, whatever their number, and asks for
    nothing more. *)
Lemma fetch_loop_last_page d responses next_cursor yielded :
  has_more (PDict d) = false →
  py_iter (page_items d) = Ok yielded →
  fetch_loop cfg (Body (PDict d) :: responses) next_cursor
  = {| requests := [request_of next_cursor];
       yielded_items := if truthy (page_items d) then yielded else [];
       fetch_final := Returned |}.
Proof.
  intros Hmore Hiter. cbn [fetch_loop]. rewrite page_turn_dict, Hiter, Hmore.
  by destruct (truthy (page_items d)).
Qed.

End fetch_facts.

(** A page of exactly the page size without the flags: the loop stops. *)
Example full_page_without_flags :
  fetch_time_offs {| DEEL_PAGE_SIZE := 2; LONG_TERM_MIN_DAYS := 30;
                     LONG_TERM_MIN_AMOUNT := 30%float |}
    [Body (PDict [("data", PList [PDict record_january;
                                  PDict record_february])]);
     Body (PDict [("data", PList [PDict record_short])])]
  = {| requests := [FirstPage];
       yielded_items := [PDict record_january; PDict record_february];
       fetch_final := Returned |}.
Proof. reflexivity. Qed.

(** Two pages chained by a cursor. *)
Example two_pages :
  fetch_time_offs default_config
    [Body (PDict [("data", PList [PDict record_january]);
                  ("has_next_page", PBool true); ("next", PStr "c1")]);
     Body (PDict [("data", PList [PDict record_february]);
                  ("has_next_page", PBool false)])]
  = {| requests := [FirstPage; NextPage (PStr "c1")];
       yielded_items := [PDict record_january; PDict record_february];
       fetch_final := Returned |}.
Proof. reflexivity. Qed.

(** C9: a response that is a bare JSON list holds neither flag, and the
    loop stops on it without yielding its records: [body.get] raises
    [AttributeError] before the [isinstance(body, list)] branch, which
    would take the list as the items, is reached. *)
Theorem bare_list_page_raises :
  fetch_time_offs default_config
    [Body (PList [PDict record_january; PDict record_february])]
  = {| requests := [FirstPage];
       yielded_items := [];
       fetch_final := Raised AttributeError |}.
Proof. reflexivity. Qed.

(** ** [sync_okta_group] *)

(** *** The order of strings *)

Lemma string_compare_trans (a : string) : ∀ b c,
  String.compare a b ≠ Gt → String.compare b c ≠ Gt →
  String.compare a c ≠ Gt.
Proof.
  induction a as [|x a IH]; intros [|y b] [|z c]; simpl; try done.
  unfold Ascii.compare.
  destruct (N.compare_spec (N_of_ascii x) (N_of_ascii y)) as [Hxy|Hxy|Hxy];
    [| |done];
    (destruct (N.compare_spec (N_of_ascii y) (N_of_ascii z)) as [Hyz|Hyz|Hyz];
     [| |done]).
  - rewrite Hxy, Hyz, N.compare_refl. apply IH.
  - intros _ _. rewrite Hxy. by rewrite (proj2 (N.compare_lt_iff _ _) Hyz).
  - intros _ _. rewrite <- Hyz. by rewrite (proj2 (N.compare_lt_iff _ _) Hxy).
  - intros _ _.
    by rewrite (proj2 (N.compare_lt_iff _ _) (N.lt_trans _ _ _ Hxy Hyz)).
Qed.

Lemma str_le_compare a b : str_le a b ↔ String.compare a b ≠ Gt.
Proof. unfold str_le, String.leb. by destruct (String.compare a b). Qed.

#[local] Instance str_le_trans : Transitive str_le.
Proof.
  intros a b c. rewrite !str_le_compare. apply string_compare_trans.
Qed.

#[local] Instance str_le_total : Total str_le.
Proof. intros a b. apply String.leb_total. Qed.

#[local] Instance str_le_antisymm : AntiSymm (=) str_le.
Proof. intros a b. apply String.leb_antisym. Qed.

Lemma py_sorted_set_perm (s : gset string) : py_sorted_set s ≡ₚ elements s.
Proof. apply merge_sort_Permutation. Qed.

Lemma py_sorted_set_sorted (s : gset string) :
  StronglySorted str_le (py_sorted_set s).
Proof. apply (StronglySorted_merge_sort _). Qed.

Lemma py_sorted_set_NoDup (s : gset string) : NoDup (py_sorted_set s).
Proof. rewrite py_sorted_set_perm. apply NoDup_elements. Qed.

Lemma elem_of_py_sorted_set (s : gset string) x : x ∈ py_sorted_set s ↔ x ∈ s.
Proof. by rewrite py_sorted_set_perm, elem_of_elements. Qed.

(** *** The identities a run goes through *)

Lemma add_loop_processed okta emails :
  omap processed_identity (add_loop okta emails).1 `sublist_of` emails.
Proof.
  induction emails as [|email emails IH]; simpl; [done|].
  destruct (okta_lookup_user_id okta email) as [user_id|]; simpl.
  - destruct (truthy user_id); simpl.
    + destruct (okta_put_member okta user_id); simpl.
      * destruct (add_loop okta emails). simpl in *. by apply sublist_skip.
      * apply sublist_skip, sublist_nil_l.
    + destruct (add_loop okta emails). simpl in *. by apply sublist_skip.
  - apply sublist_skip, sublist_nil_l.
Qed.

Lemma remove_loop_processed okta current_members emails :
  omap processed_identity (remove_loop okta current_members emails).1
    `sublist_of` emails.
Proof.
  induction emails as [|email emails IH]; simpl; [done|].
  destruct (truthy (default PNone (current_members !! email))); simpl.
  - destruct (okta_delete_member okta _); simpl.
    + destruct (remove_loop okta current_members emails). simpl in *.
      by apply sublist_skip.
    + apply sublist_skip, sublist_nil_l.
  - by apply sublist_cons.
Qed.

Lemma sync_okta_group_processed okta long_term_emails current_members :
  omap processed_identity
    (sync_okta_group okta long_term_emails current_members).1
  `sublist_of`
    py_sorted_set (reconciliation_plan long_term_emails current_members).1
    ++ py_sorted_set (reconciliation_plan long_term_emails current_members).2.
Proof.
  unfold sync_okta_group.
  destruct (reconciliation_plan _ _) as [to_add to_remove]. simpl.
  pose proof (add_loop_processed okta (py_sorted_set to_add)) as Hadd.
  pose proof (remove_loop_processed okta current_members
                (py_sorted_set to_remove)) as Hremove.
  destruct (add_loop okta _) as [calls [[]|e]]; simpl in *.
  - destruct (remove_loop okta current_members _) as [calls' r]. simpl in *.
    rewrite omap_app. by apply sublist_app.
  - by apply sublist_inserts_r.
Qed.

(** *** The calls a run makes *)

Lemma until_first_failure_app okta calls calls' :
  until_first_failure okta (calls ++ calls')
  = match until_first_failure okta calls with
    | (made, Raise e) => (made, Raise e)
    | (made, Ok _) =>
        let '(made', r) := until_first_failure okta calls' in
        (made ++ made', r)
    end.
Proof.
  induction calls as [|c calls IH]; simpl.
  { by destruct (until_first_failure okta calls'). }
  destruct (call_outcome okta c); [|done].
  rewrite IH. destruct (until_first_failure okta calls) as [made [[]|e]].
  - by destruct (until_first_failure okta calls').
  - done.
Qed.

Lemma until_first_failure_prefix okta calls :
  (until_first_failure okta calls).1 `prefix_of` calls.
Proof.
  induction calls as [|c calls IH]; simpl; [done|].
  destruct (call_outcome okta c).
  - destruct (until_first_failure okta calls). simpl in *.
    by apply prefix_cons.
  - apply prefix_cons, prefix_nil.
Qed.

Lemma until_first_failure_Ok okta calls :
  (until_first_failure okta calls).2 = Ok () →
  (until_first_failure okta calls).1 = calls.
Proof.
  induction calls as [|c calls IH]; simpl; [done|].
  destruct (call_outcome okta c); [|done].
  destruct (until_first_failure okta calls). simpl in *.
  intros ?. f_equal. by apply IH.
Qed.

Lemma add_loop_until_first_failure okta emails :
  add_loop okta emails
  = until_first_failure okta (flat_map (add_calls okta) emails).
Proof.
  induction emails as [|email emails IH]; [done|].
  cbn [flat_map add_loop]. unfold add_calls at 1.
  rewrite <- app_comm_cons. cbn [until_first_failure call_outcome].
  destruct (okta_lookup_user_id okta email) as [user_id|e]; [|done].
  destruct (truthy user_id); cbn [negb app until_first_failure call_outcome].
  - destruct (okta_put_member okta user_id) as [[]|e]; [|done].
    rewrite IH. by destruct (until_first_failure okta _).
  - rewrite IH. by destruct (until_first_failure okta _).
Qed.

Lemma remove_loop_until_first_failure okta current_members emails :
  remove_loop okta current_members emails
  = until_first_failure okta (flat_map (remove_calls current_members) emails).
Proof.
  induction emails as [|email emails IH]; [done|].
  cbn [flat_map remove_loop]. unfold remove_calls at 1.
  destruct (decide (listed_with_id current_members email)) as [Hid|Hid];
    unfold listed_with_id in Hid.
  - rewrite Hid. cbn [negb app until_first_failure call_outcome].
    destruct (okta_delete_member okta _) as [[]|e]; [|done].
    rewrite IH. by destruct (until_first_failure okta _).
  - apply not_true_is_false in Hid. rewrite Hid. by cbn [negb app].
Qed.

Lemma sync_okta_group_until_first_failure okta E M :
  sync_okta_group okta E M = until_first_failure okta (planned_calls okta E M).
Proof.
  unfold sync_okta_group, planned_calls, reconciliation_plan.
  rewrite until_first_failure_app, add_loop_until_first_failure,
    remove_loop_until_first_failure.
  by destruct (until_first_failure okta
                 (flat_map (add_calls okta) _)) as [made [[]|e]].
Qed.

Lemma planned_identities okta E M :
  omap processed_identity (planned_calls okta E M)
  = py_sorted_set (E ∖ dom M)
    ++ filter (listed_with_id M) (py_sorted_set (dom M ∖ E)).
Proof.
  unfold planned_calls. rewrite omap_app. f_equal.
  - induction (py_sorted_set (E ∖ dom M)) as [|email emails IH]; [done|].
    cbn [flat_map]. rewrite omap_app, IH. unfold add_calls.
    destruct (okta_lookup_user_id okta email) as [user_id|e]; [|done].
    by destruct (truthy user_id).
  - induction (py_sorted_set (dom M ∖ E)) as [|email emails IH]; [done|].
    cbn [flat_map]. rewrite omap_app, IH, filter_cons. unfold remove_calls.
    by destruct (decide (listed_with_id M email)).
Qed.

(** C3. The plan is [to_add = E - keys(M)] and [to_remove = keys(M) - E];
    the two are disjoint and [E = (keys(M) - to_remove) | to_add]; and a run
    goes through the identities to add in ascending code-point order, then
    through those to remove in ascending code-point order: the calls it
    makes are the calls of the plan in that order (for every identity to
    add the look-up, and the addition when the look-up gives an
    identifier; for every identity to remove with an identifier in the
    listing the removal), made one after the other until one raises; a
    run that returns has made them all. *)
Theorem reconciliation_plan_partition
    (okta : okta_api) (E : gset string) (M : gmap string pyval) :
  let to_add := (reconciliation_plan E M).1 in
  let to_remove := (reconciliation_plan E M).2 in
  to_add = E ∖ dom M
  ∧ to_remove = dom M ∖ E
  ∧ to_add ## to_remove
  ∧ E = (dom M ∖ to_remove) ∪ to_add
  ∧ (StronglySorted str_le (py_sorted_set to_add)
     ∧ NoDup (py_sorted_set to_add)
     ∧ ∀ x, x ∈ py_sorted_set to_add ↔ x ∈ to_add)
  ∧ (StronglySorted str_le (py_sorted_set to_remove)
     ∧ NoDup (py_sorted_set to_remove)
     ∧ ∀ x, x ∈ py_sorted_set to_remove ↔ x ∈ to_remove)
  ∧ omap processed_identity (sync_okta_group okta E M).1
    `sublist_of` py_sorted_set to_add ++ py_sorted_set to_remove
  ∧ omap processed_identity (planned_calls okta E M)
    = py_sorted_set to_add
      ++ filter (listed_with_id M) (py_sorted_set to_remove)
  ∧ sync_okta_group okta E M
    = until_first_failure okta (planned_calls okta E M)
  ∧ (sync_okta_group okta E M).1 `prefix_of` planned_calls okta E M
  ∧ ((sync_okta_group okta E M).2 = Ok () →
     (sync_okta_group okta E M).1 = planned_calls okta E M).
Proof.
  intros to_add to_remove.
  split_and!; try done.
  - subst to_add to_remove. unfold reconciliation_plan. simpl. set_solver.
  - subst to_add to_remove. unfold reconciliation_plan. simpl.
    apply set_eq. intros x.
    destruct (decide (x ∈ dom M)), (decide (x ∈ E)); set_solver.
  - apply py_sorted_set_sorted.
  - apply py_sorted_set_NoDup.
  - apply elem_of_py_sorted_set.
  - apply py_sorted_set_sorted.
  - apply py_sorted_set_NoDup.
  - apply elem_of_py_sorted_set.
  - apply sync_okta_group_processed.
  - apply planned_identities.
  - apply sync_okta_group_until_first_failure.
  - rewrite sync_okta_group_until_first_failure.
    apply until_first_failure_prefix.
  - rewrite sync_okta_group_until_first_failure.
    apply until_first_failure_Ok.
Qed.

Lemma py_sorted_set_empty : py_sorted_set ∅ = [].
Proof. unfold py_sorted_set. by rewrite elements_empty. Qed.

(** C7. Once the plan of a first run is carried out, so that the group's
    identities are [(keys(M) - to_remove) | to_add], a second run with the
    same eligible set has nothing to add and nothing to remove, and makes
    no call. *)
Theorem second_run_plan_is_empty
    (okta : okta_api) (E : gset string) (M M' : gmap string pyval) :
  dom M' = (dom M ∖ (reconciliation_plan E M).2) ∪ (reconciliation_plan E M).1 →
  reconciliation_plan E M' = (∅, ∅)
  ∧ sync_okta_group okta E M' = ([], Ok ()).
Proof.
  intros HM'.
  assert (reconciliation_plan E M' = (∅, ∅)) as Hplan.
  { revert HM'. unfold reconciliation_plan. simpl. intros ->.
    f_equal; apply set_eq; intros x;
      destruct (decide (x ∈ dom M)), (decide (x ∈ E)); set_solver. }
  split; [done|].
  unfold sync_okta_group. rewrite Hplan, py_sorted_set_empty. done.
Qed.

(** The group holds [a] and [b], and [b] and [c] are eligible: [c] is
    added and [a] removed. *)
Example plan_example :
  reconciliation_plan {["b"; "c"]}
    {["a" := PStr "00ua"; "b" := PStr "00ub"]}
  = ({["c"]}, {["a"]}).
Proof. reflexivity. Qed.

Example run_example :
  sync_okta_group example_okta {["b"; "c"]}
    {["a" := PStr "00ua"; "b" := PStr "00ub"]}
  = ([LookupUser "c"; PutMember "c" (PStr "00uc");
      DeleteMember "a" (PStr "00ua")], Ok ()).
Proof. reflexivity. Qed.

(** The calls of that plan: [c] is looked up and added, then [a] is
    removed. *)
Example planned_calls_example :
  planned_calls example_okta {["b"; "c"]}
    {["a" := PStr "00ua"; "b" := PStr "00ub"]}
  = [LookupUser "c"; PutMember "c" (PStr "00uc");
     DeleteMember "a" (PStr "00ua")].
Proof. reflexivity. Qed.

(** Two identities to add and two to remove are taken in ascending order,
    whatever the order they were put in; the directory does not know [a],
    which is looked up and not added. *)
Example planned_calls_order_example :
  planned_calls example_okta {["c"; "a"]}
    {["z" := PStr "00uz"; "y" := PStr "00uy"]}
  = [LookupUser "a"; LookupUser "c"; PutMember "c" (PStr "00uc");
     DeleteMember "y" (PStr "00uy"); DeleteMember "z" (PStr "00uz")]
  ∧ sync_okta_group example_okta {["c"; "a"]}
      {["z" := PStr "00uz"; "y" := PStr "00uy"]}
    = (planned_calls example_okta {["c"; "a"]}
         {["z" := PStr "00uz"; "y" := PStr "00uy"]}, Ok ()).
Proof. split; reflexivity. Qed.

(** An identity the directory does not know is skipped, and the run goes
    on to the removals. *)
Example lookup_miss_example :
  sync_okta_group empty_okta {["b"; "c"]}
    {["a" := PStr "00ua"; "b" := PStr "00ub"]}
  = ([LookupUser "c"; DeleteMember "a" (PStr "00ua")], Ok ()).
Proof. reflexivity. Qed.

Lemma second_run_plan_is_empty_witness :
  dom ({["b" := PStr "00ub"; "c" := PStr "00uc"]} : gmap string pyval)
  = (dom ({["a" := PStr "00ua"; "b" := PStr "00ub"]} : gmap string pyval)
       ∖ (reconciliation_plan {["b"; "c"]}
            {["a" := PStr "00ua"; "b" := PStr "00ub"]}).2)
    ∪ (reconciliation_plan {["b"; "c"]}
         {["a" := PStr "00ua"; "b" := PStr "00ub"]}).1
  ∧ reconciliation_plan {["b"; "c"]}
      {["b" := PStr "00ub"; "c" := PStr "00uc"]}
    = (∅, ∅)
  ∧ sync_okta_group example_okta {["b"; "c"]}
      {["b" := PStr "00ub"; "c" := PStr "00uc"]}
    = ([], Ok ()).
Proof.
  split; [reflexivity|].
  exact (second_run_plan_is_empty example_okta {["b"; "c"]}
           {["a" := PStr "00ua"; "b" := PStr "00ub"]}
           {["b" := PStr "00ub"; "c" := PStr "00uc"]} eq_refl).
Defined.

(** * Further properties *)

(** ** [merge_intervals]: when it raises *)

Lemma merge_loop_raises_iff rest : ∀ merged cs ce,
  date_min ≤ ce →
  Forall (λ iv : interval, date_min ≤ iv.2) rest →
  for_loop merge_loop_body rest (merged, cs, ce) = Raise OverflowError
  ↔ overflows_before_last (ce :: rest.*2) = true.
Proof.
  induction rest as [|[s e] rest IH]; intros merged cs ce Hce Hrest.
  - done.
  - apply Forall_cons in Hrest as [He Hrest]. simpl in He.
    cbn [for_loop]. rewrite fmap_cons. cbn [snd].
    change (overflows_before_last (ce :: e :: rest.*2))
      with ((date_max <=? ce) || overflows_before_last (e :: rest.*2)).
    destruct (Z.leb_spec date_max ce) as [Hmax|Hmax].
    + unfold merge_loop_body at 1. by rewrite date_add_days_max.
    + rewrite merge_loop_body_before_max by done. cbn [orb].
      destruct (s <=? ce + 1).
      * rewrite IH by (done || lia).
        destruct rest as [|[s' e'] rest]; [done|]. csimpl.
        change (overflows_before_last (?x :: e' :: ?r))
          with ((date_max <=? x) || overflows_before_last (e' :: r)).
        by replace (date_max <=? ce `max` e) with (date_max <=? e)
          by (destruct (Z.leb_spec date_max e),
                (Z.leb_spec date_max (ce `max` e)); lia).
      * by rewrite IH.
Qed.

(** X1. For dates that are dates, [merge_intervals] raises exactly when an
    interval that another one follows in start order ends on the last
    representable date; it raises nothing but [OverflowError], and otherwise
    returns the sweep of the sorted list. *)
Theorem merge_intervals_raises_iff (l : list interval) :
  Forall valid_interval l →
  (merge_intervals l = Raise OverflowError
   ↔ ∃ l1 iv l2, py_sorted fst l = l1 ++ iv :: l2
                 ∧ l2 ≠ [] ∧ iv.2 = date_max)
  ∧ (∀ e, merge_intervals l = Raise e → e = OverflowError)
  ∧ (∀ r, merge_intervals l = Ok r → r = merge_reference l).
Proof.
  intros Hvalid. split; [|split; [apply merge_intervals_raises
                                 |apply merge_intervals_Ok]].
  assert (Forall valid_interval (py_sorted fst l)) as Hsorted
    by by rewrite py_sorted_perm.
  assert (∀ k : list interval, Forall valid_interval k →
            overflows_before_last k.*2 = true
            ↔ ∃ l1 iv l2, k = l1 ++ iv :: l2 ∧ l2 ≠ [] ∧ iv.2 = date_max)
    as Hsplit.
  { clear. induction k as [|[s e] k IH]; intros Hk.
    - split; [done|]. by intros ([|??] & ? & ? & ? & _).
    - apply Forall_cons in Hk as [[_ [_ He]] Hk]. simpl in He.
      destruct k as [|iv' k].
      + split; [done|]. intros ([|? [|??]] & ? & ? & ? & ? & _);
          by simplify_eq/=.
      + csimpl in *.
        change (overflows_before_last (e :: iv'.2 :: k.*2))
          with ((date_max <=? e) || overflows_before_last (iv'.2 :: k.*2)).
        rewrite orb_true_iff, IH by done. split.
        * intros [?%Z.leb_le|(l1 & iv & l2 & -> & ? & ?)].
          -- exists [], (s, e), (iv' :: k). split_and!; [done..|]. simpl. lia.
          -- by exists ((s, e) :: l1), iv, l2.
        * intros ([|? l1] & iv & l2 & Heq & ? & Hiv); simplify_eq/=.
          -- left. apply Z.leb_le. lia.
          -- right. by exists l1, iv, l2. }
  rewrite <- Hsplit by done.
  unfold merge_intervals. destruct l as [|iv0 l]; [done|].
  destruct (py_sorted fst (iv0 :: l)) as [|[cs ce] rest] eqn:Hsort.
  { by apply py_sorted_nil_inv in Hsort. }
  apply Forall_cons in Hsorted as [[_ [Hce _]] Hrest]. simpl in Hce.
  rewrite <- (merge_loop_raises_iff rest [] cs ce); [|done|].
  2:{ eapply Forall_impl; [exact Hrest|]. by intros ? [_ [? _]]. }
  destruct (for_loop _ _ _) as [[[m cs'] ce']|e] eqn:Hloop; [done|].
  apply merge_loop_raises in Hloop as ->. done.
Qed.

(** ** [merge_intervals]: the spans and the intervals they come from *)

Lemma sweep_head_end rest : ∀ cs ce,
  ∃ ce' tl, sweep cs ce rest = (cs, ce') :: tl ∧ ce ≤ ce'.
Proof.
  induction rest as [|[s e] rest IH]; intros cs ce; simpl.
  - exists ce, []. split; [done|lia].
  - destruct (s <=? ce + 1).
    + destruct (IH cs (ce `max` e)) as (ce' & tl & -> & ?).
      exists ce', tl. split; [done|lia].
    + exists ce, (sweep s e rest). split; [done|lia].
Qed.

(** Every interval lies within one span. *)
Lemma sweep_contains rest : ∀ cs ce (iv : interval),
  StronglySorted (key_le fst) ((cs, ce) :: rest) →
  iv ∈ (cs, ce) :: rest →
  ∃ span : interval, span ∈ sweep cs ce rest ∧ span.1 ≤ iv.1 ∧ iv.2 ≤ span.2.
Proof.
  induction rest as [|[s e] rest IH]; intros cs ce iv Hsorted Hin.
  - apply list_elem_of_singleton in Hin as ->.
    exists (cs, ce). simpl. split; [left|lia].
  - apply StronglySorted_inv in Hsorted as [Hrest Hcs].
    pose proof Hcs as [Hcs_s Hcs_rest]%Forall_cons.
    unfold key_le in Hcs_s. simpl in Hcs_s.
    rewrite sweep_cons. destruct (s <=? ce + 1).
    + assert (StronglySorted (key_le fst) ((cs, ce `max` e) :: rest)) as Hs'.
      { constructor; [by eapply StronglySorted_inv|done]. }
      destruct (sweep_head_end rest cs (ce `max` e)) as (ce' & tl & Heq & ?).
      apply elem_of_cons in Hin as [->|[->|Hin]%elem_of_cons].
      * exists (cs, ce'). rewrite Heq. simpl. split; [left|lia].
      * exists (cs, ce'). rewrite Heq. simpl. split; [left|lia].
      * apply IH; [done|by right].
    + apply elem_of_cons in Hin as [->|Hin].
      * exists (cs, ce). simpl. split; [left|lia].
      * destruct (IH s e iv Hrest Hin) as (span & ? & ?).
        exists span. split; [by right|done].
Qed.

(** Every day of a span is a day of an interval. *)
Lemma sweep_days (P : Z → Prop) rest : ∀ cs ce,
  (∀ d, cs ≤ d ≤ ce → P d) →
  Forall (λ iv : interval, ∀ d, iv.1 ≤ d ≤ iv.2 → P d) rest →
  ∀ (span : interval) d,
    span ∈ sweep cs ce rest → span.1 ≤ d ≤ span.2 → P d.
Proof.
  induction rest as [|[s e] rest IH]; intros cs ce Hcur Hrest span d.
  - intros ->%list_elem_of_singleton. apply Hcur.
  - apply Forall_cons in Hrest as [Hse Hrest]. simpl in Hse.
    rewrite sweep_cons. destruct (Z.leb_spec s (ce + 1)).
    + apply IH; [|done]. intros d' Hd'.
      destruct (decide (d' ≤ ce)); [apply Hcur|apply Hse]; lia.
    + intros [->|Hin]%elem_of_cons; [apply Hcur|]. by eapply IH.
Qed.

(** The span's ends are ends of intervals. *)
Lemma sweep_endpoints (S E : Z → Prop) rest : ∀ cs ce,
  S cs → E ce →
  Forall (λ iv : interval, S iv.1 ∧ E iv.2) rest →
  Forall (λ span : interval, S span.1 ∧ E span.2) (sweep cs ce rest).
Proof.
  induction rest as [|[s e] rest IH]; intros cs ce Hcs Hce Hrest.
  - by repeat constructor.
  - apply Forall_cons in Hrest as [[Hs He] Hrest]. simpl in Hs, He.
    rewrite sweep_cons. destruct (s <=? ce + 1).
    + apply IH; [done| |done].
      by destruct (Z.max_spec ce e) as [[_ ->]|[_ ->]].
    + constructor; [done|]. by apply IH.
Qed.

Lemma sweep_length rest : ∀ cs ce,
  (length (sweep cs ce rest) ≤ S (length rest))%nat.
Proof.
  induction rest as [|[s e] rest IH]; intros cs ce; simpl; [done|].
  destruct (s <=? ce + 1).
  - etrans; [apply IH|]. lia.
  - simpl. apply le_n_S, IH.
Qed.

Lemma merge_reference_sweep (l : list interval) :
  l = [] ∧ merge_reference l = []
  ∨ ∃ cs ce rest,
      py_sorted fst l = (cs, ce) :: rest
      ∧ merge_reference l = sweep cs ce rest.
Proof.
  unfold merge_reference.
  destruct (py_sorted fst l) as [|[cs ce] rest] eqn:Hsort.
  - left. by apply py_sorted_nil_inv in Hsort.
  - right. by exists cs, ce, rest.
Qed.

(** X2. Merging keeps the days: every interval lies within a single span of
    the result, and every day of a span is a day of one of the intervals. So a
    day is on leave after the merge exactly when it was before. *)
Theorem merge_intervals_same_days (l r : list interval) :
  merge_intervals l = Ok r →
  (∀ iv : interval, iv ∈ l →
     ∃ span : interval, span ∈ r ∧ span.1 ≤ iv.1 ∧ iv.2 ≤ span.2)
  ∧ (∀ d : date,
       (∃ span : interval, span ∈ r ∧ span.1 ≤ d ≤ span.2)
       ↔ (∃ iv : interval, iv ∈ l ∧ iv.1 ≤ d ≤ iv.2)).
Proof.
  intros ->%merge_intervals_Ok.
  assert (∀ iv : interval, iv ∈ l →
    ∃ span : interval,
      span ∈ merge_reference l ∧ span.1 ≤ iv.1 ∧ iv.2 ≤ span.2) as Hin.
  { intros iv Hiv.
    destruct (merge_reference_sweep l) as [[-> _]|(cs & ce & rest & Hs & ->)].
    { by apply elem_of_nil in Hiv. }
    apply sweep_contains.
    - rewrite <- Hs. apply py_sorted_sorted.
    - by rewrite <- Hs, py_sorted_perm. }
  split; [done|]. intros d. split.
  - intros (span & Hspan & Hd).
    destruct (merge_reference_sweep l) as [[_ Hr]|(cs & ce & rest & Hs & Hr)];
      rewrite Hr in Hspan.
    { by apply elem_of_nil in Hspan. }
    assert (∀ iv : interval, iv ∈ (cs, ce) :: rest → iv ∈ l) as Hl.
    { intros iv. by rewrite <- Hs, py_sorted_perm. }
    eapply (sweep_days (λ d, ∃ iv : interval, iv ∈ l ∧ iv.1 ≤ d ≤ iv.2));
      [| |exact Hspan|exact Hd].
    + intros d' Hd'. exists (cs, ce). split; [apply Hl; left|done].
    + apply Forall_forall. intros iv Hiv d' Hd'.
      exists iv. split; [apply Hl; by right|done].
  - intros (iv & Hiv & Hd). destruct (Hin iv Hiv) as (span & ? & ?).
    exists span. split; [done|lia].
Qed.

Lemma merge_intervals_same_days_witness :
  merge_intervals
    [(day 2024 1 12, day 2024 1 25); (day 2024 1 1, day 2024 1 10);
     (day 2024 1 11, day 2024 1 11); (day 2024 3 1, day 2024 3 5)]
  = Ok [(day 2024 1 1, day 2024 1 25); (day 2024 3 1, day 2024 3 5)]
  ∧ (∃ span : interval,
       span ∈ [(day 2024 1 1, day 2024 1 25); (day 2024 3 1, day 2024 3 5)]
       ∧ span.1 ≤ day 2024 1 11 ∧ day 2024 1 11 ≤ span.2).
Proof.
  assert (merge_intervals
    [(day 2024 1 12, day 2024 1 25); (day 2024 1 1, day 2024 1 10);
     (day 2024 1 11, day 2024 1 11); (day 2024 3 1, day 2024 3 5)]
    = Ok [(day 2024 1 1, day 2024 1 25); (day 2024 3 1, day 2024 3 5)]) as H
    by reflexivity.
  split; [done|].
  apply (proj1 (merge_intervals_same_days _ _ H)
           (day 2024 1 11, day 2024 1 11)).
  compute_done.
Defined.

(** X3. Merging invents no date: every span starts where one of the intervals
    starts and ends where one of the intervals ends; there are no more spans
    than intervals, and there is a span as soon as there is an interval. *)
Theorem merge_intervals_endpoints (l r : list interval) :
  merge_intervals l = Ok r →
  Forall (λ span : interval,
            (∃ iv : interval, iv ∈ l ∧ iv.1 = span.1)
            ∧ (∃ iv : interval, iv ∈ l ∧ iv.2 = span.2)) r
  ∧ (length r ≤ length l)%nat
  ∧ (r = [] ↔ l = []).
Proof.
  intros ->%merge_intervals_Ok.
  destruct (merge_reference_sweep l) as [[-> ->]|(cs & ce & rest & Hs & ->)].
  { by repeat split. }
  assert (∀ iv : interval, iv ∈ (cs, ce) :: rest → iv ∈ l) as Hl.
  { intros iv. by rewrite <- Hs, py_sorted_perm. }
  split_and!.
  - apply (sweep_endpoints
             (λ d, ∃ iv : interval, iv ∈ l ∧ iv.1 = d)
             (λ d, ∃ iv : interval, iv ∈ l ∧ iv.2 = d)).
    + exists (cs, ce). split; [apply Hl; left|done].
    + exists (cs, ce). split; [apply Hl; left|done].
    + apply Forall_forall. intros iv Hiv.
      split; exists iv; (split; [apply Hl; by right|done]).
  - etrans; [apply sweep_length|].
    by rewrite <- (length_cons (cs, ce)), <- Hs, py_sorted_perm.
  - destruct (sweep_head rest cs ce) as (ce' & tl & ->).
    split; [done|]. intros ->. done.
Qed.

Lemma merge_intervals_endpoints_witness :
  merge_intervals
    [(day 2024 1 12, day 2024 1 25); (day 2024 1 1, day 2024 1 10);
     (day 2024 1 11, day 2024 1 11); (day 2024 3 1, day 2024 3 5)]
  = Ok [(day 2024 1 1, day 2024 1 25); (day 2024 3 1, day 2024 3 5)]
  ∧ (length [(day 2024 1 1, day 2024 1 25); (day 2024 3 1, day 2024 3 5)]
     ≤ length
         [(day 2024 1 12, day 2024 1 25); (day 2024 1 1, day 2024 1 10);
          (day 2024 1 11, day 2024 1 11); (day 2024 3 1, day 2024 3 5)])%nat.
Proof.
  assert (merge_intervals
    [(day 2024 1 12, day 2024 1 25); (day 2024 1 1, day 2024 1 10);
     (day 2024 1 11, day 2024 1 11); (day 2024 3 1, day 2024 3 5)]
    = Ok [(day 2024 1 1, day 2024 1 25); (day 2024 3 1, day 2024 3 5)]) as H
    by reflexivity.
  split; [done|].
  exact (proj1 (proj2 (merge_intervals_endpoints _ _ H))).
Defined.

Lemma merge_intervals_raises_iff_witness :
  Forall valid_interval
    [(day 2024 1 2, day 2024 1 5); (day 2024 1 1, day 9999 12 31)]
  ∧ merge_intervals
      [(day 2024 1 2, day 2024 1 5); (day 2024 1 1, day 9999 12 31)]
    = Raise OverflowError.
Proof.
  assert (Forall valid_interval
    [(day 2024 1 2, day 2024 1 5); (day 2024 1 1, day 9999 12 31)]) as H
    by compute_done.
  split; [done|].
  apply (proj1 (merge_intervals_raises_iff _ H)).
  by exists [], (day 2024 1 1, day 9999 12 31), [(day 2024 1 2, day 2024 1 5)].
Defined.

(** ** [merge_intervals]: intervals that share a day *)

Lemma greatest_end_max (a b : Z) (l : list interval) :
  foldr (λ (x : interval) acc, x.2 `max` acc) (a `max` b) l
  = b `max` foldr (λ (x : interval) acc, x.2 `max` acc) a l.
Proof. induction l as [|x l IH]; simpl; [lia|]. rewrite IH. lia. Qed.

Lemma sweep_common_day (d : date) rest : ∀ cs ce,
  d ≤ ce →
  Forall (λ x : interval, x.1 ≤ d ≤ x.2) rest →
  sweep cs ce rest = [(cs, greatest_end (cs, ce) rest)].
Proof.
  unfold greatest_end.
  induction rest as [|[s e] rest IH]; intros cs ce Hce Hrest; [done|].
  apply Forall_cons in Hrest as [Hse Hrest]. simpl in Hse.
  rewrite sweep_cons. destruct (Z.leb_spec s (ce + 1)); [|lia].
  rewrite IH by (done || lia). cbn [foldr fst snd].
  by rewrite greatest_end_max.
Qed.

Lemma least_start_spec (iv : interval) (l : list interval) :
  (∃ x : interval, x ∈ iv :: l ∧ x.1 = least_start iv l)
  ∧ Forall (λ x : interval, least_start iv l ≤ x.1) (iv :: l).
Proof.
  unfold least_start. induction l as [|y l [(x & Hx & Hmin) Hle]]; simpl.
  - split; [exists iv; split; [left|done]|]. repeat constructor. lia.
  - apply Forall_cons in Hle as [Hiv Hle]. split.
    + destruct (Z.min_spec y.1 (foldr (λ x acc, x.1 `min` acc) iv.1 l))
        as [[_ ->]|[_ ->]].
      * exists y. split; [set_solver|done].
      * exists x. split; [set_solver|done].
    + repeat constructor; [lia..|].
      eapply Forall_impl; [exact Hle|]. simpl. lia.
Qed.

Lemma greatest_end_spec (iv : interval) (l : list interval) :
  (∃ x : interval, x ∈ iv :: l ∧ x.2 = greatest_end iv l)
  ∧ Forall (λ x : interval, x.2 ≤ greatest_end iv l) (iv :: l).
Proof.
  unfold greatest_end. induction l as [|y l [(x & Hx & Hmax) Hle]]; simpl.
  - split; [exists iv; split; [left|done]|]. repeat constructor. lia.
  - apply Forall_cons in Hle as [Hiv Hle]. split.
    + destruct (Z.max_spec y.2 (foldr (λ x acc, x.2 `max` acc) iv.2 l))
        as [[_ ->]|[_ ->]].
      * exists x. split; [set_solver|done].
      * exists y. split; [set_solver|done].
    + repeat constructor; [lia..|].
      eapply Forall_impl; [exact Hle|]. simpl. lia.
Qed.

(** The least start and the greatest end do not depend on the order. *)
Lemma least_start_perm (iv iv' : interval) (l l' : list interval) :
  iv :: l ≡ₚ iv' :: l' → least_start iv l = least_start iv' l'.
Proof.
  intros Hperm.
  destruct (least_start_spec iv l) as [(x & Hx & Hxeq) Hle].
  destruct (least_start_spec iv' l') as [(x' & Hx' & Hxeq') Hle'].
  rewrite Hperm in Hx. rewrite <- Hperm in Hx'.
  rewrite Forall_forall in Hle, Hle'.
  specialize (Hle x' Hx'). specialize (Hle' x Hx). lia.
Qed.

Lemma greatest_end_perm (iv iv' : interval) (l l' : list interval) :
  iv :: l ≡ₚ iv' :: l' → greatest_end iv l = greatest_end iv' l'.
Proof.
  intros Hperm.
  destruct (greatest_end_spec iv l) as [(x & Hx & Hxeq) Hle].
  destruct (greatest_end_spec iv' l') as [(x' & Hx' & Hxeq') Hle'].
  rewrite Hperm in Hx. rewrite <- Hperm in Hx'.
  rewrite Forall_forall in Hle, Hle'.
  specialize (Hle x' Hx'). specialize (Hle' x Hx). lia.
Qed.

(** Intervals that have a day in common sweep to one span, from the least
    start to the greatest end. *)
Lemma merge_reference_common_day (d : date) (iv : interval) l :
  Forall (λ x : interval, x.1 ≤ d ≤ x.2) (iv :: l) →
  merge_reference (iv :: l) = [(least_start iv l, greatest_end iv l)].
Proof.
  intros Hd.
  destruct (merge_reference_sweep (iv :: l))
    as [[? _]|(cs & ce & rest & Hs & ->)]; [done|].
  assert ((cs, ce) :: rest ≡ₚ iv :: l) as Hperm
    by by rewrite <- Hs, py_sorted_perm.
  assert (cs = least_start (cs, ce) rest) as Hcs_min.
  { destruct (least_start_spec (cs, ce) rest)
      as [(x & Hx & Hxeq) [Hle _]%Forall_cons].
    simpl in Hle.
    pose proof (py_sorted_sorted fst (iv :: l)) as Hsorted.
    rewrite Hs in Hsorted. apply StronglySorted_inv in Hsorted as [_ Hmin].
    apply elem_of_cons in Hx as [->|Hx]; [done|].
    rewrite Forall_forall in Hmin. specialize (Hmin x Hx).
    unfold key_le in Hmin. simpl in Hmin. lia. }
  rewrite <- Hperm in Hd. apply Forall_cons in Hd as [Hcs Hd].
  rewrite (sweep_common_day d) by (done || simpl in Hcs; lia).
  rewrite <- (greatest_end_perm _ _ _ _ Hperm).
  rewrite <- (least_start_perm _ _ _ _ Hperm).
  by rewrite <- Hcs_min.
Qed.

(** X4. Leaves that all cover one same day merge into a single span, from the
    earliest start to the latest end: that is what [merge_intervals] returns
    whenever it returns, and it returns when no leave ends on the last
    representable date. *)
Theorem merge_intervals_common_day (d : date) (iv : interval)
    (l : list interval) :
  Forall (λ x : interval, x.1 ≤ d ≤ x.2) (iv :: l) →
  (∀ r, merge_intervals (iv :: l) = Ok r →
        r = [(least_start iv l, greatest_end iv l)])
  ∧ (Forall (λ x : interval, before_date_max x.2) (iv :: l) →
     merge_intervals (iv :: l)
     = Ok [(least_start iv l, greatest_end iv l)]).
Proof.
  intros Hd. split.
  - intros r ->%merge_intervals_Ok. by eapply merge_reference_common_day.
  - intros Hends. rewrite merge_intervals_reference by done.
    f_equal. by eapply merge_reference_common_day.
Qed.

Lemma merge_intervals_common_day_witness :
  Forall (λ x : interval, x.1 ≤ day 2024 1 15 ≤ x.2)
    [(day 2024 1 10, day 2024 2 10); (day 2024 1 1, day 2024 1 20);
     (day 2024 1 15, day 2024 1 15)]
  ∧ merge_intervals
      [(day 2024 1 10, day 2024 2 10); (day 2024 1 1, day 2024 1 20);
       (day 2024 1 15, day 2024 1 15)]
    = Ok [(day 2024 1 1, day 2024 2 10)].
Proof.
  assert (Forall (λ x : interval, x.1 ≤ day 2024 1 15 ≤ x.2)
    [(day 2024 1 10, day 2024 2 10); (day 2024 1 1, day 2024 1 20);
     (day 2024 1 15, day 2024 1 15)]) as H by compute_done.
  split; [done|].
  apply (proj2 (merge_intervals_common_day _ _ _ H)). compute_done.
Defined.

(** ** [merge_intervals]: merging a second time *)

(** The spans of a run of the loop that returned go through the loop
    unchanged. *)
Lemma merge_loop_again rest : ∀ merged cs ce st,
  for_loop merge_loop_body rest (merged, cs, ce) = Ok st →
  ∃ ce' tl,
    sweep cs ce rest = (cs, ce') :: tl
    ∧ ∀ merged0, ∃ merged' cs' ce'',
        for_loop merge_loop_body tl (merged0, cs, ce') = Ok (merged', cs', ce'')
        ∧ merged' ++ [(cs', ce'')] = merged0 ++ (cs, ce') :: tl.
Proof.
  induction rest as [|[s e] rest IH]; intros merged cs ce st.
  - intros _. exists ce, []. split; [done|]. intros m0. by exists m0, cs, ce.
  - cbn [for_loop]. rewrite sweep_cons.
    destruct (merge_loop_body _ _) as [st'|] eqn:Hbody; [|done].
    pose proof Hbody as ->%merge_loop_body_Ok.
    destruct (Z.leb_spec s (ce + 1)) as [Hle|Hgt]; intros Hloop.
    + by apply IH in Hloop.
    + apply IH in Hloop as (ce' & tl & -> & Hagain).
      exists ce, ((s, ce') :: tl). split; [done|]. intros m0.
      destruct (Hagain (m0 ++ [(cs, ce)])) as (m' & cs' & ce'' & Hrun & Heq).
      exists m', cs', ce''. split; [|by rewrite Heq, <- app_assoc].
      cbn [for_loop].
      replace (merge_loop_body (m0, cs, ce) (s, ce'))
        with (Ok (A:=list (Z * Z) * Z * Z) (m0 ++ [(cs, ce)], s, ce')); [done|].
      unfold merge_loop_body in Hbody |- *.
      destruct (date_add_days ce 1) as [lim|] eqn:Hadd; [|done].
      apply date_add_days_Ok in Hadd as ->. cbn [mbind result_bind].
      by destruct (Z.leb_spec s (ce + 1)); [lia|].
Qed.

(** X5. Merging is idempotent on its own results: whatever [merge_intervals]
    returns, merging that again returns it unchanged. *)
Theorem merge_intervals_again (l r : list interval) :
  merge_intervals l = Ok r → merge_intervals r = Ok r.
Proof.
  intros Hl. pose proof Hl as ->%merge_intervals_Ok.
  pose proof (merge_reference_sorted l) as Hsorted.
  unfold merge_intervals in Hl |- *.
  rewrite (py_sorted_id fst (merge_reference l)) by exact Hsorted.
  destruct l as [|iv l]; [done|]. unfold merge_reference in *.
  destruct (py_sorted fst (iv :: l)) as [|[cs ce] rest]; [done|].
  destruct (for_loop _ _ _) as [st|] eqn:Hloop; [|done].
  apply merge_loop_again in Hloop as (ce' & tl & -> & Hagain).
  destruct (Hagain []) as (m' & cs' & ce'' & -> & Heq).
  cbn. by rewrite Heq.
Qed.

Lemma merge_intervals_again_witness :
  merge_intervals
    [(day 2024 1 12, day 2024 1 25); (day 2024 1 1, day 2024 1 10);
     (day 2024 1 11, day 2024 1 11); (day 2024 3 1, day 9999 12 31)]
  = Ok [(day 2024 1 1, day 2024 1 25); (day 2024 3 1, day 9999 12 31)]
  ∧ merge_intervals
      [(day 2024 1 1, day 2024 1 25); (day 2024 3 1, day 9999 12 31)]
    = Ok [(day 2024 1 1, day 2024 1 25); (day 2024 3 1, day 9999 12 31)].
Proof.
  assert (merge_intervals
    [(day 2024 1 12, day 2024 1 25); (day 2024 1 1, day 2024 1 10);
     (day 2024 1 11, day 2024 1 11); (day 2024 3 1, day 9999 12 31)]
    = Ok [(day 2024 1 1, day 2024 1 25); (day 2024 3 1, day 9999 12 31)]) as H
    by reflexivity.
  split; [done|]. exact (merge_intervals_again _ _ H).
Defined.

(** ** [compute_long_term_emails]: the whole ledger decides *)

Section whole_ledger_facts.
Context (py : builtins) (cfg : config).

Lemma for_loop_app {S X : Type} (body : S → X → result S) items1 items2 st :
  for_loop body (items1 ++ items2) st
  = st' ← for_loop body items1 st; for_loop body items2 st'.
Proof.
  revert st. induction items1 as [|x items1 IH]; intros st; [done|].
  cbn [app for_loop]. by destruct (body st x).
Qed.

(** The ledger of an identity holds its retained records, in order. *)
Lemma ledger_loop_retained today entries : ∀ (st st' : ledgers) email,
  for_loop (ledger_loop_body py today) entries st = Ok st' →
  default [] (dict_lookup email st'.2)
  = default [] (dict_lookup email st.2)
    ++ (if decide (email = "") then []
        else retained_records py today email entries).
Proof.
  induction entries as [|entry entries IH]; intros st st' email.
  - simpl. intros [= <-]. case_decide; by rewrite app_nil_r.
  - cbn [for_loop].
    destruct (ledger_loop_body py today st entry) as [st1|] eqn:Hbody; [|done].
    intros Hloop. rewrite (IH _ _ email Hloop). clear IH Hloop.
    unfold retained_records. cbn [omap list_omap].
    destruct st as [ui ua]. unfold ledger_loop_body in Hbody. cbn [snd].
    destruct (extract_email py entry) as [email0|] eqn:Hemail.
    2:{ simplify_eq. rewrite (decide_False (P:=None = Some email)) by done.
        done. }
    destruct (String.eqb_spec email0 "") as [->|Hne0].
    { simplify_eq. case_decide as Hne; [done|].
      rewrite (decide_False (P:=Some "" = Some email)) by congruence. done. }
    destruct (decide (email0 = email)) as [->|Hne].
    + rewrite (decide_True (P:=Some email = Some email)) by done.
      destruct (get_interval_and_amount py entry today today)
        as [[[[start end_] amount_val]|]|]; cbn in Hbody; simplify_eq;
        repeat case_decide; try done.
      cbn [snd]. rewrite setdefault_append_lookup. cbn [default id].
      by rewrite <- app_assoc.
    + rewrite (decide_False (P:=Some email0 = Some email)) by congruence.
      destruct (get_interval_and_amount py entry today today)
        as [[[[start end_] amount_val]|]|]; cbn in Hbody; simplify_eq;
        repeat case_decide; try done.
      all: cbn [snd]; by rewrite setdefault_append_lookup_ne.
Qed.

Lemma span_total_all (ledger : list amount_entry) (span : interval) :
  Forall (intersects span) ledger →
  span_total ledger span = sum_amounts (snd <$> ledger).
Proof.
  intros Hall. unfold span_total. do 2 f_equal.
  induction Hall as [|x ledger Hx Hall IH]; [done|].
  rewrite filter_cons, decide_True by done. by rewrite IH.
Qed.

(** The ledger of an identity merges into one span, and every item of the
    ledger counts for it. *)
Lemma any_long_term_whole_ledger today (x : amount_entry) ledger merged :
  Forall (overlaps today) (x :: ledger) →
  merge_intervals (fst <$> x :: ledger) = Ok merged →
  any_long_term cfg (x :: ledger) merged = true
  ↔ greatest_end x.1 (fst <$> ledger) - least_start x.1 (fst <$> ledger) + 1
      >= LONG_TERM_MIN_DAYS cfg
    ∧ (LONG_TERM_MIN_AMOUNT cfg <=? sum_amounts (snd <$> x :: ledger))%float
      = true.
Proof.
  intros Htoday ->%merge_intervals_Ok.
  assert (Forall (λ iv : interval, iv.1 ≤ today ≤ iv.2) (fst <$> x :: ledger))
    as Hd by by apply Forall_fmap.
  rewrite fmap_cons in Hd |- *.
  rewrite (merge_reference_common_day today) by done.
  rewrite any_long_term_Exists, Exists_cons, Exists_nil.
  unfold long_term_span, span_days. cbn [fst snd].
  rewrite span_total_all; [naive_solver|].
  destruct (least_start_spec x.1 (fst <$> ledger)) as [_ Hlo].
  destruct (greatest_end_spec x.1 (fst <$> ledger)) as [_ Hhi].
  rewrite <- fmap_cons in Hlo, Hhi. rewrite Forall_fmap in Hlo, Hhi.
  rewrite Forall_forall in Htoday, Hlo, Hhi. apply Forall_forall.
  intros y Hy. specialize (Htoday y Hy). specialize (Hlo y Hy).
  specialize (Hhi y Hy). unfold overlaps in Htoday.
  unfold intersects. simpl in *. lia.
Qed.

(** The result, read off the retained records of each identity. *)
Lemma eligible_iff_retained
    (entries : list (pydict pyval)) (today : date) (E : gset string) :
  compute_long_term_emails py cfg entries today = Ok E →
  ∀ email,
    (email ∈ E →
     email ≠ "" ∧ retained_records py today email entries ≠ [])
    ∧ (email ≠ "" →
       ∀ (x : amount_entry) ledger,
         retained_records py today email entries = x :: ledger →
         Forall (overlaps today) (x :: ledger)
         ∧ ∃ merged,
             merge_intervals (fst <$> x :: ledger) = Ok merged
             ∧ (email ∈ E
                ↔ any_long_term cfg (x :: ledger) merged = true)).
Proof.
  unfold compute_long_term_emails.
  destruct (build_ledgers py entries today)
    as [[user_intervals user_amounts]|] eqn:Hledgers; [|done].
  cbn [mbind result_bind]. intros [Hall Hiff]%eligibility_loop email.
  assert (∀ email,
    default [] (dict_lookup email user_amounts)
    = if decide (email = "") then []
      else retained_records py today email entries) as Hretained.
  { intros email'.
    exact (ledger_loop_retained today entries ([], []) _ email' Hledgers). }
  apply (build_ledgers_ok _ (overlaps today)) in Hledgers
    as [Hiv Hnd Hitems];
    [|by eauto using get_interval_and_amount_overlaps].
  simpl in *.
  assert (NoDup user_intervals.*1) as Hnd'.
  { by rewrite Hiv, <- list_fmap_compose. }
  assert (∀ ledger, dict_lookup email user_amounts = Some ledger ↔
    email ≠ "" ∧ ledger ≠ []
    ∧ retained_records py today email entries = ledger) as Hledger.
  { intros ledger. specialize (Hretained email). split.
    - intros Hl. rewrite Hl in Hretained. simpl in Hretained.
      destruct (Hitems _ _ Hl) as [Hne _].
      case_decide; by simplify_eq.
    - intros (Hne & Hne' & <-). rewrite decide_False in Hretained by done.
      destruct (dict_lookup email user_amounts); simpl in Hretained;
        congruence. }
  split.
  - rewrite Hiff.
    intros [?%elem_of_empty|(intervals & merged & Hin & Hm & Hany)]; [done|].
    rewrite Hiv in Hin.
    apply list_elem_of_fmap in Hin as ([email' ledger] & [= <- ->] & Hin).
    apply dict_lookup_NoDup in Hin; [|done].
    apply Hledger in Hin as (? & ? & Hr). split; [done|congruence].
  - intros Hne x ledger Hr.
    assert (dict_lookup email user_amounts = Some (x :: ledger)) as Hl
      by by apply Hledger.
    destruct (Hitems _ _ Hl) as [_ Htoday]. split; [done|].
    assert ((email, fst <$> x :: ledger) ∈ user_intervals) as Hin.
    { rewrite Hiv. apply list_elem_of_fmap. exists (email, x :: ledger).
      split; [done|]. by apply dict_lookup_elem_of. }
    destruct (Hall _ _ Hin) as [merged Hmerged].
    exists merged. split; [done|]. rewrite Hiff. split.
    + intros [?%elem_of_empty|(intervals & merged' & Hin' & Hm' & Hany)];
        [done|].
      assert (intervals = fst <$> x :: ledger) as ->.
      { apply dict_lookup_NoDup in Hin, Hin'; [|done..]. congruence. }
      unfold dict_get_default in Hany. rewrite Hl in Hany. congruence.
    + intros Hany. right. exists (fst <$> x :: ledger), merged.
      split_and!; [done..|]. unfold dict_get_default. by rewrite Hl.
Qed.

(** X6. On a run that completes, an identity is in the result exactly when its
    retained records (those that overlap the evaluation date and carry an
    amount) reach from their earliest start to their latest end over at least
    [LONG_TERM_MIN_DAYS] days, and all their amounts, added up in the order of
    the entries, come to at least [LONG_TERM_MIN_AMOUNT]: the records of one
    identity always merge into a single span. *)
Theorem eligible_iff_whole_ledger
    (entries : list (pydict pyval)) (today : date) (E : gset string) :
  compute_long_term_emails py cfg entries today = Ok E →
  ∀ email, email ∈ E ↔
    email ≠ ""
    ∧ ∃ (x : amount_entry) ledger,
        retained_records py today email entries = x :: ledger
        ∧ greatest_end x.1 (fst <$> ledger)
            - least_start x.1 (fst <$> ledger) + 1
          >= LONG_TERM_MIN_DAYS cfg
        ∧ (LONG_TERM_MIN_AMOUNT cfg
             <=? sum_amounts (snd <$> x :: ledger))%float = true.
Proof.
  intros Hrun email.
  destruct (eligible_iff_retained _ _ _ Hrun email) as [Hin Hrule]. split.
  - intros HE. destruct (Hin HE) as [Hne Hnil]. split; [done|].
    destruct (retained_records py today email entries)
      as [|x ledger] eqn:Hr; [done|].
    exists x, ledger. split; [done|].
    destruct (Hrule Hne x ledger eq_refl) as (Htoday & merged & Hm & Hiff).
    apply (any_long_term_whole_ledger today x ledger merged); [done..|].
    by apply Hiff.
  - intros (Hne & x & ledger & Hr & Hdays & Hamount).
    destruct (Hrule Hne x ledger Hr) as (Htoday & merged & Hm & Hiff).
    apply Hiff.
    by apply (any_long_term_whole_ledger today x ledger merged).
Qed.

(** X7. Whether an identity is eligible depends on its own retained records
    only: two runs that complete, on whatever entries, agree on every identity
    whose retained records are the same in both. The records of other people
    change nothing for it, as long as the run completes. *)
Theorem eligibility_is_per_identity
    (entries entries' : list (pydict pyval)) (today : date)
    (E E' : gset string) (email : string) :
  compute_long_term_emails py cfg entries today = Ok E →
  compute_long_term_emails py cfg entries' today = Ok E' →
  retained_records py today email entries
  = retained_records py today email entries' →
  email ∈ E ↔ email ∈ E'.
Proof.
  intros Hrun Hrun' Hsame.
  destruct (eligible_iff_retained _ _ _ Hrun email) as [Hin Hrule].
  destruct (eligible_iff_retained _ _ _ Hrun' email) as [Hin' Hrule'].
  rewrite <- Hsame in Hin', Hrule'.
  destruct (decide (email = "")) as [Hempty|Hne]; [naive_solver|].
  destruct (retained_records py today email entries)
    as [|x ledger] eqn:Hr; [naive_solver|].
  destruct (Hrule Hne x ledger eq_refl) as (_ & merged & Hm & ->).
  destruct (Hrule' Hne x ledger eq_refl) as (_ & merged' & Hm' & ->).
  rewrite Hm in Hm'. by simplify_eq.
Qed.

(** X8. A record the first loop passes over (no address in it, or an interval
    off the evaluation date, or no numeric amount) changes nothing: the run
    with it is the run without it, exceptions included. *)
Theorem skipped_record_changes_nothing
    (entries1 entries2 : list (pydict pyval)) (entry : pydict pyval)
    (today : date) :
  extract_email py entry = None
  ∨ extract_email py entry = Some ""
  ∨ get_interval_and_amount py entry today today = Ok None →
  compute_long_term_emails py cfg (entries1 ++ entry :: entries2) today
  = compute_long_term_emails py cfg (entries1 ++ entries2) today.
Proof.
  intros Hskip. unfold compute_long_term_emails, build_ledgers.
  rewrite !for_loop_app.
  destruct (for_loop _ entries1 _) as [[ui ua]|]; [|done].
  cbn [mbind result_bind for_loop].
  replace (ledger_loop_body py today (ui, ua) entry)
    with (Ok (A:=ledgers) (ui, ua)); [done|].
  unfold ledger_loop_body.
  destruct Hskip as [->|[->|Hget]]; [done..|].
  rewrite Hget. by repeat case_match.
Qed.

(** X9. A run raises nothing but [OverflowError]; and it completes when no
    amount is an integer beyond the range of a float and no record ends on the
    last representable date. *)
Theorem compute_long_term_emails_outcome
    (entries : list (pydict pyval)) (today : date) :
  (∀ e, compute_long_term_emails py cfg entries today = Raise e →
        e = OverflowError)
  ∧ ((∀ entry z, entry ∈ entries → dict_get entry "amount" = PInt z →
        float_of_int z ≠ Raise OverflowError) →
     (∀ entry start end_, entry ∈ entries →
        derived_interval py entry = Some (start, end_) →
        before_date_max end_) →
     ∃ E, compute_long_term_emails py cfg entries today = Ok E).
Proof.
  split; [|apply compute_long_term_emails_completes].
  intros e. unfold compute_long_term_emails, build_ledgers.
  assert (∀ entries (st : ledgers) e,
    for_loop (ledger_loop_body py today) entries st = Raise e →
    e = OverflowError) as Hfirst.
  { clear. induction entries as [|entry entries IH]; intros st e; [done|].
    cbn [for_loop].
    destruct (ledger_loop_body py today st entry) as [st1|e1] eqn:Hbody;
      [by apply IH|].
    intros [= <-]. destruct st as [ui ua]. unfold ledger_loop_body in Hbody.
    destruct (extract_email py entry); [|done].
    destruct (String.eqb _ _); [done|].
    destruct (get_interval_and_amount py entry today today)
      as [[[[??]?]|]|e2] eqn:Hget; [done..|].
    apply get_interval_and_amount_raises in Hget as [-> _].
    by simplify_eq/=. }
  destruct (for_loop _ entries _) as [[ui ua]|e1] eqn:Hledgers.
  - cbn [mbind result_bind]. clear Hledgers. generalize (∅ : gset string).
    induction ui as [|[email intervals] ui IH]; intros E0; [done|].
    cbn [for_loop]. unfold eligibility_loop_body at 1.
    destruct (merge_intervals intervals) as [merged|e2] eqn:Hm.
    + cbn [mbind result_bind]. destruct (any_long_term _ _ _); apply IH.
    + apply merge_intervals_raises in Hm as ->. by intros [= <-].
  - apply Hfirst in Hledgers as ->. by intros [= <-].
Qed.

End whole_ledger_facts.

Lemma eligible_iff_whole_ledger_witness :
  compute_long_term_emails example_builtins default_config
    [record_january; record_february] (day 2024 1 15) = Ok {["a@x.com"]}
  ∧ retained_records example_builtins (day 2024 1 15) "a@x.com"
      [record_january; record_february]
    = [(day 2024 1 1, day 2024 1 20, 20%float);
       (day 2024 1 10, day 2024 2 10, 15%float)]
  ∧ ("a@x.com" ∈ ({["a@x.com"]} : gset string) ↔
     "a@x.com" ≠ ""
     ∧ ∃ (x : amount_entry) ledger,
         retained_records example_builtins (day 2024 1 15) "a@x.com"
           [record_january; record_february] = x :: ledger
         ∧ greatest_end x.1 (fst <$> ledger)
             - least_start x.1 (fst <$> ledger) + 1
           >= LONG_TERM_MIN_DAYS default_config
         ∧ (LONG_TERM_MIN_AMOUNT default_config
              <=? sum_amounts (snd <$> x :: ledger))%float = true).
Proof.
  split; [reflexivity|]. split; [reflexivity|].
  exact (eligible_iff_whole_ledger example_builtins default_config
           [record_january; record_february] (day 2024 1 15) {["a@x.com"]}
           eq_refl "a@x.com").
Defined.

Lemma eligibility_is_per_identity_witness :
  compute_long_term_emails example_builtins default_config
    [record_january; record_february] (day 2024 1 15) = Ok {["a@x.com"]}
  ∧ compute_long_term_emails example_builtins default_config
      [record_january; record_other_person; record_february] (day 2024 1 15)
    = Ok {["a@x.com"; "b@x.com"]}
  ∧ ("a@x.com" ∈ ({["a@x.com"]} : gset string)
     ↔ "a@x.com" ∈ ({["a@x.com"; "b@x.com"]} : gset string)).
Proof.
  assert (compute_long_term_emails example_builtins default_config
    [record_january; record_other_person; record_february] (day 2024 1 15)
    = Ok {["a@x.com"; "b@x.com"]}) as H by by vm_compute.
  split; [reflexivity|]. split; [done|].
  exact (eligibility_is_per_identity example_builtins default_config
    [record_january; record_february]
    [record_january; record_other_person; record_february]
    (day 2024 1 15) {["a@x.com"]} {["a@x.com"; "b@x.com"]} "a@x.com"
    eq_refl H eq_refl).
Defined.

Lemma skipped_record_changes_nothing_witness :
  get_interval_and_amount example_builtins record_no_amount
    (day 2024 1 15) (day 2024 1 15) = Ok None
  ∧ compute_long_term_emails example_builtins default_config
      ([record_january] ++ record_no_amount :: [record_february])
      (day 2024 1 15)
    = compute_long_term_emails example_builtins default_config
        ([record_january] ++ [record_february]) (day 2024 1 15).
Proof.
  split; [reflexivity|].
  apply skipped_record_changes_nothing. right; right. reflexivity.
Defined.

(** ** [get_interval_and_amount]: the three outcomes *)

Section extraction_outcomes.
Context (py : builtins).

(** X10. The three outcomes of [get_interval_and_amount], each with its exact
    condition. It returns the interval and the amount when the start date
    parses, the interval (the end date being the start date when there is none
    that parses) meets the window, both ends included, and [float] converts
    the amount. It raises, and then [OverflowError], when the interval meets
    the window and the amount is an integer beyond the range of a float; a
    record off the window is passed over before its amount is looked at. In
    every other case it returns [None]. *)
Theorem get_interval_and_amount_outcome
    (entry : pydict pyval) (window_start window_end : date) :
  (∀ start end_ amount_val,
     get_interval_and_amount py entry window_start window_end
     = Ok (Some (start, end_, amount_val))
     ↔ derived_interval py entry = Some (start, end_)
       ∧ start ≤ window_end ∧ window_start ≤ end_
       ∧ py_float py (dict_get entry "amount") = Ok amount_val)
  ∧ (∀ e,
       get_interval_and_amount py entry window_start window_end = Raise e
       ↔ e = OverflowError
         ∧ ∃ start end_ z,
             derived_interval py entry = Some (start, end_)
             ∧ start ≤ window_end ∧ window_start ≤ end_
             ∧ dict_get entry "amount" = PInt z
             ∧ float_of_int z = Raise OverflowError)
  ∧ (get_interval_and_amount py entry window_start window_end = Ok None
     ↔ derived_interval py entry = None
       ∨ (∃ start end_, derived_interval py entry = Some (start, end_)
            ∧ (start > window_end ∨ end_ < window_start))
       ∨ dict_get entry "amount" = PNone
       ∨ py_float py (dict_get entry "amount") = Raise TypeError
       ∨ py_float py (dict_get entry "amount") = Raise ValueError).
Proof.
  split; [intros; apply get_interval_and_amount_returned|].
  split; [|apply get_interval_and_amount_excluded].
  intros e. split.
  - intros Hraise.
    pose proof Hraise as (-> & z & Hz & Hoverflow)%get_interval_and_amount_raises.
    split; [done|]. revert Hraise. rewrite get_interval_and_amount_unfold.
    destruct (derived_interval py entry) as [[start end_]|]; [|done].
    destruct (Z.leb_spec start window_end), (Z.geb_spec end_ window_start);
      cbn [andb]; try done.
    intros _. exists start, end_, z. split_and!; (done || lia).
  - intros (-> & start & end_ & z & Hd & ? & ? & Hz & Hoverflow).
    rewrite get_interval_and_amount_unfold, Hd.
    destruct (Z.leb_spec start window_end); [|lia].
    destruct (Z.geb_spec end_ window_start); [|lia].
    cbn [andb]. unfold amount_outcome. rewrite Hz. cbn [py_float].
    by rewrite Hoverflow.
Qed.

(** X11. The window only filters: a triple returned for one window is the
    triple returned for every window its interval meets, and a window it does
    not meet gives [None]. *)
Theorem get_interval_and_amount_window
    (entry : pydict pyval) (window_start window_end : date)
    (window_start' window_end' : date) (x : amount_entry) :
  get_interval_and_amount py entry window_start window_end = Ok (Some x) →
  x.1.1 ≤ window_end ∧ window_start ≤ x.1.2
  ∧ get_interval_and_amount py entry window_start' window_end'
    = if (x.1.1 <=? window_end') && (window_start' <=? x.1.2)
      then Ok (Some x) else Ok None.
Proof.
  destruct x as [[start end_] amount_val]. cbn [fst snd].
  intros (Hd & ? & ? & Hf)%get_interval_and_amount_returned.
  split_and!; [done..|].
  destruct (Z.leb_spec start window_end'), (Z.leb_spec window_start' end_);
    cbn [andb].
  - by apply get_interval_and_amount_returned.
  - apply get_interval_and_amount_excluded. right; left.
    exists start, end_. split; [done|lia].
  - apply get_interval_and_amount_excluded. right; left.
    exists start, end_. split; [done|lia].
  - apply get_interval_and_amount_excluded. right; left.
    exists start, end_. split; [done|lia].
Qed.

End extraction_outcomes.

Lemma get_interval_and_amount_window_witness :
  get_interval_and_amount example_builtins record_january
    (day 2024 1 15) (day 2024 1 15)
  = Ok (Some (day 2024 1 1, day 2024 1 20, 20%float))
  ∧ get_interval_and_amount example_builtins record_january
      (day 2024 1 21) (day 2024 12 31)
    = Ok None.
Proof.
  split; [reflexivity|].
  exact (proj2 (proj2 (get_interval_and_amount_window example_builtins
    record_january (day 2024 1 15) (day 2024 1 15)
    (day 2024 1 21) (day 2024 12 31)
    (day 2024 1 1, day 2024 1 20, 20%float) eq_refl))).
Defined.

(** ** [extract_email]: the first address found *)

Section extract_email_facts.
Context (py : builtins).

Lemma first_email_head (d : pydict pyval) (keys : list string) :
  first_email py d keys
  = str_lower py <$> head (filter (λ v, truthy v) (dict_get d <$> keys)).
Proof.
  induction keys as [|key keys IH]; [done|].
  cbn [first_email]. rewrite fmap_cons, filter_cons.
  destruct (truthy (dict_get d key)) eqn:Ht.
  - done.
  - apply IH.
Qed.

Lemma head_app_fmap {A B} (f : A → B) (l1 l2 : list A) :
  f <$> head (l1 ++ l2)
  = match f <$> head l1 with
    | Some y => Some y
    | None => f <$> head l2
    end.
Proof. by destruct l1. Qed.

Lemma nested_email_head (entry : pydict pyval) (keys : list string) :
  nested_email py entry keys
  = str_lower py <$>
      head (filter (λ v, truthy v)
              (flat_map
                 (λ key,
                    match py_or (dict_get entry key) (PDict []) with
                    | PDict nested => dict_get nested <$> nested_email_keys
                    | _ => []
                    end)
                 keys)).
Proof.
  induction keys as [|key keys IH]; [done|].
  cbn [nested_email flat_map]. rewrite filter_app, head_app_fmap, <- IH.
  destruct (py_or (dict_get entry key) (PDict [])); try done.
  by rewrite first_email_head.
Qed.

(** X12. The address is the first truthy value among the candidates, in the
    fixed order of the keys, lower-cased; there is none exactly when no
    candidate is truthy. A nested value that is no mapping (a string, a list,
    a number) is passed over without an error. *)
Theorem extract_email_first_candidate (entry : pydict pyval) :
  extract_email py entry
  = str_lower py <$> head (filter (λ v, truthy v) (email_candidates entry))
  ∧ (extract_email py entry = None
     ↔ Forall (λ v, truthy v = false) (email_candidates entry)).
Proof.
  assert (extract_email py entry
    = str_lower py <$> head (filter (λ v, truthy v) (email_candidates entry)))
    as Heq.
  { unfold extract_email, email_candidates.
    by rewrite filter_app, head_app_fmap, <- first_email_head,
      <- nested_email_head. }
  split; [done|]. rewrite Heq, fmap_None.
  generalize (email_candidates entry). intros l.
  induction l as [|v l IH]; [done|].
  rewrite filter_cons, Forall_cons. destruct (truthy v) eqn:Hv.
  - simpl. naive_solver.
  - simpl. naive_solver.
Qed.

End extract_email_facts.

(** ** [fetch_time_offs]: the whole run *)

Section fetch_run_facts.
Context (cfg : config).

Lemma page_turn_continues r :
  continues r = true →
  ∃ d, r = Body (PDict d)
       ∧ page_turn cfg (PDict d)
         = PageContinue (page_yield r) (page_cursor r)
       ∧ truthy (page_cursor r) = true.
Proof.
  destruct r as [|[| | | | | |d]]; try done. cbn [continues].
  intros [[Hmore Hitems]%andb_true_iff Hiter]%andb_true_iff.
  exists d. split; [done|]. rewrite page_turn_dict.
  cbn [page_yield page_cursor]. rewrite Hitems, Hmore. cbn [negb].
  destruct (py_iter (page_items d)); [|done]. split; [done|].
  unfold has_more in Hmore. by apply andb_true_iff in Hmore as [_ ?].
Qed.

Lemma page_turn_stops r :
  continues r = false →
  match r with
  | BadStatus => True
  | Body body =>
      match page_turn cfg body with
      | PageRaise e => page_end r = Raised e ∧ page_yield r = []
      | PageBreak yielded => page_end r = Returned ∧ page_yield r = yielded
      | PageContinue _ _ => False
      end
  end.
Proof.
  destruct r as [|body]; [done|].
  destruct body as [| | | | | |d]; try done.
  cbn [continues page_end page_yield]. rewrite page_turn_dict.
  destruct (truthy (page_items d)); cbn [negb]; [|done].
  destruct (py_iter (page_items d)); [|done].
  rewrite andb_true_r, andb_true_r. by intros ->.
Qed.

(** The run in closed form. *)
Lemma fetch_loop_closed responses : ∀ next_cursor,
  fetch_loop cfg responses next_cursor
  = {| requests :=
         request_of next_cursor
         :: ((λ r, NextPage (page_cursor r))
               <$> take (leading_pages responses) responses);
       yielded_items :=
         flat_map page_yield (take (S (leading_pages responses)) responses);
       fetch_final :=
         from_option page_end AwaitingResponse
           (responses !! leading_pages responses) |}.
Proof.
  induction responses as [|r responses IH]; intros next_cursor; [done|].
  cbn [leading_pages]. destruct (continues r) eqn:Hr.
  - destruct (page_turn_continues r Hr) as (d & -> & Hturn & Hcursor).
    cbn [fetch_loop]. rewrite Hturn, IH.
    cbn [requests yielded_items fetch_final].
    unfold request_of at 2. rewrite Hcursor. done.
  - pose proof (page_turn_stops r Hr) as Hstop.
    destruct r as [|body]; [done|]. cbn [fetch_loop].
    destruct (page_turn cfg body) as [e|yielded|]; [| |done];
      destruct Hstop as [Hend Hyield]; cbn [take flat_map lookup list_lookup
        from_option fmap list_fmap]; rewrite Hend, Hyield; by rewrite ?app_nil_r.
Qed.

(** X13. The first request carries the first-page filter; every further one
    carries nothing but a cursor, the one of the page before it ([next], or
    [cursor] when [next] is falsy), and is made only after a page that says
    there is more and whose item collection is truthy. *)
Theorem fetch_requests_follow_cursors (responses : list response) :
  requests (fetch_time_offs cfg responses) !! 0%nat = Some FirstPage
  ∧ ∀ i req,
      requests (fetch_time_offs cfg responses) !! S i = Some req →
      ∃ d, responses !! i = Some (Body (PDict d))
           ∧ has_more (PDict d) = true
           ∧ truthy (page_items d) = true
           ∧ req = NextPage (py_or (dict_get d "next") (dict_get d "cursor")).
Proof.
  unfold fetch_time_offs. rewrite fetch_loop_closed. cbn [requests].
  split; [done|]. intros i req. rewrite lookup_cons, list_lookup_fmap.
  destruct (take (leading_pages responses) responses !! i) as [r|] eqn:Hr;
    [|done].
  intros [= <-]. apply lookup_take_Some in Hr as [Hr Hi].
  assert (continues r = true) as Hcont.
  { clear -Hr Hi. revert i Hr Hi.
    induction responses as [|r0 responses IH]; intros i Hr Hi; [done|].
    cbn [leading_pages] in Hi. destruct (continues r0) eqn:Hr0; [|lia].
    destruct i as [|i]; [by simplify_eq/=|].
    apply (IH i); [done|lia]. }
  destruct r as [|[| | | | | |d]]; try done. exists d.
  cbn [continues] in Hcont.
  apply andb_true_iff in Hcont as [[? ?]%andb_true_iff _]. done.
Qed.

(** X14. The loop asks for one page more than the pages it goes on after, and
    yields the items of the pages it was given, in order. It stops by itself
    at the first page that does not say there is more, or is empty, or fails;
    as long as every page says there is more, it asks again, whatever the
    number of pages and whatever the cursors. The page size setting plays no
    part. *)
Theorem fetch_stops_at_first_final_page (responses : list response) :
  let run := fetch_time_offs cfg responses in
  length (requests run) = S (leading_pages responses)
  ∧ yielded_items run
    = flat_map page_yield (take (S (leading_pages responses)) responses)
  ∧ fetch_final run
    = from_option page_end AwaitingResponse
        (responses !! leading_pages responses)
  ∧ (fetch_final run = AwaitingResponse
     ↔ Forall (λ r, continues r = true) responses).
Proof.
  unfold fetch_time_offs. rewrite fetch_loop_closed.
  cbn [requests yielded_items fetch_final].
  assert (leading_pages responses ≤ length responses)%nat as Hle.
  { induction responses as [|r responses IH]; simpl; [done|].
    destruct (continues r); simpl; lia. }
  split_and!; [|done..|].
  - rewrite length_cons, length_fmap, length_take. lia.
  - clear Hle. induction responses as [|r responses IH]; [done|].
    cbn [leading_pages]. rewrite Forall_cons.
    destruct (continues r) eqn:Hr.
    + cbn [lookup list_lookup]. rewrite IH. naive_solver.
    + cbn [lookup list_lookup from_option]. split; [|naive_solver].
      pose proof (page_turn_stops r Hr) as Hstop.
      destruct r as [|[| | | | | |d]]; try done.
      cbn [page_end]. by repeat case_match.
Qed.

End fetch_run_facts.

(** ** [sync_okta_group]: the calls made *)

Section sync_facts.
Context (okta : okta_api).

Lemma add_loop_calls emails :
  Forall (λ c,
            match c with
            | LookupUser email => email ∈ emails
            | PutMember email user_id =>
                email ∈ emails
                ∧ okta_lookup_user_id okta email = Ok user_id
                ∧ truthy user_id = true
            | DeleteMember _ _ => False
            end) (add_loop okta emails).1.
Proof.
  induction emails as [|email emails IH]; simpl; [done|].
  assert (Forall (λ c,
            match c with
            | LookupUser email0 => email0 ∈ email :: emails
            | PutMember email0 user_id =>
                email0 ∈ email :: emails
                ∧ okta_lookup_user_id okta email0 = Ok user_id
                ∧ truthy user_id = true
            | DeleteMember _ _ => False
            end) (add_loop okta emails).1) as IH'.
  { eapply Forall_impl; [exact IH|].
    intros [| |]; [|intros (? & ? & ?); split_and!|]; set_solver. }
  destruct (okta_lookup_user_id okta email) as [user_id|] eqn:Hlookup; simpl.
  - destruct (truthy user_id) eqn:Hid; simpl.
    + destruct (okta_put_member okta user_id); simpl.
      * destruct (add_loop okta emails). simpl in *.
        repeat constructor; [set_solver..|done].
      * repeat constructor; set_solver.
    + destruct (add_loop okta emails). simpl in *.
      constructor; [set_solver|done].
  - repeat constructor; set_solver.
Qed.

Lemma remove_loop_calls current_members emails :
  Forall (λ c,
            match c with
            | DeleteMember email user_id =>
                email ∈ emails
                ∧ default PNone (current_members !! email) = user_id
                ∧ truthy user_id = true
            | _ => False
            end) (remove_loop okta current_members emails).1.
Proof.
  induction emails as [|email emails IH]; simpl; [done|].
  assert (Forall (λ c,
            match c with
            | DeleteMember email0 user_id =>
                email0 ∈ email :: emails
                ∧ default PNone (current_members !! email0) = user_id
                ∧ truthy user_id = true
            | _ => False
            end) (remove_loop okta current_members emails).1) as IH'.
  { eapply Forall_impl; [exact IH|].
    intros [| |]; [done..|]. intros (? & ? & ?). split_and!; set_solver. }
  destruct (truthy (default PNone (current_members !! email))) eqn:Hid;
    simpl; [|done].
  destruct (okta_delete_member okta _); simpl.
  - destruct (remove_loop okta current_members emails). simpl in *.
    constructor; [|done]. split_and!; [set_solver|done..].
  - repeat constructor; [set_solver|done..].
Qed.

(** X15. The run never steps outside the plan: it looks up and adds only
    identities that are eligible and not yet members, adds them under the
    identifier the look-up gave, and removes only members that are not
    eligible, under the identifier of the membership listing. Nobody eligible
    is removed, and no member is added again. *)
Theorem sync_okta_group_calls_in_plan
    (long_term_emails : gset string) (current_members : gmap string pyval) :
  Forall (call_in_plan okta long_term_emails current_members)
    (sync_okta_group okta long_term_emails current_members).1.
Proof.
  unfold sync_okta_group, reconciliation_plan.
  pose proof (add_loop_calls
    (py_sorted_set (long_term_emails ∖ dom current_members))) as Hadd.
  pose proof (remove_loop_calls current_members
    (py_sorted_set (dom current_members ∖ long_term_emails))) as Hremove.
  assert (Forall (call_in_plan okta long_term_emails current_members)
    (add_loop okta
       (py_sorted_set (long_term_emails ∖ dom current_members))).1) as Hadd'.
  { eapply Forall_impl; [exact Hadd|]. intros [email|email uid|]; [| |done].
    - rewrite elem_of_py_sorted_set. simpl. set_solver.
    - rewrite elem_of_py_sorted_set. simpl. set_solver. }
  assert (Forall (call_in_plan okta long_term_emails current_members)
    (remove_loop okta current_members
       (py_sorted_set (dom current_members ∖ long_term_emails))).1)
    as Hremove'.
  { eapply Forall_impl; [exact Hremove|].
    intros [| |email uid]; [done..|].
    rewrite elem_of_py_sorted_set, elem_of_difference, elem_of_dom. simpl.
    intros ([[v Hv] ?] & Huid & ?). rewrite Hv in Huid. simpl in Huid.
    by subst. }
  destruct (add_loop okta _) as [calls [[]|e]]; simpl in *; [|done].
  destruct (remove_loop okta current_members _) as [calls' r]. simpl in *.
  by apply Forall_app.
Qed.

Lemma add_loop_complete emails :
  (add_loop okta emails).2 = Ok () →
  ∀ email, email ∈ emails →
    LookupUser email ∈ (add_loop okta emails).1
    ∧ ∀ user_id,
        okta_lookup_user_id okta email = Ok user_id →
        truthy user_id = true →
        PutMember email user_id ∈ (add_loop okta emails).1.
Proof.
  induction emails as [|email0 emails IH]; simpl.
  { by intros _ ? ?%elem_of_nil. }
  destruct (okta_lookup_user_id okta email0) as [uid0|] eqn:Hlookup;
    [|done].
  destruct (truthy uid0) eqn:Hid; simpl.
  - destruct (okta_put_member okta uid0); [|done].
    destruct (add_loop okta emails) as [calls r]. simpl in *.
    intros Hr email [->|Hin]%elem_of_cons.
    + split; [left|]. intros uid Hu _. rewrite Hlookup in Hu.
      simplify_eq. right; left.
    + destruct (IH Hr email Hin) as [? Hput]. split; [by right; right|].
      intros uid ? ?. do 2 right. by apply Hput.
  - destruct (add_loop okta emails) as [calls r]. simpl in *.
    intros Hr email [->|Hin]%elem_of_cons.
    + split; [left|]. intros uid Hu ?. rewrite Hlookup in Hu.
      simplify_eq. congruence.
    + destruct (IH Hr email Hin) as [? Hput]. split; [by right|].
      intros uid ? ?. right. by apply Hput.
Qed.

Lemma remove_loop_complete current_members emails :
  (remove_loop okta current_members emails).2 = Ok () →
  ∀ email user_id, email ∈ emails →
    current_members !! email = Some user_id →
    truthy user_id = true →
    DeleteMember email user_id ∈ (remove_loop okta current_members emails).1.
Proof.
  induction emails as [|email0 emails IH]; simpl.
  { by intros _ ?? ?%elem_of_nil. }
  destruct (truthy (default PNone (current_members !! email0))) eqn:Hid;
    simpl.
  - destruct (okta_delete_member okta _); [|done].
    destruct (remove_loop okta current_members emails) as [calls r].
    simpl in *. intros Hr email uid [->|Hin]%elem_of_cons Hm Ht.
    + rewrite Hm. simpl. left.
    + right. by eapply IH.
  - intros Hr email uid [->|Hin]%elem_of_cons Hm Ht.
    + rewrite Hm in Hid. simpl in Hid. congruence.
    + by eapply IH.
Qed.

(** X16. A run that returns has done the whole plan: every eligible identity
    that was no member has been looked up, and added when the look-up gave an
    identifier; every member that is not eligible and has an identifier in the
    listing has been removed. *)
Theorem sync_okta_group_completes_the_plan
    (long_term_emails : gset string) (current_members : gmap string pyval) :
  (sync_okta_group okta long_term_emails current_members).2 = Ok () →
  (∀ email, email ∈ long_term_emails → email ∉ dom current_members →
     LookupUser email
       ∈ (sync_okta_group okta long_term_emails current_members).1
     ∧ ∀ user_id,
         okta_lookup_user_id okta email = Ok user_id →
         truthy user_id = true →
         PutMember email user_id
           ∈ (sync_okta_group okta long_term_emails current_members).1)
  ∧ (∀ email user_id,
       email ∉ long_term_emails →
       current_members !! email = Some user_id →
       truthy user_id = true →
       DeleteMember email user_id
         ∈ (sync_okta_group okta long_term_emails current_members).1).
Proof.
  unfold sync_okta_group, reconciliation_plan.
  pose proof (add_loop_complete
    (py_sorted_set (long_term_emails ∖ dom current_members))) as Hadd.
  pose proof (remove_loop_complete current_members
    (py_sorted_set (dom current_members ∖ long_term_emails))) as Hremove.
  destruct (add_loop okta _) as [calls [[]|e]]; simpl in *; [|done].
  destruct (remove_loop okta current_members _) as [calls' r]. simpl in *.
  intros Hr. split.
  - intros email ? ?.
    destruct (Hadd eq_refl email) as [? Hput].
    { apply elem_of_py_sorted_set. set_solver. }
    split; [apply elem_of_app; by left|]. intros uid ? ?.
    apply elem_of_app. left. by apply Hput.
  - intros email uid ? Hm ?. apply elem_of_app. right.
    apply Hremove; [done| |done..].
    apply elem_of_py_sorted_set, elem_of_difference. split; [|done].
    by apply elem_of_dom.
Qed.

Lemma add_loop_failure emails e :
  (add_loop okta emails).2 = Raise e →
  ∃ calls c,
    (add_loop okta emails).1 = calls ++ [c]
    ∧ call_raises okta c e
    ∧ Forall (λ c', ∀ e', ¬ call_raises okta c' e') calls.
Proof.
  induction emails as [|email emails IH]; simpl; [done|].
  destruct (okta_lookup_user_id okta email) as [uid|e0] eqn:Hlookup; simpl.
  - destruct (truthy uid) eqn:Hid; simpl.
    + destruct (okta_put_member okta uid) as [[]|e0] eqn:Hput; simpl.
      * destruct (add_loop okta emails) as [calls r]. simpl in *.
        intros (calls0 & c & -> & ? & ?)%IH.
        exists (LookupUser email :: PutMember email uid :: calls0), c.
        split_and!; [done..|].
        repeat constructor; [simpl; congruence..|done].
      * intros [= ->]. exists [LookupUser email], (PutMember email uid).
        split_and!; [done..|]. repeat constructor. simpl. congruence.
    + destruct (add_loop okta emails) as [calls r]. simpl in *.
      intros (calls0 & c & -> & ? & ?)%IH.
      exists (LookupUser email :: calls0), c. split_and!; [done..|].
      constructor; [simpl; congruence|done].
  - intros [= ->]. by exists [], (LookupUser email).
Qed.

Lemma remove_loop_failure current_members emails e :
  (remove_loop okta current_members emails).2 = Raise e →
  ∃ calls c,
    (remove_loop okta current_members emails).1 = calls ++ [c]
    ∧ call_raises okta c e
    ∧ Forall (λ c', ∀ e', ¬ call_raises okta c' e') calls.
Proof.
  induction emails as [|email emails IH]; simpl; [done|].
  destruct (truthy (default PNone (current_members !! email))); simpl;
    [|done].
  destruct (okta_delete_member okta _) as [[]|e0] eqn:Hdelete; simpl.
  - destruct (remove_loop okta current_members emails) as [calls r].
    simpl in *. intros (calls0 & c & -> & ? & ?)%IH.
    exists (DeleteMember email (default PNone (current_members !! email))
              :: calls0), c.
    split_and!; [done..|]. constructor; [simpl; congruence|done].
  - intros [= ->]. by eexists [], (DeleteMember email _).
Qed.

Lemma add_loop_succeeds emails :
  (add_loop okta emails).2 = Ok () →
  Forall (λ c', ∀ e', ¬ call_raises okta c' e') (add_loop okta emails).1.
Proof.
  induction emails as [|email emails IH]; simpl; [done|].
  destruct (okta_lookup_user_id okta email) as [uid|e0] eqn:Hlookup; simpl;
    [|done].
  destruct (truthy uid) eqn:Hid; simpl.
  - destruct (okta_put_member okta uid) as [[]|e0] eqn:Hput; simpl; [|done].
    destruct (add_loop okta emails) as [calls r]. simpl in *.
    intros ?%IH. repeat constructor; [simpl; congruence..|done].
  - destruct (add_loop okta emails) as [calls r]. simpl in *.
    intros ?%IH. constructor; [simpl; congruence|done].
Qed.

(** X17. A run that raises stops at the call that failed: that call is the
    last one made, every call before it succeeded, and the exception is the
    one of that call. Additions come first: when a look-up or an addition
    fails, no removal has been made. *)
Theorem sync_okta_group_stops_at_first_failure
    (long_term_emails : gset string) (current_members : gmap string pyval)
    (e : exn) :
  (sync_okta_group okta long_term_emails current_members).2 = Raise e →
  ∃ calls c,
    (sync_okta_group okta long_term_emails current_members).1 = calls ++ [c]
    ∧ call_raises okta c e
    ∧ Forall (λ c', ∀ e', ¬ call_raises okta c' e') calls
    ∧ (is_removal c = false → Forall (λ c', is_removal c' = false) calls).
Proof.
  unfold sync_okta_group.
  destruct (reconciliation_plan _ _) as [to_add to_remove].
  pose proof (add_loop_failure (py_sorted_set to_add) e) as Hadd.
  pose proof (add_loop_succeeds (py_sorted_set to_add)) as Hadd_ok.
  pose proof (add_loop_calls (py_sorted_set to_add)) as Hadd_calls.
  pose proof (remove_loop_failure current_members (py_sorted_set to_remove) e)
    as Hremove.
  pose proof (remove_loop_calls current_members (py_sorted_set to_remove))
    as Hremove_calls.
  destruct (add_loop okta _) as [calls [[]|e0]]; simpl in *.
  - destruct (remove_loop okta current_members _) as [calls' r]. simpl in *.
    intros (calls0 & c & -> & ? & ?)%Hremove.
    exists (calls ++ calls0), c. rewrite app_assoc.
    split_and!; [done..| |].
    + apply Forall_app. split; [by apply Hadd_ok|done].
    + apply Forall_app in Hremove_calls as [_ Hc].
      rewrite Forall_singleton in Hc. by destruct c.
  - intros [= ->]. destruct (Hadd eq_refl) as (calls0 & c & -> & ? & ?).
    exists calls0, c. split_and!; [done..|]. intros _.
    apply Forall_app in Hadd_calls as [Hc _].
    eapply Forall_impl; [exact Hc|]. by intros [| |].
Qed.

End sync_facts.

Lemma sync_okta_group_completes_the_plan_witness :
  (sync_okta_group example_okta {["b"; "c"]}
     {["a" := PStr "00ua"; "b" := PStr "00ub"]}).2 = Ok ()
  ∧ DeleteMember "a" (PStr "00ua")
      ∈ (sync_okta_group example_okta {["b"; "c"]}
           {["a" := PStr "00ua"; "b" := PStr "00ub"]}).1.
Proof.
  assert ((sync_okta_group example_okta {["b"; "c"]}
             {["a" := PStr "00ua"; "b" := PStr "00ub"]}).2 = Ok ()) as H
    by reflexivity.
  split; [done|].
  apply (proj2 (sync_okta_group_completes_the_plan example_okta
                  {["b"; "c"]} {["a" := PStr "00ua"; "b" := PStr "00ub"]}
                  H)); [set_solver|reflexivity..].
Defined.

Lemma sync_okta_group_stops_at_first_failure_witness :
  sync_okta_group refusing_okta {["b"; "c"]}
    {["a" := PStr "00ua"; "b" := PStr "00ub"]}
  = ([LookupUser "c"; PutMember "c" (PStr "00uc")], Raise HTTPError)
  ∧ ∃ calls c,
      (sync_okta_group refusing_okta {["b"; "c"]}
         {["a" := PStr "00ua"; "b" := PStr "00ub"]}).1 = calls ++ [c]
      ∧ call_raises refusing_okta c HTTPError
      ∧ Forall (λ c', ∀ e', ¬ call_raises refusing_okta c' e') calls
      ∧ (is_removal c = false → Forall (λ c', is_removal c' = false) calls).
Proof.
  assert ((sync_okta_group refusing_okta {["b"; "c"]}
             {["a" := PStr "00ua"; "b" := PStr "00ub"]}).2
          = Raise HTTPError) as H by reflexivity.
  split; [reflexivity|].
  exact (sync_okta_group_stops_at_first_failure refusing_okta
           {["b"; "c"]} {["a" := PStr "00ua"; "b" := PStr "00ub"]}
           HTTPError H).
Defined.

(** ** [_get_secret_value]: the cache *)

Section secret_facts.
Context (env : environment) (access : string → secret_result string).

(** X18. Once read, a secret is served from the cache: a later call for the
    same name returns the same value and leaves the cache as it is without
    asking the client, whatever the client would answer by then and whatever
    the project settings have become. *)
Theorem secret_served_from_cache
    (cache : secret_cache) (secret_name value : string) :
  secret_value (_get_secret_value env access cache secret_name)
  = Got (Some value) →
  ∀ env' access',
    _get_secret_value env' access'
      (cache_after (_get_secret_value env access cache secret_name))
      secret_name
    = {| cache_after :=
           cache_after (_get_secret_value env access cache secret_name);
         accessed := [];
         secret_value := Got (Some value) |}.
Proof.
  unfold _get_secret_value at 1 3 4.
  destruct (String.eqb secret_name "") eqn:Hname; [done|].
  destruct (cache !! secret_name) as [cached|] eqn:Hcache.
  - cbn [secret_value cache_after]. intros [= ->] env' access'.
    unfold _get_secret_value. by rewrite Hname, Hcache.
  - destruct (String.prefix "projects/" secret_name).
    + cbn zeta. destruct (access _) as [value'|]; [|done].
      cbn [secret_value cache_after]. intros [= ->] env' access'.
      unfold _get_secret_value. by rewrite Hname, lookup_insert_eq.
    + cbn zeta. destruct (String.eqb (_get_project_id env) ""); [done|].
      destruct (access _) as [value'|]; [|done].
      cbn [secret_value cache_after]. intros [= ->] env' access'.
      unfold _get_secret_value. by rewrite Hname, lookup_insert_eq.
Qed.

Lemma string_append_assoc (a b c : string) :
  (a +:+ b) +:+ c = a +:+ (b +:+ c).
Proof.
  induction a as [|x a IH]; [done|].
  change (String x ((a +:+ b) +:+ c) = String x (a +:+ (b +:+ c))).
  by f_equal.
Qed.

Lemma py_endswith_append (c suffix : string) :
  py_endswith (c +:+ suffix) suffix = true.
Proof.
  unfold py_endswith, String.rev. rewrite rev_app_append.
  assert (String.prefix "" (String.rev_app c "") = true) as Hnil
    by by destruct (String.rev_app c "").
  revert Hnil. generalize (String.rev_app c ""). generalize (@EmptyString).
  induction suffix as [|a suffix IH]; intros acc tl Hprefix; simpl; [done|].
  apply IH. simpl. by destruct (ascii_dec a a).
Qed.

(** X19. A call changes the cache by at most the entry of the name it is asked
    for, never removes or replaces an entry, and leaves the cache alone when
    it raises. It asks the client at most once, only for a name that is not
    empty and not in the cache, and only for the latest version of a secret.
    It returns [None] for the empty name and for nothing else. *)
Theorem secret_cache_only_grows (cache : secret_cache) (secret_name : string) :
  let read := _get_secret_value env access cache secret_name in
  cache ⊆ cache_after read
  ∧ (∀ k, k ≠ secret_name → cache_after read !! k = cache !! k)
  ∧ (∀ e, secret_value read = Failed e → cache_after read = cache)
  ∧ (length (accessed read) ≤ 1)%nat
  ∧ (∀ name, name ∈ accessed read →
       secret_name ≠ "" ∧ cache !! secret_name = None
       ∧ py_endswith name "/versions/latest" = true)
  ∧ (secret_value read = Got None ↔ secret_name = "").
Proof.
  unfold _get_secret_value.
  destruct (String.eqb_spec secret_name "") as [->|Hname].
  { cbn. split_and!;
      first [done | lia | by intros ? ?%elem_of_nil]. }
  destruct (cache !! secret_name) as [cached|] eqn:Hcache.
  { cbn. split_and!;
      first [done | lia | by intros ? ?%elem_of_nil | naive_solver]. }
  destruct (String.prefix "projects/" secret_name);
    [|lazy zeta; destruct (String.eqb (_get_project_id env) "")];
    lazy beta iota zeta; try destruct (access _) as [value|e];
    cbn [cache_after accessed secret_value length]; split_and!;
    first [ done | lia | by apply insert_subseteq
          | by intros ? ?%elem_of_nil
          | by intros k Hk; rewrite lookup_insert_ne
          | by intros ? ->%list_elem_of_singleton; split_and!; [done..|];
            rewrite <- ?string_append_assoc; apply py_endswith_append
          | naive_solver ].
Qed.

Lemma _get_project_id_empty : _get_project_id env = "" ↔ no_project env.
Proof.
  unfold _get_project_id, no_project, unset, str_or, missing.
  destruct env as [[|a1 s1] [[|a2 s2]|] [[|a3 s3]|] [[[|a4 s4]|]|]];
    cbn; split; try done; try (intros (? & [?|?] & ?); done);
    try (intros (? & ? & [?|?] & ?); done);
    try (intros (? & ? & ? & [?|(? & ? & [?|?])]); by simplify_eq);
    intros _; split_and!; eauto.
Qed.

(** X20. A call fails before it reaches the client in one case only: the name
    is not empty, not in the cache and not a full resource name (it does not
    start with [projects/]), and no project is set anywhere; it then raises
    the [RuntimeError] of the module. A full resource name needs no project. *)
Theorem secret_needs_a_project
    (cache : secret_cache) (secret_name : string) (e : secret_error) :
  let read := _get_secret_value env access cache secret_name in
  secret_value read = Failed e ∧ accessed read = []
  ↔ secret_name ≠ "" ∧ cache !! secret_name = None
    ∧ String.prefix "projects/" secret_name = false
    ∧ no_project env
    ∧ e = RuntimeError
            "GOOGLE_CLOUD_PROJECT not set; cannot access Secret Manager.".
Proof.
  unfold _get_secret_value. rewrite <- _get_project_id_empty.
  destruct (String.eqb_spec secret_name "") as [->|Hname]; [naive_solver|].
  destruct (cache !! secret_name) as [cached|] eqn:Hcache; [naive_solver|].
  destruct (String.prefix "projects/" secret_name).
  - cbn zeta. destruct (access _); cbn; naive_solver.
  - cbn zeta. destruct (String.eqb_spec (_get_project_id env) "") as [Hp|Hp].
    + cbn. naive_solver.
    + destruct (access _); cbn; naive_solver.
Qed.

End secret_facts.

Lemma secret_served_from_cache_witness :
  _get_secret_value example_environment example_secrets ∅ "okta-token"
  = {| cache_after := {["okta-token" := "s3cr3t"]};
       accessed := ["projects/p1/secrets/okta-token/versions/latest"];
       secret_value := Got (Some "s3cr3t") |}
  ∧ _get_secret_value bare_environment failing_secrets
      (cache_after
         (_get_secret_value example_environment example_secrets ∅
            "okta-token"))
      "okta-token"
    = {| cache_after :=
           cache_after
             (_get_secret_value example_environment example_secrets ∅
                "okta-token");
         accessed := [];
         secret_value := Got (Some "s3cr3t") |}.
Proof.
  split; [reflexivity|].
  exact (secret_served_from_cache example_environment example_secrets ∅
           "okta-token" "s3cr3t" eq_refl bare_environment failing_secrets).
Defined.

(** Without a project a short secret name cannot be read; a full resource
    name can. *)
Example secret_without_project :
  _get_secret_value bare_environment example_secrets ∅ "okta-token"
  = {| cache_after := ∅; accessed := [];
       secret_value :=
         Failed (RuntimeError
           "GOOGLE_CLOUD_PROJECT not set; cannot access Secret Manager.") |}
  ∧ _get_secret_value bare_environment example_secrets ∅
      "projects/p1/secrets/okta-token"
    = {| cache_after := {["projects/p1/secrets/okta-token" := "s3cr3t"]};
         accessed := ["projects/p1/secrets/okta-token/versions/latest"];
         secret_value := Got (Some "s3cr3t") |}.
Proof. split; reflexivity. Qed.

(** ** [_okta_list_group_users] *)

Section listing_facts.
Context (py : builtins).

Lemma member_loop_body_Ok members user members' :
  member_loop_body py members user = Ok members' →
  members' = match member_key py user with
             | Some k => <[k := member_id user]> members
             | None => members
             end.
Proof.
  unfold member_loop_body, member_key, member_id.
  destruct user as [| | | | | |user]; try done.
  destruct (py_or (dict_get user "profile") (PDict [])); try done.
  cbn zeta. destruct (truthy _); congruence.
Qed.

(** Whether the loop over the users raises does not depend on the members
    listed so far. *)
Lemma member_loop_raises users : ∀ members members0 e,
  for_loop (member_loop_body py) users members = Raise e →
  for_loop (member_loop_body py) users members0 = Raise e.
Proof.
  induction users as [|user users IH]; intros members members0 e; [done|].
  cbn [for_loop].
  destruct (member_loop_body py members user) as [m1|e1] eqn:H1.
  - assert (∃ m2, member_loop_body py members0 user = Ok m2) as [m2 ->].
    { revert H1. unfold member_loop_body.
      destruct user as [| | | | | |user]; try done.
      destruct (py_or (dict_get user "profile") (PDict [])); try done.
      cbn zeta. destruct (truthy _); eauto. }
    apply IH.
  - intros [= ->].
    replace (member_loop_body py members0 user) with (Raise (A:=gmap string pyval) e);
      [done|].
    revert H1. unfold member_loop_body.
    destruct user as [| | | | | |user]; try done.
    destruct (py_or (dict_get user "profile") (PDict [])); try done.
    cbn zeta. by destruct (truthy _).
Qed.

Lemma member_loop_last users : ∀ members members',
  for_loop (member_loop_body py) users members = Ok members' →
  ∀ k, members' !! k
       = match last (filter (λ u, member_key py u = Some k) users) with
         | Some u => Some (member_id u)
         | None => members !! k
         end.
Proof.
  induction users as [|user users IH]; intros members members'.
  - intros [= <-] k. done.
  - cbn [for_loop].
    destruct (member_loop_body py members user) as [m1|] eqn:H1; [|done].
    apply member_loop_body_Ok in H1 as ->.
    intros Hloop k. rewrite (IH _ _ Hloop k), filter_cons.
    destruct (decide (member_key py user = Some k)) as [Hk|Hk].
    + rewrite last_cons, Hk, lookup_insert_eq.
      by destruct (last (filter _ users)).
    + destruct (last (filter _ users)); [done|].
      destruct (member_key py user) as [k'|]; [|done].
      rewrite lookup_insert_ne; [done|congruence].
Qed.

Lemma listing_loop_members responses : ∀ request members0 members,
  listing_final (listing_loop py responses request members0)
  = Members members →
  ∀ k, members !! k
       = match
           last (filter (λ u, member_key py u = Some k)
                   (flat_map page_users
                      (take (length (listing_requests
                                       (listing_loop py responses request
                                          members0)))
                         responses)))
         with
         | Some u => Some (member_id u)
         | None => members0 !! k
         end.
Proof.
  induction responses as [|[|users link] responses IH];
    intros request members0 members; [done..|].
  cbn [listing_loop].
  destruct (py_iter users) as [users'|] eqn:Hiter; [|done].
  cbn [mbind result_bind].
  destruct (for_loop (member_loop_body py) users' members0) as [m1|] eqn:Hloop;
    [|done].
  pose proof (member_loop_last _ _ _ Hloop) as Hm1.
  destruct (next_url link) as [url|].
  - cbn [listing_requests listing_final length take flat_map].
    intros Hfinal k. rewrite (IH _ _ _ Hfinal k), filter_app, last_app.
    cbn [page_users]. rewrite Hiter.
    destruct (last (filter _ (flat_map _ _))); [done|]. apply Hm1.
  - cbn [listing_requests listing_final length take flat_map].
    intros [= <-] k. rewrite take_0. cbn [flat_map page_users].
    rewrite Hiter, app_nil_r. apply Hm1.
Qed.

(** X21. The listing maps each key to the identifier of the last user listed
    under it, over all the pages read: the key of a user is the email of the
    profile, or the login when there is no email, lower-cased. A user with
    neither is not in the listing, and of two users with the same key only the
    later one is. *)
Theorem listing_holds_last_user_of_each_key
    (responses : list listing_response) (members : gmap string pyval) :
  listing_final (_okta_list_group_users py responses) = Members members →
  ∀ k, members !! k
       = member_id
         <$> last (filter (λ u, member_key py u = Some k)
                     (flat_map page_users
                        (take (length (listing_requests
                                         (_okta_list_group_users py
                                            responses)))
                           responses))).
Proof.
  intros Hfinal k. unfold _okta_list_group_users in *.
  rewrite (listing_loop_members _ _ _ _ Hfinal k).
  by destruct (last _).
Qed.

(** *** The [Link] header *)

Lemma after_first_app (c : ascii) (pre rest : string) :
  occurs c pre = false →
  after_first c (pre +:+ String c rest) = Some rest.
Proof.
  induction pre as [|a pre IH]; intros Hpre.
  - change (after_first c (String c rest) = Some rest). simpl.
    by rewrite Ascii.eqb_refl.
  - change (after_first c (String a (pre +:+ String c rest)) = Some rest).
    simpl in Hpre |- *. apply orb_false_iff in Hpre as [-> Hpre]. by apply IH.
Qed.

Lemma split_first_app (c : ascii) (url rest : string) :
  occurs c url = false →
  split_first c (url +:+ String c rest) = url.
Proof.
  induction url as [|a url IH]; intros Hurl.
  - change (split_first c (String c rest) = ""). simpl.
    by rewrite Ascii.eqb_refl.
  - change (split_first c (String a (url +:+ String c rest)) = String a url).
    simpl in Hurl |- *. apply orb_false_iff in Hurl as [-> Hurl].
    by rewrite IH.
Qed.

(** The address followed is the first one between angle brackets in the
    header, whatever relation that link has: it is enough that
    [rel="next"] occurs somewhere in the header. *)
Lemma next_url_first_link (pre url post : string) :
  occurs "<" pre = false →
  occurs ">" url = false →
  url ≠ "" →
  py_contains rel_next (pre +:+ "<" +:+ url +:+ ">" +:+ post) = true →
  next_url (Some (pre +:+ "<" +:+ url +:+ ">" +:+ post)) = Some url.
Proof.
  intros Hpre Hurl Hne Hnext. unfold next_url. rewrite Hnext.
  assert (String.eqb (pre +:+ "<" +:+ url +:+ ">" +:+ post) "" = false)
    as -> by by destruct pre.
  cbn [negb andb]. unfold split_last.
  change (pre +:+ "<" +:+ url +:+ ">" +:+ post)
    with (pre +:+ String "<" (url +:+ String ">" post)).
  rewrite after_first_app by done. cbn [default id].
  rewrite split_first_app by done.
  by rewrite (proj2 (String.eqb_neq _ _)).
Qed.

(** X23. The listing follows the first link of the header. When the header
    names the page itself before the next one, the listing asks for the same
    page again, and, as long as it is answered alike, never gets to the next
    page and never ends. *)
Theorem listing_follows_first_link
    (users : pyval) (pre url post : string) (members : gmap string pyval)
    (n : nat) :
  occurs "<" pre = false →
  occurs ">" url = false →
  url ≠ "" →
  py_contains rel_next (pre +:+ "<" +:+ url +:+ ">" +:+ post) = true →
  (users ← py_iter users; for_loop (member_loop_body py) users ∅)
  = Ok members →
  _okta_list_group_users py
    (replicate n
       (ListingPage users (Some (pre +:+ "<" +:+ url +:+ ">" +:+ post))))
  = {| listing_requests := GroupUsers :: replicate n (FollowLink url);
       listing_final := AwaitingListing |}.
Proof.
  intros Hpre Hurl Hne Hnext Husers.
  pose proof (next_url_first_link pre url post Hpre Hurl Hne Hnext) as Hlink.
  unfold _okta_list_group_users.
  generalize GroupUsers. generalize (∅ : gmap string pyval).
  induction n as [|n IH]; intros members0 request; [done|].
  cbn [replicate listing_loop]. rewrite Hlink.
  destruct (py_iter users) as [users'|] eqn:Hiter; [|done].
  cbn [mbind result_bind] in Husers |- *.
  destruct (for_loop (member_loop_body py) users' members0) as [m1|e] eqn:Hloop.
  - by rewrite IH.
  - apply (member_loop_raises _ _ ∅) in Hloop. congruence.
Qed.

(** X22. The first request is for the users of the group; every further
    request goes to an address taken from the [Link] header of the page before
    it, and is made only when that header is not empty, contains [rel="next"]
    and gives an address that is not empty. When the listing returns, the last
    page read had no such header. *)
Theorem listing_requests_follow_links (responses : list listing_response) :
  let run := _okta_list_group_users py responses in
  listing_requests run !! 0%nat = Some GroupUsers
  ∧ (∀ i req,
       listing_requests run !! S i = Some req →
       ∃ users link,
         responses !! i = Some (ListingPage users (Some link))
         ∧ link ≠ ""
         ∧ py_contains rel_next link = true
         ∧ split_first ">" (split_last "<" link) ≠ ""
         ∧ req = FollowLink (split_first ">" (split_last "<" link)))
  ∧ (∀ members,
       listing_final run = Members members →
       ∃ users link,
         last (take (length (listing_requests run)) responses)
         = Some (ListingPage users link)
         ∧ next_url link = None).
Proof.
  unfold _okta_list_group_users. generalize GroupUsers.
  generalize (∅ : gmap string pyval).
  assert (∀ link url, next_url link = Some url →
    ∃ link', link = Some link' ∧ link' ≠ ""
             ∧ py_contains rel_next link' = true
             ∧ split_first ">" (split_last "<" link') ≠ ""
             ∧ url = split_first ">" (split_last "<" link')) as Hnext.
  { intros [link'|] url; [|done]. unfold next_url.
    destruct (String.eqb_spec link' "") as [->|Hne]; [done|]. cbn [negb andb].
    destruct (py_contains rel_next link') eqn:Hc; [|done]. cbn zeta.
    destruct (String.eqb_spec (split_first ">" (split_last "<" link')) "");
      [done|].
    intros [= <-]. by exists link'. }
  induction responses as [|[|users link] responses IH];
    intros members0 request; cbn [listing_loop].
  - split_and!; [done|by intros [|?] ?|done].
  - split_and!; [done|by intros [|?] ?|done].
  - destruct (_ ← py_iter users; _) as [m1|e].
    2:{ split_and!; [done|by intros [|?] ?|done]. }
    destruct (next_url link) as [url|] eqn:Hlink.
    + destruct (IH m1 (FollowLink url)) as (Hfirst & Hrest & Hlast).
      cbn [listing_requests listing_final]. split_and!; [done| |].
      * intros [|i] req Hreq; rewrite lookup_cons in Hreq.
        -- rewrite Hfirst in Hreq. injection Hreq as <-.
           destruct (Hnext _ _ Hlink) as (link' & -> & ? & ? & ? & ->).
           by exists users, link'.
        -- by apply Hrest.
      * intros members Hfinal.
        destruct (Hlast members Hfinal) as (users' & link' & Hl & ?).
        exists users', link'. split; [|done].
        cbn [length take]. rewrite last_cons, Hl. done.
    + cbn [listing_requests listing_final]. split_and!; [done| |].
      * by intros [|?] ?.
      * intros members _. exists users, link. cbn [length take].
        by rewrite take_0.
Qed.

End listing_facts.

Lemma listing_holds_last_user_of_each_key_witness :
  _okta_list_group_users example_builtins
    [ListingPage (PList [okta_user "00ua" "A@x.com";
                         PDict [("id", PStr "00ux")];
                         okta_user "00ub" "a@X.com"]) None]
  = {| listing_requests := [GroupUsers];
       listing_final := Members {["a@x.com" := PStr "00ub"]} |}
  ∧ ({["a@x.com" := PStr "00ub"]} : gmap string pyval) !! "a@x.com"
    = Some (PStr "00ub").
Proof.
  split; [reflexivity|].
  rewrite (listing_holds_last_user_of_each_key example_builtins
    [ListingPage (PList [okta_user "00ua" "A@x.com";
                         PDict [("id", PStr "00ux")];
                         okta_user "00ub" "a@X.com"]) None]
    {["a@x.com" := PStr "00ub"]} eq_refl "a@x.com").
  reflexivity.
Defined.

Lemma listing_follows_first_link_witness :
  link_self_next
  = "" +:+ "<" +:+ "https://o/api/v1/groups/g/users?limit=200" +:+ ">"
    +:+ ("; " +:+ rel_self
         +:+ ", <https://o/api/v1/groups/g/users?after=u2&limit=200>; "
         +:+ rel_next)
  ∧ _okta_list_group_users example_builtins
      (replicate 3
         (ListingPage (PList [okta_user "00ua" "a@x.com"])
            (Some link_self_next)))
    = {| listing_requests :=
           GroupUsers
           :: replicate 3
                (FollowLink "https://o/api/v1/groups/g/users?limit=200");
         listing_final := AwaitingListing |}.
Proof.
  split; [reflexivity|].
  exact (listing_follows_first_link example_builtins
    (PList [okta_user "00ua" "a@x.com"])
    "" "https://o/api/v1/groups/g/users?limit=200"
    ("; " +:+ rel_self
     +:+ ", <https://o/api/v1/groups/g/users?after=u2&limit=200>; "
     +:+ rel_next)
    {["a@x.com" := PStr "00ua"]} 3
    eq_refl eq_refl ltac:(done) eq_refl eq_refl).
Defined.

(** ** [time_off_tracking] *)

Section entry_point_facts.
Context (py : builtins) (cfg : config) (conf : settings) (env : environment).

Lemma item_loop_entries today entries : ∀ st : ledgers,
  for_loop (item_loop_body py today) (PDict <$> entries) st
  = for_loop (ledger_loop_body py today) entries st.
Proof.
  induction entries as [|entry entries IH]; intros st; [done|].
  rewrite fmap_cons. cbn [for_loop item_loop_body].
  by destruct (ledger_loop_body py today st entry).
Qed.

(** X24. Consuming the generator as it yields is computing on the list of what
    it yields: when the generator returns and every item is a JSON object, the
    result is that of [compute_long_term_emails] on the list of the items.
    When a page fails, nothing is computed from the pages before it: the run
    raises. *)
Theorem compute_over_fetch_complete
    (today : date) (run : fetch_run) (entries : list (pydict pyval)) :
  yielded_items run = PDict <$> entries →
  (fetch_final run = Returned →
   compute_over_fetch py cfg today run
   = Some (compute_long_term_emails py cfg entries today))
  ∧ (∀ e, fetch_final run = Raised e →
       ∃ e', compute_over_fetch py cfg today run = Some (Raise e')).
Proof.
  intros Hitems. unfold compute_over_fetch, compute_long_term_emails,
    build_ledgers.
  rewrite Hitems, item_loop_entries.
  destruct (for_loop (ledger_loop_body py today) entries ([], []))
    as [[ui ua]|e0]; split.
  - by intros ->.
  - intros e ->. eauto.
  - done.
  - intros e _. eauto.
Qed.

Lemma track_calls_in_plan (world : services) :
  (track py cfg world).1 ≠ [] →
  ∃ E M,
    compute_over_fetch py cfg (today world)
      (fetch_time_offs cfg (deel world)) = Some (Ok E)
    ∧ fetch_final (fetch_time_offs cfg (deel world)) = Returned
    ∧ listing_final (_okta_list_group_users py (okta_listing world))
      = Members M
    ∧ (track py cfg world).1 = (sync_okta_group (okta world) E M).1.
Proof.
  unfold track.
  destruct (compute_over_fetch _ _ _ _) as [[E|e]|] eqn:Hcompute; [|done..].
  destruct (listing_final _) as [M|e|] eqn:Hlisting; [|done..].
  intros _. exists E, M. split_and!; [done| |done|].
  - revert Hcompute. unfold compute_over_fetch.
    destruct (for_loop _ _ _) as [[ui ua]|]; [|done].
    by destruct (fetch_final _).
  - by destruct (sync_okta_group _ _ _) as [calls [[]|e]].
Qed.

Lemma time_off_tracking_calls (world : services) (st : module_state) :
  okta_calls (time_off_tracking py cfg conf env world st) ≠ [] →
  okta_calls (time_off_tracking py cfg conf env world st)
  = (track py cfg world).1.
Proof.
  unfold time_off_tracking.
  repeat (case_match; cbn [okta_calls]; try done).
  all: by simplify_eq/=.
Qed.

(** X25. The group is changed only on the strength of a completed run: when a
    directory call is made, the generator has returned, the eligible set has
    been computed from all it yielded, the membership has been listed to its
    end, and the calls are those of [sync_okta_group] for that set and that
    listing. A failure while reading the records, a page of records that
    fails, or a listing that fails leaves the group as it was. *)
Theorem okta_changes_follow_a_completed_run
    (world : services) (st : module_state) :
  okta_calls (time_off_tracking py cfg conf env world st) ≠ [] →
  ∃ E M,
    fetch_final (fetch_time_offs cfg (deel world)) = Returned
    ∧ compute_over_fetch py cfg (today world)
        (fetch_time_offs cfg (deel world)) = Some (Ok E)
    ∧ listing_final (_okta_list_group_users py (okta_listing world))
      = Members M
    ∧ okta_calls (time_off_tracking py cfg conf env world st)
      = (sync_okta_group (okta world) E M).1.
Proof.
  intros Hcalls. rewrite (time_off_tracking_calls _ _ Hcalls) in Hcalls |- *.
  destruct (track_calls_in_plan world Hcalls) as (E & M & ? & ? & ? & Heq).
  by exists E, M.
Qed.

Lemma time_off_tracking_summary
    (world : services) (st : module_state) n l :
  tracking_final (time_off_tracking py cfg conf env world st)
  = Replied (SummaryReply n l) →
  track py cfg world
  = (okta_calls (time_off_tracking py cfg conf env world st),
     Replied (SummaryReply n l)).
Proof.
  unfold time_off_tracking.
  repeat (case_match; cbn [okta_calls tracking_final]; try done).
  all: by intros ->.
Qed.

(** X26. The summary is that of the computation: it lists the eligible
    identities in ascending order, each once, and counts them, after the
    generator has returned, the membership has been listed and every call of
    [sync_okta_group] has succeeded. It counts the identities computed,
    whether or not the directory knew them. *)
Theorem summary_reports_the_eligible_set
    (world : services) (st : module_state) (n : Z) (l : list string) :
  tracking_final (time_off_tracking py cfg conf env world st)
  = Replied (SummaryReply n l) →
  ∃ E M,
    compute_over_fetch py cfg (today world)
      (fetch_time_offs cfg (deel world)) = Some (Ok E)
    ∧ listing_final (_okta_list_group_users py (okta_listing world))
      = Members M
    ∧ sync_okta_group (okta world) E M
      = (okta_calls (time_off_tracking py cfg conf env world st), Ok ())
    ∧ l = py_sorted_set E
    ∧ n = Z.of_nat (length l)
    ∧ NoDup l
    ∧ StronglySorted str_le l
    ∧ ∀ email, email ∈ l ↔ email ∈ E.
Proof.
  intros Htrack%time_off_tracking_summary. revert Htrack.
  generalize (okta_calls (time_off_tracking py cfg conf env world st)).
  intros calls. unfold track.
  destruct (compute_over_fetch _ _ _ _) as [[E|e]|]; [|done..].
  destruct (listing_final _) as [M|e|]; [|done..].
  destruct (sync_okta_group _ _ _) as [calls' [[]|e]] eqn:Hsync; [|done].
  intros [= <- <- <-]. exists E, M. split_and!; try done.
  - f_equal. unfold size, set_size. simpl.
    by rewrite py_sorted_set_perm.
  - apply py_sorted_set_NoDup.
  - apply py_sorted_set_sorted.
  - apply elem_of_py_sorted_set.
Qed.

(** *** A second call *)

Lemma _get_secret_value_Some access cache secret_name value :
  secret_value (_get_secret_value env access cache secret_name)
  = Got (Some value) →
  secret_name ≠ ""
  ∧ cache_after (_get_secret_value env access cache secret_name)
      !! secret_name = Some value.
Proof.
  unfold _get_secret_value.
  destruct (String.eqb_spec secret_name "") as [->|Hname]; [done|].
  destruct (cache !! secret_name) as [cached|] eqn:Hcache.
  { cbn. by intros [= <-]. }
  destruct (String.prefix "projects/" secret_name);
    [|lazy zeta; destruct (String.eqb (_get_project_id env) "")];
    lazy beta iota zeta; try destruct (access _) as [value'|e];
    cbn [cache_after secret_value]; try done;
    intros [= <-]; by rewrite lookup_insert_eq.
Qed.

Lemma _get_secret_value_None access cache secret_name :
  secret_value (_get_secret_value env access cache secret_name) = Got None →
  secret_name = "".
Proof.
  unfold _get_secret_value.
  destruct (String.eqb_spec secret_name "") as [->|Hname]; [done|].
  destruct (cache !! secret_name) as [cached|] eqn:Hcache; [done|].
  destruct (String.prefix "projects/" secret_name);
    [|lazy zeta; destruct (String.eqb (_get_project_id env) "")];
    lazy beta iota zeta; try destruct (access _) as [value'|e]; done.
Qed.

Lemma _get_secret_value_grows access cache secret_name :
  cache ⊆ cache_after (_get_secret_value env access cache secret_name).
Proof.
  unfold _get_secret_value.
  destruct (String.eqb_spec secret_name "") as [->|Hname]; [done|].
  destruct (cache !! secret_name) as [cached|] eqn:Hcache; [done|].
  destruct (String.prefix "projects/" secret_name);
    [|lazy zeta; destruct (String.eqb (_get_project_id env) "")];
    lazy beta iota zeta; try destruct (access _) as [value'|e];
    cbn [cache_after]; try done; by apply insert_subseteq.
Qed.

Lemma _get_secret_value_cached access cache secret_name value :
  secret_name ≠ "" →
  cache !! secret_name = Some value →
  _get_secret_value env access cache secret_name
  = {| cache_after := cache; accessed := [];
       secret_value := Got (Some value) |}.
Proof.
  intros Hname Hcache. unfold _get_secret_value.
  by rewrite (proj2 (String.eqb_neq _ _) Hname), Hcache.
Qed.

Lemma _get_secret_value_empty access cache :
  _get_secret_value env access cache ""
  = {| cache_after := cache; accessed := []; secret_value := Got None |}.
Proof. done. Qed.

Lemma configured_state_after (world : services) (st : module_state) :
  configured (time_off_tracking py cfg conf env world st) →
  ∃ cache (v1 : option string) (s2 s3 : string),
    state_after (time_off_tracking py cfg conf env world st)
    = {| _secret_cache := cache;
         OKTA_GROUP_ID := or_setting v1 (OKTA_GROUP_ID st) |}
    ∧ String.eqb (OKTA_ORG_URL conf) "" = false
    ∧ String.eqb (or_setting v1 (OKTA_GROUP_ID st)) "" = false
    ∧ match v1 with
      | Some s1 =>
          OKTA_GROUP_ID_SECRET conf ≠ ""
          ∧ cache !! OKTA_GROUP_ID_SECRET conf = Some s1
      | None => OKTA_GROUP_ID_SECRET conf = ""
      end
    ∧ String.eqb s2 "" = false
    ∧ OKTA_API_TOKEN_SECRET conf ≠ ""
    ∧ cache !! OKTA_API_TOKEN_SECRET conf = Some s2
    ∧ String.eqb s3 "" = false
    ∧ DEEL_API_TOKEN_SECRET conf ≠ ""
    ∧ cache !! DEEL_API_TOKEN_SECRET conf = Some s3.
Proof.
  unfold configured, time_off_tracking.
  destruct (String.eqb (OKTA_ORG_URL conf) "") eqn:Hurl; [done|].
  lazy zeta.
  set (read1 := _get_secret_value env (secret_manager world 0)
                  (_secret_cache st) (OKTA_GROUP_ID_SECRET conf)).
  destruct (secret_value read1) as [v1|] eqn:Hv1; [|done].
  destruct (String.eqb (or_setting v1 (OKTA_GROUP_ID st)) "") eqn:Hgid;
    [done|].
  set (read2 := _get_secret_value env
                  (secret_manager world (length (accessed read1)))
                  (cache_after read1) (OKTA_API_TOKEN_SECRET conf)).
  destruct (secret_value read2) as [[s2|]|] eqn:Hv2; [|done..].
  cbn [missing]. destruct (String.eqb s2 "") eqn:Hs2; [done|].
  set (read3 := _get_secret_value env
                  (secret_manager world
                     (length (accessed read1 ++ accessed read2)))
                  (cache_after read2) (DEEL_API_TOKEN_SECRET conf)).
  destruct (secret_value read3) as [[s3|]|] eqn:Hv3; [|done..].
  cbn [missing]. destruct (String.eqb s3 "") eqn:Hs3; [done|].
  intros _. exists (cache_after read3), v1, s2, s3.
  pose proof (_get_secret_value_grows
    (secret_manager world (length (accessed read1)))
    (cache_after read1) (OKTA_API_TOKEN_SECRET conf)) as Hsub2.
  pose proof (_get_secret_value_grows
    (secret_manager world (length (accessed read1 ++ accessed read2)))
    (cache_after read2) (DEEL_API_TOKEN_SECRET conf)) as Hsub3.
  fold read2 in Hsub2, Hsub3. fold read3 in Hsub3.
  apply _get_secret_value_Some in Hv2 as [Hname2 Hcache2].
  apply _get_secret_value_Some in Hv3 as [Hname3 Hcache3].
  split_and!; try done.
  - by destruct (track py cfg world).
  - destruct v1 as [s1|].
    + apply _get_secret_value_Some in Hv1 as [Hname1 Hcache1].
      split; [done|].
      eapply lookup_weaken; [|exact Hsub3].
      eapply lookup_weaken; [|exact Hsub2]. exact Hcache1.
    + by apply _get_secret_value_None in Hv1.
  - eapply lookup_weaken; [|exact Hsub3]. exact Hcache2.
Qed.

(** X27. A call that got past the configuration leaves a state in which every
    later call finds its configuration without asking Secret Manager for
    anything: the group identifier and the two tokens are those of the first
    call, whatever Secret Manager holds by then, and the state is left as it
    is. *)
Theorem warm_call_reads_no_secret
    (world world' : services) (st : module_state) :
  configured (time_off_tracking py cfg conf env world st) →
  let st' := state_after (time_off_tracking py cfg conf env world st) in
  time_off_tracking py cfg conf env world' st'
  = {| state_after := st';
       secrets_accessed := [];
       okta_calls := (track py cfg world').1;
       tracking_final := (track py cfg world').2 |}.
Proof.
  intros (cache & v1 & s2 & s3 & -> & Hurl & Hgid & Hv1 & Hs2 & Hname2
          & Hcache2 & Hs3 & Hname3 & Hcache3)%configured_state_after.
  lazy zeta. unfold time_off_tracking. rewrite Hurl. lazy zeta.
  cbn [_secret_cache OKTA_GROUP_ID].
  assert (∃ v1',
    _get_secret_value env (secret_manager world' 0) cache
      (OKTA_GROUP_ID_SECRET conf)
    = {| cache_after := cache; accessed := []; secret_value := Got v1' |}
    ∧ or_setting v1' (or_setting v1 (OKTA_GROUP_ID st))
      = or_setting v1 (OKTA_GROUP_ID st)) as (v1' & -> & Hgid').
  { destruct v1 as [s1|].
    - destruct Hv1 as [Hname1 Hcache1]. exists (Some s1). split.
      + by apply _get_secret_value_cached.
      + unfold or_setting, str_or, missing.
        by destruct (String.eqb s1 "").
    - exists None. split; [|done]. rewrite Hv1.
      apply _get_secret_value_empty. }
  cbn [secret_value cache_after accessed length app].
  rewrite Hgid', Hgid.
  rewrite (_get_secret_value_cached _ _ _ s2) by done.
  cbn [secret_value cache_after accessed length app missing].
  rewrite Hs2.
  rewrite (_get_secret_value_cached _ _ _ s3) by done.
  cbn [secret_value cache_after accessed length app missing].
  rewrite Hs3. by destruct (track py cfg world').
Qed.

(** *** The error replies *)

Lemma missing_secret access cache secret_name value :
  secret_value (_get_secret_value env access cache secret_name) = Got value →
  missing value = true →
  secret_name = ""
  ∨ cache_after (_get_secret_value env access cache secret_name)
      !! secret_name = Some "".
Proof.
  destruct value as [s|]; simpl.
  - intros Hv Hs%String.eqb_eq. subst s.
    apply _get_secret_value_Some in Hv as [_ Hcache]. by right.
  - intros Hv _. apply _get_secret_value_None in Hv. by left.
Qed.

(** X28. An error reply always carries the status 500 and names the first
    setting that is missing, in the order: the address of the directory, the
    group, the token of the directory, the token of the record source. The
    group may come from its secret or, failing that, from [OKTA_GROUP_ID]; a
    token comes from its secret only, and is missing when the name of the
    secret is not set or the secret is empty. No directory call has been made
    by then. *)
Theorem error_reply_names_the_missing_setting
    (world : services) (st : module_state) (message : string) (status : Z) :
  tracking_final (time_off_tracking py cfg conf env world st)
  = Replied (ErrorReply message status) →
  let st' := state_after (time_off_tracking py cfg conf env world st) in
  status = 500
  ∧ okta_calls (time_off_tracking py cfg conf env world st) = []
  ∧ (message = "OKTA_ORG_URL not set"
     ∧ OKTA_ORG_URL conf = ""
     ∧ secrets_accessed (time_off_tracking py cfg conf env world st) = []
     ∧ st' = st
     ∨ OKTA_ORG_URL conf ≠ ""
       ∧ (message = "OKTA_GROUP_ID not set"
          ∧ OKTA_GROUP_ID st = ""
          ∧ (OKTA_GROUP_ID_SECRET conf = ""
             ∨ _secret_cache st' !! OKTA_GROUP_ID_SECRET conf = Some "")
          ∨ OKTA_GROUP_ID st' ≠ ""
            ∧ (message = "OKTA_API_TOKEN not set"
               ∧ (OKTA_API_TOKEN_SECRET conf = ""
                  ∨ _secret_cache st' !! OKTA_API_TOKEN_SECRET conf
                    = Some "")
               ∨ message = "DEEL_API_TOKEN not set"
                 ∧ (∃ okta_token,
                      okta_token ≠ ""
                      ∧ _secret_cache st' !! OKTA_API_TOKEN_SECRET conf
                        = Some okta_token)
                 ∧ (DEEL_API_TOKEN_SECRET conf = ""
                    ∨ _secret_cache st' !! DEEL_API_TOKEN_SECRET conf
                      = Some "")))).
Proof.
  unfold time_off_tracking.
  destruct (String.eqb_spec (OKTA_ORG_URL conf) "") as [Hurl|Hurl].
  { cbn. intros [= <- <-]. split_and!; [done..|]. left. by split_and!. }
  lazy zeta.
  set (read1 := _get_secret_value env (secret_manager world 0)
                  (_secret_cache st) (OKTA_GROUP_ID_SECRET conf)).
  destruct (secret_value read1) as [v1|] eqn:Hv1; [|done].
  destruct (String.eqb_spec (or_setting v1 (OKTA_GROUP_ID st)) "")
    as [Hgid|Hgid].
  { cbn [tracking_final okta_calls state_after _secret_cache OKTA_GROUP_ID].
    intros [= <- <-]. split_and!; [done..|]. right. split; [done|]. left.
    assert (missing v1 = true ∧ OKTA_GROUP_ID st = "") as [Hm1 HG].
    { revert Hgid. unfold or_setting, str_or, missing.
      destruct v1 as [s1|]; [|done]. by destruct (String.eqb_spec s1 ""). }
    split_and!; [done..|]. by eapply missing_secret. }
  set (read2 := _get_secret_value env
                  (secret_manager world (length (accessed read1)))
                  (cache_after read1) (OKTA_API_TOKEN_SECRET conf)).
  destruct (secret_value read2) as [v2|] eqn:Hv2; [|done].
  destruct (missing v2) eqn:Hm2.
  { cbn [tracking_final okta_calls state_after _secret_cache OKTA_GROUP_ID].
    intros [= <- <-]. split_and!; [done..|]. right. split; [done|]. right.
    split; [done|]. left. split; [done|]. by eapply missing_secret. }
  set (read3 := _get_secret_value env
                  (secret_manager world
                     (length (accessed read1 ++ accessed read2)))
                  (cache_after read2) (DEEL_API_TOKEN_SECRET conf)).
  destruct (secret_value read3) as [v3|] eqn:Hv3; [|done].
  destruct (missing v3) eqn:Hm3.
  { cbn [tracking_final okta_calls state_after _secret_cache OKTA_GROUP_ID].
    intros [= <- <-]. split_and!; [done..|]. right. split; [done|]. right.
    split; [done|]. right. split_and!; [done| |by eapply missing_secret].
    destruct v2 as [s2|]; [|done]. exists s2. split.
    - intros ->. by simpl in Hm2.
    - apply _get_secret_value_Some in Hv2 as [_ Hcache2].
      eapply lookup_weaken; [exact Hcache2|].
      apply _get_secret_value_grows. }
  unfold track.
  destruct (compute_over_fetch _ _ _ _) as [[E|e]|]; [|done..].
  destruct (listing_final _) as [M|e|]; [|done..].
  by destruct (sync_okta_group _ _ _) as [calls' [[]|e]].
Qed.

End entry_point_facts.

(** *** A worked call *)

Example tracking_example :
  time_off_tracking example_builtins default_config example_settings
    example_environment example_services example_state
  = {| state_after :=
         {| _secret_cache :=
              {["okta-token" := "s3cr3t";
                "projects/p1/secrets/deel-token" := "d33l"]};
            OKTA_GROUP_ID := "g" |};
       secrets_accessed :=
         ["projects/p1/secrets/okta-token/versions/latest";
          "projects/p1/secrets/deel-token/versions/latest"];
       okta_calls :=
         [LookupUser "a@x.com"; DeleteMember "b@x.com" (PStr "00ub")];
       tracking_final := Replied (SummaryReply 1 ["a@x.com"]) |}.
Proof. by vm_compute. Qed.

Lemma compute_over_fetch_complete_witness :
  yielded_items (fetch_time_offs default_config (deel example_services))
  = PDict <$> [record_january; record_february]
  ∧ compute_over_fetch example_builtins default_config (day 2024 1 15)
      (fetch_time_offs default_config (deel example_services))
    = Some (compute_long_term_emails example_builtins default_config
              [record_january; record_february] (day 2024 1 15)).
Proof.
  split; [reflexivity|].
  exact (proj1 (compute_over_fetch_complete example_builtins default_config
                  (day 2024 1 15)
                  (fetch_time_offs default_config (deel example_services))
                  [record_january; record_february] eq_refl) eq_refl).
Defined.

Lemma okta_changes_follow_a_completed_run_witness :
  okta_calls
    (time_off_tracking example_builtins default_config example_settings
       example_environment example_services example_state) ≠ []
  ∧ ∃ E M,
      fetch_final (fetch_time_offs default_config (deel example_services))
      = Returned
      ∧ compute_over_fetch example_builtins default_config
          (today example_services)
          (fetch_time_offs default_config (deel example_services))
        = Some (Ok E)
      ∧ listing_final
          (_okta_list_group_users example_builtins
             (okta_listing example_services))
        = Members M
      ∧ okta_calls
          (time_off_tracking example_builtins default_config example_settings
             example_environment example_services example_state)
        = (sync_okta_group (okta example_services) E M).1.
Proof.
  assert (okta_calls
    (time_off_tracking example_builtins default_config example_settings
       example_environment example_services example_state) ≠ []) as H
    by by vm_compute.
  split; [done|].
  exact (okta_changes_follow_a_completed_run example_builtins default_config
           example_settings example_environment example_services
           example_state H).
Defined.

Lemma summary_reports_the_eligible_set_witness :
  tracking_final
    (time_off_tracking example_builtins default_config example_settings
       example_environment example_services example_state)
  = Replied (SummaryReply 1 ["a@x.com"])
  ∧ ∃ E M,
      compute_over_fetch example_builtins default_config
        (today example_services)
        (fetch_time_offs default_config (deel example_services))
      = Some (Ok E)
      ∧ listing_final
          (_okta_list_group_users example_builtins
             (okta_listing example_services))
        = Members M
      ∧ sync_okta_group (okta example_services) E M
        = (okta_calls
             (time_off_tracking example_builtins default_config
                example_settings example_environment example_services
                example_state), Ok ())
      ∧ ["a@x.com"] = py_sorted_set E
      ∧ 1 = Z.of_nat (length ["a@x.com"])
      ∧ NoDup ["a@x.com"]
      ∧ StronglySorted str_le ["a@x.com"]
      ∧ ∀ email, email ∈ ["a@x.com"] ↔ email ∈ E.
Proof.
  assert (tracking_final
    (time_off_tracking example_builtins default_config example_settings
       example_environment example_services example_state)
    = Replied (SummaryReply 1 ["a@x.com"])) as H by by vm_compute.
  split; [done|].
  exact (summary_reports_the_eligible_set example_builtins default_config
           example_settings example_environment example_services
           example_state 1 ["a@x.com"] H).
Defined.

Lemma warm_call_reads_no_secret_witness :
  configured
    (time_off_tracking example_builtins default_config example_settings
       example_environment example_services example_state)
  ∧ secrets_accessed
      (time_off_tracking example_builtins default_config example_settings
         example_environment silent_services
         (state_after
            (time_off_tracking example_builtins default_config
               example_settings example_environment example_services
               example_state)))
    = []
  ∧ tracking_final
      (time_off_tracking example_builtins default_config example_settings
         example_environment silent_services
         (state_after
            (time_off_tracking example_builtins default_config
               example_settings example_environment example_services
               example_state)))
    = RunFailed HTTPError.
Proof.
  assert (configured
    (time_off_tracking example_builtins default_config example_settings
       example_environment example_services example_state)) as H
    by by vm_compute.
  split; [done|].
  rewrite (warm_call_reads_no_secret example_builtins default_config
             example_settings example_environment example_services
             silent_services example_state H).
  split; reflexivity.
Defined.

Lemma error_reply_names_the_missing_setting_witness :
  time_off_tracking example_builtins default_config settings_without_token
    example_environment example_services example_state
  = {| state_after := example_state;
       secrets_accessed := [];
       okta_calls := [];
       tracking_final := Replied (ErrorReply "OKTA_API_TOKEN not set" 500) |}
  ∧ okta_calls
      (time_off_tracking example_builtins default_config
         settings_without_token example_environment example_services
         example_state)
    = [].
Proof.
  assert (tracking_final
    (time_off_tracking example_builtins default_config settings_without_token
       example_environment example_services example_state)
    = Replied (ErrorReply "OKTA_API_TOKEN not set" 500)) as H
    by by vm_compute.
  split; [by vm_compute|].
  exact (proj1 (proj2 (error_reply_names_the_missing_setting
    example_builtins default_config settings_without_token
    example_environment example_services example_state _ _ H))).
Defined.
